(** * The Transform macro (scripts/transform/transform.py)

    A shallow embedding of the controller class [MacroWindow] of the
    FreeCAD macro, and the properties of its drag gesture: translation of
    the selection, snapping to marker lines, removal of the temporary
    center marks, selection filtering and the marker colour dialog.

    Python floats and the coordinates of [FreeCAD.Vector] are IEEE 754
    binary64 numbers: they are embedded as the primitive [float] type, whose
    operations are the processor's.  Python integers (slider values, colour
    components) are embedded as [Z].  Exceptions are embedded as the
    [Raise] results of the [Exc] type. *)

From Stdlib Require Import ZArith List String Ascii Bool Lia.
From Stdlib Require Import Floats Uint63.
Import ListNotations.

(* ================================================================== *)
(** * Definitions *)

(* ================================================================== *)
(** ** Numbers *)

(** Conversion of a Python integer to a float, as [int * float] and
    [int / float] perform it before the operation (exact for the slider and
    colour ranges of the macro). *)
Definition float_of_int (n : Z) : float :=
  match n with
  | Z0 => zero
  | Zpos _ => of_uint63 (Uint63.of_Z n)
  | Zneg p => PrimFloat.opp (of_uint63 (Uint63.of_Z (Zpos p)))
  end.

(** [n * f] for an integer [n] and a float [f]. *)
Definition int_mul_float (n : Z) (f : float) : float :=
  PrimFloat.mul (float_of_int n) f.

(** [float(10 ** v)]: an integer power for [v >= 0]; for [v < 0] Python's
    [int ** int] already yields the float [10.0 ** v]. *)
Definition pow10 (v : Z) : float :=
  match v with
  | Zneg p => PrimFloat.div one (float_of_int (10 ^ Zpos p))
  | _ => float_of_int (10 ^ v)
  end.

(** Python's [==] on floats, and the relation "the same number": identical
    (which covers NaN, unique in this embedding) or equal for [==] (which
    identifies the two zeros). *)
Definition py_eq (a b : float) : bool := PrimFloat.eqb a b.

Definition same_number (a b : float) : Prop := a = b \/ py_eq a b = true.

(* ================================================================== *)
(** ** Vectors and colours *)

(** [FreeCAD.Vector]. *)
Record Vector : Set := mkVector { vx : float; vy : float; vz : float }.

Definition vadd (p q : Vector) : Vector :=
  mkVector (vx p + vx q)%float (vy p + vy q)%float (vz p + vz q)%float.

Definition vsub (p q : Vector) : Vector :=
  mkVector (vx p - vx q)%float (vy p - vy q)%float (vz p - vz q)%float.

(** A colour tuple [(r, g, b, a)]. *)
Definition Color : Set := (float * float * float * float)%type.

(* ================================================================== *)
(** ** Exceptions *)

Inductive PyError : Set :=
| AttributeError   (* attribute of [None], or an attribute an object lacks *)
| ReferenceError   (* access to a deleted document object *)
| IndexError       (* list index out of range *)
| FCError          (* the document refuses an operation *)
| RecursionError.  (* nesting of signal handlers exhausted *)

Inductive Exc (A : Type) : Type :=
| Ok (a : A)
| Raise (e : PyError).

Arguments Ok {A} a.

Arguments Raise {A} e.

Definition bind {A B} (m : Exc A) (k : A -> Exc B) : Exc B :=
  match m with
  | Ok a => k a
  | Raise e => Raise e
  end.

Declare Scope exc_scope.

Delimit Scope exc_scope with exc.

Notation "x <- m ;; k" := (bind m (fun x => k))
  (at level 61, m at next level, right associativity) : exc_scope.

Notation "' pat <- m ;; k" := (bind m (fun x => match x with pat => k end))
  (at level 61, pat pattern, m at next level, right associativity) : exc_scope.

Open Scope exc_scope.


(* ================================================================== *)
(** ** The host document *)

(** The unique internal name of a document object ([obj.Name]).  A Python
    reference to a document object is embedded as this name; the object is
    read from the document at each attribute access, so that an update made
    through one reference is seen through every other one. *)
Definition Name : Set := nat.

(** [type(obj.Shape)]. *)
Inductive ShapeClass : Set := PartFace | PartEdge | PartShapeOther.

(** [obj.Shape]: its Python class and the center of its bounding box in the
    frame of the object. *)
Record TopoShape : Set := mkShape {
  shapeClass : ShapeClass;
  localCenter : Vector
}.

(** [obj.ViewObject]. *)
Record ViewProvider : Set := mkView {
  LineColor : Color;
  LineWidth : Z;
  BoundingBox : bool
}.

(** A document object.  [TypeId] is a string on every object of the host.
    [Shape] and [Mesh] are [None] when the object has no such attribute.
    [X1] to [Z2] are the end points of a [Part::Line]. *)
Record DocObject : Set := mkObj {
  ObjName : Name;
  Label : string;
  TypeId : string;
  PlacementBase : Vector;
  Shape : option TopoShape;
  Mesh : option Vector;
  Group : list Name;
  X1 : float; Y1 : float; Z1 : float;
  X2 : float; Y2 : float; Z2 : float;
  ViewObject : ViewProvider
}.

Definition Document : Set := list DocObject.

Definition named (n : Name) (o : DocObject) : bool := Nat.eqb (ObjName o) n.

(** Dereference of a Python reference: a deleted object raises. *)
Definition getObject (d : Document) (n : Name) : Exc DocObject :=
  match find (named n) d with
  | Some o => Ok o
  | None => Raise ReferenceError
  end.

(** Write through a reference. *)
Definition updObject (n : Name) (f : DocObject -> DocObject) (d : Document)
  : Document :=
  map (fun o => if named n o then f o else o) d.

Definition setPlacementBase (v : Vector) (o : DocObject) : DocObject :=
  mkObj (ObjName o) (Label o) (TypeId o) v (Shape o) (Mesh o) (Group o)
        (X1 o) (Y1 o) (Z1 o) (X2 o) (Y2 o) (Z2 o) (ViewObject o).

Definition setLabel (l : string) (o : DocObject) : DocObject :=
  mkObj (ObjName o) l (TypeId o) (PlacementBase o) (Shape o) (Mesh o) (Group o)
        (X1 o) (Y1 o) (Z1 o) (X2 o) (Y2 o) (Z2 o) (ViewObject o).

Definition setGroup (g : list Name) (o : DocObject) : DocObject :=
  mkObj (ObjName o) (Label o) (TypeId o) (PlacementBase o) (Shape o) (Mesh o) g
        (X1 o) (Y1 o) (Z1 o) (X2 o) (Y2 o) (Z2 o) (ViewObject o).

Definition setEnds (p q : Vector) (o : DocObject) : DocObject :=
  mkObj (ObjName o) (Label o) (TypeId o) (PlacementBase o) (Shape o) (Mesh o)
        (Group o) (vx p) (vy p) (vz p) (vx q) (vy q) (vz q) (ViewObject o).

Definition setViewObject (v : ViewProvider) (o : DocObject) : DocObject :=
  mkObj (ObjName o) (Label o) (TypeId o) (PlacementBase o) (Shape o) (Mesh o)
        (Group o) (X1 o) (Y1 o) (Z1 o) (X2 o) (Y2 o) (Z2 o) v.

Definition setLineColor (c : Color) (o : DocObject) : DocObject :=
  setViewObject (mkView c (LineWidth (ViewObject o)) (BoundingBox (ViewObject o))) o.

Definition setLineWidth (w : Z) (o : DocObject) : DocObject :=
  setViewObject (mkView (LineColor (ViewObject o)) w (BoundingBox (ViewObject o))) o.

Definition setBoundingBox (b : bool) (o : DocObject) : DocObject :=
  setViewObject (mkView (LineColor (ViewObject o)) (LineWidth (ViewObject o)) b) o.

(** [obj.TypeId == t]. *)
Definition typeIdIs (t : string) (o : DocObject) : bool :=
  String.eqb (TypeId o) t.

(** [obj.Shape.BoundBox.Center]: the bounding box follows the placement of
    the object; the edge of a [Part::Line] is rebuilt from its end points
    whenever one of them is set. *)
Definition midpoint (o : DocObject) : Vector :=
  mkVector ((X1 o + X2 o) / two)%float ((Y1 o + Y2 o) / two)%float
           ((Z1 o + Z2 o) / two)%float.

Definition shapeBoundBoxCenter (o : DocObject) : Exc Vector :=
  match Shape o with
  | Some sh =>
      Ok (vadd (if typeIdIs "Part::Line" o then midpoint o else localCenter sh)
               (PlacementBase o))
  | None => Raise AttributeError
  end.

(** [obj.Mesh.BoundBox.Center]. *)
Definition meshBoundBoxCenter (o : DocObject) : Exc Vector :=
  match Mesh o with
  | Some c => Ok (vadd c (PlacementBase o))
  | None => Raise AttributeError
  end.

(** [type(obj.Shape)]. *)
Definition shapeType (o : DocObject) : Exc ShapeClass :=
  match Shape o with
  | Some sh => Ok (shapeClass sh)
  | None => Raise AttributeError
  end.

Definition isFace (c : ShapeClass) : bool :=
  match c with PartFace => true | _ => false end.

(* ================================================================== *)
(** ** Strings of the macro *)

Definition dquote : string := String (ascii_of_nat 34) EmptyString.

Definition newline : string := String (ascii_of_nat 10) EmptyString.

Definition quoted (s : string) : string := (dquote ++ s ++ dquote)%string.

Definition GROUP_LABEL_CENTER_LINES : string := "lines_center".

Definition GROUP_LABEL_TEMP_CENTER_LINES : string := "lines_temp_center".

Definition GROUP_LABEL_ORIGIN_LINES : string := "lines_origin".

Definition LINE_CENTER_NAME_PREFIX : string := "line_center".

Definition LINE_CENTER_X_LABEL_PREFIX : string := (LINE_CENTER_NAME_PREFIX ++ "_cx")%string.

Definition LINE_CENTER_Y_LABEL_PREFIX : string := (LINE_CENTER_NAME_PREFIX ++ "_cy")%string.

Definition LINE_CENTER_Z_LABEL_PREFIX : string := (LINE_CENTER_NAME_PREFIX ++ "_cz")%string.

Definition LINE_ORIGIN_NAME_SUFFIX : string := "origin".

Definition LINE_ORIGIN_X_NAME : string :=
  (LINE_CENTER_X_LABEL_PREFIX ++ "_" ++ LINE_ORIGIN_NAME_SUFFIX)%string.

Definition LINE_ORIGIN_Y_NAME : string :=
  (LINE_CENTER_Y_LABEL_PREFIX ++ "_" ++ LINE_ORIGIN_NAME_SUFFIX)%string.

Definition LINE_ORIGIN_Z_NAME : string :=
  (LINE_CENTER_Z_LABEL_PREFIX ++ "_" ++ LINE_ORIGIN_NAME_SUFFIX)%string.

(** [label.startswith(p)]. *)
Definition startswith (label p : string) : bool := String.prefix p label.

(** [t.split("::")[0]]: the text before the first separator. *)
Fixpoint split_head (t : string) : string :=
  match t with
  | EmptyString => EmptyString
  | String c r =>
      match r with
      | String c' _ =>
          if (Ascii.eqb c ":" && Ascii.eqb c' ":")%bool then EmptyString
          else String c (split_head r)
      | EmptyString => String c EmptyString
      end
  end.

(** [label in names]. *)
Definition str_in (label : string) (names : list string) : bool :=
  existsb (String.eqb label) names.

(* ================================================================== *)
(** ** The window and the host application *)

(** [ObjectParameters]: a reference to a design object and what was read
    from it when the record was made. *)
Record ObjectParameters : Set := mkParams {
  object : Name;
  base : Vector;
  center : Vector;
  boundingBoxEnabled : bool
}.

(** The widgets of [Ui_MainWindow] the controller reads or writes.  A label
    holds the number it displays. *)
Record Ui : Set := mkUi {
  sldTranslateX : Z; sldTranslateY : Z; sldTranslateZ : Z;
  sldTranslateDelta : Z; sldSnapDistance : Z;
  chkBoundingBoxes : bool; chkWireFrame : bool; chkSnap : bool;
  chkCenterMarks : bool; chkAutoUpdateView : bool; chkAutoRecompute : bool;
  lblTranslateX : float; lblTranslateY : float; lblTranslateZ : float;
  lblTranslateDelta : float; lblSnapDistance : float;
  statusBar : string
}.

(** The attributes of [MacroWindow]. *)
Record MacroWindow : Set := mkWindow {
  ui : Ui;
  transformActive : bool;
  axisXTranslation : float; axisYTranslation : float; axisZTranslation : float;
  axisXTranslation2 : float; axisYTranslation2 : float; axisZTranslation2 : float;
  deltaTranslation : float;
  snapDistance : float;
  markerLineColor : Color;
  markerLineWidth : Z;
  snapLineColor : Color;
  snapLineWidth : Z;
  axesMarkerLineLength : Z;
  drawStyleRevertAction : option nat;
  selectedObjsParams : list ObjectParameters;
  centerLinesParams : list ObjectParameters;
  centerLines : list (list Name)
}.

(** The window together with the host: the active document, the next free
    object name, the selection of the view, the report console, the draw
    style whose action is checked, and the number of recomputes asked. *)
Record State : Set := mkState {
  win : MacroWindow;
  doc : Document;
  fresh : Name;
  selection : list Name;
  console : list string;
  drawStyle : nat;
  recomputes : nat
}.

Definition onWin (f : MacroWindow -> MacroWindow) (s : State) : State :=
  mkState (f (win s)) (doc s) (fresh s) (selection s) (console s)
          (drawStyle s) (recomputes s).

Definition onDoc (f : Document -> Document) (s : State) : State :=
  mkState (win s) (f (doc s)) (fresh s) (selection s) (console s)
          (drawStyle s) (recomputes s).

Definition PrintMessage (m : string) (s : State) : State :=
  mkState (win s) (doc s) (fresh s) (selection s) (console s ++ [m])
          (drawStyle s) (recomputes s).

Definition trigger (i : nat) (s : State) : State :=
  mkState (win s) (doc s) (fresh s) (selection s) (console s) i (recomputes s).

Definition recompute (s : State) : State :=
  mkState (win s) (doc s) (fresh s) (selection s) (console s)
          (drawStyle s) (S (recomputes s)).

Definition onUi (f : Ui -> Ui) (w : MacroWindow) : MacroWindow :=
  mkWindow (f (ui w)) (transformActive w)
    (axisXTranslation w) (axisYTranslation w) (axisZTranslation w)
    (axisXTranslation2 w) (axisYTranslation2 w) (axisZTranslation2 w)
    (deltaTranslation w) (snapDistance w) (markerLineColor w)
    (markerLineWidth w) (snapLineColor w) (snapLineWidth w)
    (axesMarkerLineLength w) (drawStyleRevertAction w)
    (selectedObjsParams w) (centerLinesParams w) (centerLines w).

Definition set_transformActive (b : bool) (w : MacroWindow) : MacroWindow :=
  mkWindow (ui w) b
    (axisXTranslation w) (axisYTranslation w) (axisZTranslation w)
    (axisXTranslation2 w) (axisYTranslation2 w) (axisZTranslation2 w)
    (deltaTranslation w) (snapDistance w) (markerLineColor w)
    (markerLineWidth w) (snapLineColor w) (snapLineWidth w)
    (axesMarkerLineLength w) (drawStyleRevertAction w)
    (selectedObjsParams w) (centerLinesParams w) (centerLines w).

(** Assignment of the three translation counters. *)
Definition set_axis (a b c : float) (w : MacroWindow) : MacroWindow :=
  mkWindow (ui w) (transformActive w) a b c
    (axisXTranslation2 w) (axisYTranslation2 w) (axisZTranslation2 w)
    (deltaTranslation w) (snapDistance w) (markerLineColor w)
    (markerLineWidth w) (snapLineColor w) (snapLineWidth w)
    (axesMarkerLineLength w) (drawStyleRevertAction w)
    (selectedObjsParams w) (centerLinesParams w) (centerLines w).

(** Assignment of the three counters [axis?Translation2]. *)
Definition set_axis2 (a b c : float) (w : MacroWindow) : MacroWindow :=
  mkWindow (ui w) (transformActive w)
    (axisXTranslation w) (axisYTranslation w) (axisZTranslation w) a b c
    (deltaTranslation w) (snapDistance w) (markerLineColor w)
    (markerLineWidth w) (snapLineColor w) (snapLineWidth w)
    (axesMarkerLineLength w) (drawStyleRevertAction w)
    (selectedObjsParams w) (centerLinesParams w) (centerLines w).


Definition set_snapDistance (f : float) (w : MacroWindow) : MacroWindow :=
  mkWindow (ui w) (transformActive w)
    (axisXTranslation w) (axisYTranslation w) (axisZTranslation w)
    (axisXTranslation2 w) (axisYTranslation2 w) (axisZTranslation2 w)
    (deltaTranslation w) f (markerLineColor w)
    (markerLineWidth w) (snapLineColor w) (snapLineWidth w)
    (axesMarkerLineLength w) (drawStyleRevertAction w)
    (selectedObjsParams w) (centerLinesParams w) (centerLines w).

Definition set_markerLineColor (c : Color) (w : MacroWindow) : MacroWindow :=
  mkWindow (ui w) (transformActive w)
    (axisXTranslation w) (axisYTranslation w) (axisZTranslation w)
    (axisXTranslation2 w) (axisYTranslation2 w) (axisZTranslation2 w)
    (deltaTranslation w) (snapDistance w) c
    (markerLineWidth w) (snapLineColor w) (snapLineWidth w)
    (axesMarkerLineLength w) (drawStyleRevertAction w)
    (selectedObjsParams w) (centerLinesParams w) (centerLines w).

Definition set_drawStyleRevertAction (a : option nat) (w : MacroWindow)
  : MacroWindow :=
  mkWindow (ui w) (transformActive w)
    (axisXTranslation w) (axisYTranslation w) (axisZTranslation w)
    (axisXTranslation2 w) (axisYTranslation2 w) (axisZTranslation2 w)
    (deltaTranslation w) (snapDistance w) (markerLineColor w)
    (markerLineWidth w) (snapLineColor w) (snapLineWidth w)
    (axesMarkerLineLength w) a
    (selectedObjsParams w) (centerLinesParams w) (centerLines w).

Definition set_selectedObjsParams (l : list ObjectParameters) (w : MacroWindow)
  : MacroWindow :=
  mkWindow (ui w) (transformActive w)
    (axisXTranslation w) (axisYTranslation w) (axisZTranslation w)
    (axisXTranslation2 w) (axisYTranslation2 w) (axisZTranslation2 w)
    (deltaTranslation w) (snapDistance w) (markerLineColor w)
    (markerLineWidth w) (snapLineColor w) (snapLineWidth w)
    (axesMarkerLineLength w) (drawStyleRevertAction w)
    l (centerLinesParams w) (centerLines w).

Definition set_centerLinesParams (l : list ObjectParameters) (w : MacroWindow)
  : MacroWindow :=
  mkWindow (ui w) (transformActive w)
    (axisXTranslation w) (axisYTranslation w) (axisZTranslation w)
    (axisXTranslation2 w) (axisYTranslation2 w) (axisZTranslation2 w)
    (deltaTranslation w) (snapDistance w) (markerLineColor w)
    (markerLineWidth w) (snapLineColor w) (snapLineWidth w)
    (axesMarkerLineLength w) (drawStyleRevertAction w)
    (selectedObjsParams w) l (centerLines w).

Definition set_centerLines (l : list (list Name)) (w : MacroWindow)
  : MacroWindow :=
  mkWindow (ui w) (transformActive w)
    (axisXTranslation w) (axisYTranslation w) (axisZTranslation w)
    (axisXTranslation2 w) (axisYTranslation2 w) (axisZTranslation2 w)
    (deltaTranslation w) (snapDistance w) (markerLineColor w)
    (markerLineWidth w) (snapLineColor w) (snapLineWidth w)
    (axesMarkerLineLength w) (drawStyleRevertAction w)
    (selectedObjsParams w) (centerLinesParams w) l.

Definition set_sldTranslateX (v : Z) (u : Ui) : Ui :=
  mkUi v (sldTranslateY u) (sldTranslateZ u) (sldTranslateDelta u)
    (sldSnapDistance u) (chkBoundingBoxes u) (chkWireFrame u) (chkSnap u)
    (chkCenterMarks u) (chkAutoUpdateView u) (chkAutoRecompute u)
    (lblTranslateX u) (lblTranslateY u) (lblTranslateZ u)
    (lblTranslateDelta u) (lblSnapDistance u) (statusBar u).

Definition set_sldTranslateY (v : Z) (u : Ui) : Ui :=
  mkUi (sldTranslateX u) v (sldTranslateZ u) (sldTranslateDelta u)
    (sldSnapDistance u) (chkBoundingBoxes u) (chkWireFrame u) (chkSnap u)
    (chkCenterMarks u) (chkAutoUpdateView u) (chkAutoRecompute u)
    (lblTranslateX u) (lblTranslateY u) (lblTranslateZ u)
    (lblTranslateDelta u) (lblSnapDistance u) (statusBar u).

Definition set_sldTranslateZ (v : Z) (u : Ui) : Ui :=
  mkUi (sldTranslateX u) (sldTranslateY u) v (sldTranslateDelta u)
    (sldSnapDistance u) (chkBoundingBoxes u) (chkWireFrame u) (chkSnap u)
    (chkCenterMarks u) (chkAutoUpdateView u) (chkAutoRecompute u)
    (lblTranslateX u) (lblTranslateY u) (lblTranslateZ u)
    (lblTranslateDelta u) (lblSnapDistance u) (statusBar u).

Definition set_labels (a b c d e : float) (u : Ui) : Ui :=
  mkUi (sldTranslateX u) (sldTranslateY u) (sldTranslateZ u)
    (sldTranslateDelta u) (sldSnapDistance u) (chkBoundingBoxes u)
    (chkWireFrame u) (chkSnap u) (chkCenterMarks u) (chkAutoUpdateView u)
    (chkAutoRecompute u) a b c d e (statusBar u).

Definition set_statusBar (m : string) (u : Ui) : Ui :=
  mkUi (sldTranslateX u) (sldTranslateY u) (sldTranslateZ u)
    (sldTranslateDelta u) (sldSnapDistance u) (chkBoundingBoxes u)
    (chkWireFrame u) (chkSnap u) (chkCenterMarks u) (chkAutoUpdateView u)
    (chkAutoRecompute u) (lblTranslateX u) (lblTranslateY u)
    (lblTranslateZ u) (lblTranslateDelta u) (lblSnapDistance u) m.

(** [statusBar.clearMessage()] and [statusBar.showMessage(m)]. *)
Definition clearMessage (s : State) : State :=
  onWin (onUi (set_statusBar EmptyString)) s.

Definition showMessage (m : string) (s : State) : State :=
  onWin (onUi (set_statusBar m)) s.

(** Iteration of a loop body over a list, stopping at the first exception. *)
Fixpoint forEach {A : Type} (l : list A) (body : A -> State -> Exc State)
  (s : State) : Exc State :=
  match l with
  | [] => Ok s
  | a :: l' => s' <- body a s ;; forEach l' body s'
  end.

(** A write through a reference, which raises on a deleted object. *)
Definition modify (n : Name) (f : DocObject -> DocObject) (s : State)
  : Exc State :=
  _ <- getObject (doc s) n ;; Ok (onDoc (updObject n f) s).

(* ================================================================== *)
(** ** Operations of the host document *)

(** The object [App.ActiveDocument.addObject(typeId, name)] creates: labelled
    with the requested name, placed at the origin; a [Part::Line] goes from
    (0, 0, 0) to (1, 1, 1) and has an edge as its shape. *)
Definition newObject (n : Name) (typeId name : string) : DocObject :=
  mkObj n name typeId (mkVector zero zero zero)
    (if String.eqb typeId "Part::Line"
     then Some (mkShape PartEdge (mkVector zero zero zero)) else None)
    None [] zero zero zero one one one
    (mkView (zero, zero, zero, zero) 2 false).

Definition addObject (typeId name : string) (s : State) : Name * State :=
  let n := fresh s in
  (n, mkState (win s) (doc s ++ [newObject n typeId name]) (S n)
        (selection s) (console s) (drawStyle s) (recomputes s)).

(** [App.ActiveDocument.getObjectsByLabel(label)], in document order. *)
Definition getObjectsByLabel (label : string) (d : Document) : list DocObject :=
  filter (fun o => String.eqb (Label o) label) d.

(** The document without the object [n]; the host also takes the object out
    of the groups that hold it. *)
Definition docRemove (n : Name) (d : Document) : Document :=
  map (fun o => setGroup (filter (fun m => negb (Nat.eqb m n)) (Group o)) o)
      (filter (fun o => negb (named n o)) d).

(** [group.addObject(obj)]. *)
Definition groupAdd (n : Name) (g : DocObject) : DocObject :=
  if existsb (Nat.eqb n) (Group g) then g else setGroup (Group g ++ [n]) g.

(* ================================================================== *)
(** ** The controller *)

Definition removeObject (obj : Name) (s : State) : Exc State :=
  o <- getObject (doc s) obj ;; Ok (onDoc (docRemove (ObjName o)) s).

Definition removeObjects (objs : list Name) (s : State) : Exc State :=
  forEach objs removeObject s.

Definition removeObjectsByLabel (label : string) (s : State) : Exc State :=
  let objs := getObjectsByLabel label (doc s) in
  forEach (map ObjName objs) removeObject s.

Definition isOriginLine (label : string) : bool :=
  str_in label [LINE_ORIGIN_X_NAME; LINE_ORIGIN_Y_NAME; LINE_ORIGIN_Z_NAME].

Definition getCenter (o : DocObject) : Exc Vector :=
  if typeIdIs "Mesh::Feature" o then meshBoundBoxCenter o
  else if typeIdIs "Image::ImagePlane" o then Ok (PlacementBase o)
  else shapeBoundBoxCenter o.

(** [ObjectParameters(obj, obj.Placement.Base, self.getCenter(obj),
    obj.ViewObject.BoundingBox)]. *)
Definition objectParameters (d : Document) (obj : Name) : Exc ObjectParameters :=
  o <- getObject d obj ;;
  c <- getCenter o ;;
  Ok (mkParams obj (PlacementBase o) c (BoundingBox (ViewObject o))).

Fixpoint mapExc {A B : Type} (f : A -> Exc B) (l : list A) : Exc (list B) :=
  match l with
  | [] => Ok []
  | a :: l' => b <- f a ;; bs <- mapExc f l' ;; Ok (b :: bs)
  end.

Definition getGroup (groupLabel : string) (autoCreate : bool) (s : State)
  : option Name * State :=
  let selection := getObjectsByLabel groupLabel (doc s) in
  match selection with
  | [] =>
      if autoCreate
      then let (g, s') := addObject "App::DocumentObjectGroup" groupLabel s in
           (Some g, s')
      else (None, s)
  | _ :: _ =>
      (option_map ObjName (find (typeIdIs "App::DocumentObjectGroup") selection), s)
  end.

Definition addToGroup (objs : list Name) (groupLabel : string) (s : State)
  : Exc State :=
  let (group, s1) := getGroup groupLabel true s in
  forEach objs
    (fun obj s' =>
       match group with
       | Some g => modify g (groupAdd obj) s'
       | None => Raise AttributeError
       end) s1.

Definition notSelecting (label : string) : string :=
  ("Not selecting " ++ quoted label ++ "." ++ newline)%string.

Definition cannotSelect (label : string) : string :=
  ("Exception; cannot select " ++ quoted label ++ "." ++ newline)%string.

(** The first loop of [getGroupObjects]: the members of the group whose
    shape is not a face. *)
Fixpoint nonFaces (members : list Name) (s : State) : Exc (list Name * State) :=
  match members with
  | [] => Ok ([], s)
  | obj :: rest =>
      o <- getObject (doc s) obj ;;
      c <- shapeType o ;;
      if isFace c
      then nonFaces rest (PrintMessage (notSelecting (Label o)) s)
      else '(objs, s') <- nonFaces rest s ;; Ok (obj :: objs, s')
  end.

Definition getGroupObjects (groupLabel : string) (s : State)
  : Exc (list ObjectParameters * State) :=
  let (group, s1) := getGroup groupLabel false s in
  match group with
  | None => Ok ([], s1)
  | Some g =>
      grp <- getObject (doc s1) g ;;
      '(objs, s2) <- nonFaces (Group grp) s1 ;;
      groupObjs <- mapExc (objectParameters (doc s2)) objs ;;
      Ok (groupObjs, s2)
  end.

Definition removeGroup (groupLabel : string) (s : State) : Exc State :=
  '(objsParams, s1) <- getGroupObjects groupLabel s ;;
  s2 <- forEach objsParams (fun objParams => removeObject (object objParams)) s1 ;;
  removeObjectsByLabel groupLabel s2.

Definition allowedTypeIds : list string := ["Part"; "Mesh"; "Image"]%string.

(** [obj.TypeId.split("::")[0] in allowedTypeIds]: the split of a string
    and the membership test raise nothing. *)
Definition classify (o : DocObject) : Exc bool :=
  Ok (str_in (split_head (TypeId o)) allowedTypeIds).

(** The loop over the members of a selected group, with its [try]. *)
Fixpoint selectMembers (members : list Name) (s : State)
  : Exc (list Name * State) :=
  match members with
  | [] => Ok ([], s)
  | m :: rest =>
      subObj <- getObject (doc s) m ;;
      match classify subObj with
      | Ok true => '(objs, s') <- selectMembers rest s ;; Ok (m :: objs, s')
      | Ok false => selectMembers rest (PrintMessage (notSelecting (Label subObj)) s)
      | Raise _ => selectMembers rest (PrintMessage (cannotSelect (Label subObj)) s)
      end
  end.

(** The loop over the selection. *)
Fixpoint selectObjects (objs2 : list Name) (s : State) : Exc (list Name * State) :=
  match objs2 with
  | [] => Ok ([], s)
  | n :: rest =>
      obj <- getObject (doc s) n ;;
      if typeIdIs "App::DocumentObjectGroup" obj
      then '(subs, s1) <- selectMembers (Group obj) s ;;
           '(objs, s2) <- selectObjects rest s1 ;;
           Ok (subs ++ objs, s2)
      else selected <- classify obj ;;
           if selected : bool
           then '(objs, s1) <- selectObjects rest s ;; Ok (n :: objs, s1)
           else selectObjects rest (PrintMessage (notSelecting (Label obj)) s)
  end.

(** [getSelectionEx()] yields one selection object per selected object and
    [getSelection()] the objects themselves: the same references. *)
Definition getSelectedObjects (extended : bool) (s : State)
  : Exc (list ObjectParameters * State) :=
  let objs2 := selection s in
  '(objs, s1) <- selectObjects objs2 s ;;
  selObjs <- mapExc (objectParameters (doc s1)) objs ;;
  Ok (selObjs, s1).

Definition updateTranslationLabels (s : State) : State :=
  let w := win s in
  onWin (onUi (set_labels (axisXTranslation w) (axisYTranslation w)
                 (axisZTranslation w) (deltaTranslation w) (snapDistance w))) s.


Definition sldSnapDistanceChanged (s : State) : State :=
  updateTranslationLabels
    (onWin (fun w => set_snapDistance (pow10 (sldSnapDistance (ui w))) w) s).

(** One iteration of the loop of [drawCenterMark] over [linesSpecs]. *)
Definition drawLine (i : nat) (objectLabel : string) (add : bool)
  (spec : nat * string * Vector * Vector) (s : State) : Exc (Name * State) :=
  let '(index, labelPrefix, start, end_) := spec in
  '(line, s1) <-
     (if add
      then
        let (line, s1) := addObject "Part::Line" LINE_CENTER_NAME_PREFIX s in
        s2 <- modify line (setLineColor (markerLineColor (win s1))) s1 ;;
        s3 <- modify line (setLineWidth (markerLineWidth (win s2))) s2 ;;
        s4 <- modify line
                (setLabel (if String.eqb objectLabel EmptyString
                           then labelPrefix
                           else (labelPrefix ++ "_" ++ objectLabel)%string)) s3 ;;
        Ok (line, s4)
      else
        match nth_error (centerLines (win s)) i with
        | Some row =>
            match nth_error row index with
            | Some line => Ok (line, s)
            | None => Raise IndexError
            end
        | None => Raise IndexError
        end) ;;
  s2 <- modify line (setEnds start end_) s1 ;;
  Ok (line, s2).

Fixpoint drawLines (i : nat) (objectLabel : string) (add : bool)
  (specs : list (nat * string * Vector * Vector)) (s : State)
  : Exc (list Name * State) :=
  match specs with
  | [] => Ok ([], s)
  | spec :: rest =>
      '(line, s1) <- drawLine i objectLabel add spec s ;;
      '(lines, s2) <- drawLines i objectLabel add rest s1 ;;
      Ok (line :: lines, s2)
  end.

(** Draw and move center marks. *)
Definition drawCenterMark (i : nat) (p1 : Vector) (offset : Z * Z * Z)
  (objectLabel : string) (add : bool) (s : State) : Exc (list Name * State) :=
  let '(dx, dy, dz) := offset in
  let len := float_of_int (axesMarkerLineLength (win s)) in
  let d := mkVector (float_of_int dx) (float_of_int dy) (float_of_int dz) in
  let p2 := mkVector len zero zero in
  let p3 := mkVector zero len zero in
  let p4 := mkVector zero zero len in
  let start1 := vadd (vsub p1 p2) d in
  let end1 := vadd (vadd p1 p2) d in
  let start2 := vadd (vsub p1 p3) d in
  let end2 := vadd (vadd p1 p3) d in
  let start3 := vadd (vsub p1 p4) d in
  let end3 := vadd (vadd p1 p4) d in
  let linesSpecs :=
    [ (0%nat, LINE_CENTER_X_LABEL_PREFIX, start1, end1);
      (1%nat, LINE_CENTER_Y_LABEL_PREFIX, start2, end2);
      (2%nat, LINE_CENTER_Z_LABEL_PREFIX, start3, end3) ] in
  drawLines i objectLabel add linesSpecs s.

(** The loop of [drawCenterMarks] over [enumerate(self.selectedObjsParams)]. *)
Fixpoint drawMarksFrom (i : nat) (params : list ObjectParameters)
  (dx dy dz : Z) (add : bool) (s : State) : Exc State :=
  match params with
  | [] => Ok s
  | objParams :: rest =>
      o <- getObject (doc s) (object objParams) ;;
      c <- getCenter o ;;
      '(lines, s1) <- drawCenterMark i c (dx, dy, dz) EmptyString add s ;;
      s2 <- (if add
             then addToGroup lines GROUP_LABEL_TEMP_CENTER_LINES
                    (onWin (fun w => set_centerLines (centerLines w ++ [lines]) w) s1)
             else Ok s1) ;;
      drawMarksFrom (S i) rest dx dy dz add s2
  end.

Definition drawCenterMarks (dx dy dz : Z) (add : bool) (s : State) : Exc State :=
  drawMarksFrom 0 (selectedObjsParams (win s)) dx dy dz add s.

Definition formatOriginLine (objParams : ObjectParameters) (s : State)
  : Exc State :=
  let obj := object objParams in
  o <- getObject (doc s) obj ;;
  if String.eqb (Label o) LINE_ORIGIN_X_NAME then
    s1 <- modify obj (setLineColor (one, zero, zero, zero)) s ;;
    modify obj (setLineWidth (markerLineWidth (win s1))) s1
  else if String.eqb (Label o) LINE_ORIGIN_Y_NAME then
    s1 <- modify obj (setLineColor (zero, one, zero, zero)) s ;;
    modify obj (setLineWidth (markerLineWidth (win s1))) s1
  else if String.eqb (Label o) LINE_ORIGIN_Z_NAME then
    s1 <- modify obj (setLineColor (zero, zero, one, zero)) s ;;
    modify obj (setLineWidth (markerLineWidth (win s1))) s1
  else Ok s.

Definition formatOriginMark (s : State) : Exc State :=
  '(objsParams, s1) <- getGroupObjects GROUP_LABEL_ORIGIN_LINES s ;;
  forEach objsParams formatOriginLine s1.

(** Reset of the highlighting of a marker line that is not an origin line. *)
Definition clearHighlight (lineCL : Name) (s : State) : Exc State :=
  o <- getObject (doc s) lineCL ;;
  if negb (isOriginLine (Label o)) then
    s1 <- modify lineCL (setLineColor (markerLineColor (win s))) s ;;
    modify lineCL (setLineWidth (markerLineWidth (win s1))) s1
  else Ok s.

(** The body of the inner loop of [checkSnapping] for one marker line, up to
    its [if snapped: break]: the state and the value of [snapped]. *)
Definition snapLine (newCenter : Vector) (centerLine : ObjectParameters)
  (s : State) : Exc (bool * State) :=
  let lineCL := object centerLine in
  o <- getObject (doc s) lineCL ;;
  let labelCL := Label o in
  s1 <- clearHighlight lineCL s ;;
  let w := win s1 in
  if (zero <? abs (axisXTranslation w))%float then
    if (startswith labelCL LINE_CENTER_Y_LABEL_PREFIX
        || startswith labelCL LINE_CENTER_Z_LABEL_PREFIX)%bool then
      let xdiff := (X1 o - vx newCenter)%float in
      if (abs xdiff <=? snapDistance w)%float then
        Ok (true, onWin (set_axis2 (axisXTranslation2 w + xdiff)%float
                           (axisYTranslation2 w) (axisZTranslation2 w)) s1)
      else Ok (false, s1)
    else Ok (false, s1)
  else if (zero <? abs (axisYTranslation w))%float then
    if (startswith labelCL LINE_CENTER_X_LABEL_PREFIX
        || startswith labelCL LINE_CENTER_Z_LABEL_PREFIX)%bool then
      let ydiff := (Y1 o - vy newCenter)%float in
      if (abs ydiff <=? snapDistance w)%float then
        Ok (true, onWin (set_axis2 (axisXTranslation2 w)
                           (axisYTranslation2 w + ydiff)%float
                           (axisZTranslation2 w)) s1)
      else Ok (false, s1)
    else Ok (false, s1)
  else if (zero <? abs (axisZTranslation w))%float then
    if (startswith labelCL LINE_CENTER_X_LABEL_PREFIX
        || startswith labelCL LINE_CENTER_Y_LABEL_PREFIX)%bool then
      let zdiff := (Z1 o - vz newCenter)%float in
      if (abs zdiff <=? snapDistance w)%float then
        Ok (true, onWin (set_axis2 (axisXTranslation2 w) (axisYTranslation2 w)
                           (axisZTranslation2 w + zdiff)%float) s1)
      else Ok (false, s1)
    else Ok (false, s1)
  else Ok (false, s1).

(** The inner loop: the marker line at which it broke, if any. *)
Fixpoint scanLines (newCenter : Vector) (lines : list ObjectParameters)
  (s : State) : Exc (option Name * State) :=
  match lines with
  | [] => Ok (None, s)
  | centerLine :: rest =>
      '(snapped, s1) <- snapLine newCenter centerLine s ;;
      if snapped : bool then Ok (Some (object centerLine), s1)
      else scanLines newCenter rest s1
  end.

Definition snapMessage (objLabel labelCL : string) : string :=
  (quoted objLabel ++ " snapped to reference line " ++ quoted labelCL ++ ".")%string.

(** The outer loop of [checkSnapping] over the selected objects. *)
Fixpoint snapObjects (params : list ObjectParameters) (s : State) : Exc State :=
  match params with
  | [] => Ok s
  | objParams :: rest =>
      let c := center objParams in
      let w := win s in
      let newCenter :=
        mkVector (vx c + axisXTranslation w)%float
                 (vy c + axisYTranslation w)%float
                 (vz c + axisZTranslation w)%float in
      s1 <- formatOriginMark s ;;
      '(hit, s2) <- scanLines newCenter (centerLinesParams (win s1)) s1 ;;
      match hit with
      | Some lineCL =>
          o <- getObject (doc s2) (object objParams) ;;
          l <- getObject (doc s2) lineCL ;;
          let s3 := showMessage (snapMessage (Label o) (Label l)) s2 in
          s4 <- modify lineCL (setLineColor (snapLineColor (win s3))) s3 ;;
          s5 <- modify lineCL (setLineWidth (snapLineWidth (win s4))) s4 ;;
          Ok (onWin (fun w => set_axis (axisXTranslation2 w) (axisYTranslation2 w)
                                (axisZTranslation2 w) w) s5)
      | None => snapObjects rest s2
      end
  end.

Definition checkSnapping (s : State) : Exc State :=
  snapObjects (selectedObjsParams (win s))
    (onWin (fun w => set_axis2 (axisXTranslation w) (axisYTranslation w)
                       (axisZTranslation w) w) s).

(** [QSlider.setValue(v)] on a translation slider: the value is bound to the
    range of the slider, and a change of value emits [valueChanged], which
    runs the connected handler before [setValue] returns. *)
Definition setValue (get : Ui -> Z) (set : Z -> Ui -> Ui)
  (valueChanged : State -> Exc State) (v : Z) (s : State) : Exc State :=
  let v' := Z.max (-50) (Z.min 50 v) in
  if Z.eqb v' (get (ui (win s))) then Ok s
  else valueChanged (onWin (onUi (set v')) s).

(** The body of the loop of [translateSelection] for one selected object.
    [obj.ViewObject.update()], called when [chkAutoUpdateView] is checked,
    redraws the view of the object and changes nothing this state holds. *)
Definition translateObject (x y z : Z) (objParams : ObjectParameters)
  (s : State) : Exc State :=
  let obj := object objParams in
  let base := base objParams in
  let s1 := onWin (fun w => set_axis (int_mul_float x (deltaTranslation w))
                              (int_mul_float y (deltaTranslation w))
                              (int_mul_float z (deltaTranslation w)) w) s in
  s2 <- (if chkSnap (ui (win s1)) then checkSnapping s1 else Ok s1) ;;
  let newX := (vx base + axisXTranslation (win s2))%float in
  let newY := (vy base + axisYTranslation (win s2))%float in
  let newZ := (vz base + axisZTranslation (win s2))%float in
  let newBase := mkVector newX newY newZ in
  s3 <- modify obj (setPlacementBase newBase) s2 ;;
  s4 <- (if chkCenterMarks (ui (win s3)) then drawCenterMarks 0 0 0 false s3
         else Ok s3) ;;
  Ok (updateTranslationLabels s4).

(** [translateSelection], together with the handlers of the three
    translation sliders it re-enters through [setValue].  [fuel] bounds the
    nesting of the handlers. *)
Fixpoint translateSelection (fuel : nat) (x y z : Z) (s : State) : Exc State :=
  match fuel with
  | O => Raise RecursionError
  | S fuel' =>
      let s := clearMessage s in
      if Nat.eqb (List.length (selectedObjsParams (win s))) 0
      then Ok (showMessage "Nothing selected." s)
      else if negb (transformActive (win s)) then
        s1 <- setValue sldTranslateX set_sldTranslateX
                (fun s' => translateSelection fuel' (sldTranslateX (ui (win s'))) 0 0 s')
                0 s ;;
        s2 <- setValue sldTranslateY set_sldTranslateY
                (fun s' => translateSelection fuel' 0 (sldTranslateY (ui (win s'))) 0 s')
                0 s1 ;;
        s3 <- setValue sldTranslateZ set_sldTranslateZ
                (fun s' => translateSelection fuel' 0 0 (sldTranslateZ (ui (win s'))) s')
                0 s2 ;;
        Ok (updateTranslationLabels (onWin (set_axis zero zero zero) s3))
      else forEach (selectedObjsParams (win s)) (translateObject x y z) s
  end.

Definition sldTranslateXChanged (fuel : nat) (s : State) : Exc State :=
  translateSelection fuel (sldTranslateX (ui (win s))) 0 0 s.

Definition sldTranslateYChanged (fuel : nat) (s : State) : Exc State :=
  translateSelection fuel 0 (sldTranslateY (ui (win s))) 0 s.

Definition sldTranslateZChanged (fuel : nat) (s : State) : Exc State :=
  translateSelection fuel 0 0 (sldTranslateZ (ui (win s))) s.

(** The three translation sliders, as the user or the controller sets them. *)
Definition setTranslateX (fuel : nat) : Z -> State -> Exc State :=
  setValue sldTranslateX set_sldTranslateX (sldTranslateXChanged fuel).

Definition setTranslateY (fuel : nat) : Z -> State -> Exc State :=
  setValue sldTranslateY set_sldTranslateY (sldTranslateYChanged fuel).

Definition setTranslateZ (fuel : nat) : Z -> State -> Exc State :=
  setValue sldTranslateZ set_sldTranslateZ (sldTranslateZChanged fuel).

Definition sldPressed (s : State) : Exc State :=
  let s := onWin (set_centerLines []) s in
  '(selObjs, s) <- getSelectedObjects true s ;;
  let s := onWin (set_selectedObjsParams selObjs) s in
  '(selObjs, s) <- getSelectedObjects false s ;;
  let s := onWin (fun w => set_selectedObjsParams (selectedObjsParams w ++ selObjs) w) s in
  s <- (if chkBoundingBoxes (ui (win s))
        then forEach (selectedObjsParams (win s))
               (fun objParams => modify (object objParams) (setBoundingBox true)) s
        else Ok s) ;;
  '(groupObjs, s) <- getGroupObjects GROUP_LABEL_CENTER_LINES s ;;
  let s := onWin (set_centerLinesParams groupObjs) s in
  '(groupObjs, s) <- getGroupObjects GROUP_LABEL_ORIGIN_LINES s ;;
  let s := onWin (fun w => set_centerLinesParams (centerLinesParams w ++ groupObjs) w) s in
  (* Transformation has started. *)
  let s := onWin (set_transformActive true) s in
  let s :=
    if chkWireFrame (ui (win s))
    then trigger 2
           (match find (fun i => Nat.eqb i (drawStyle s)) (seq 0 7) with
            | Some action => onWin (set_drawStyleRevertAction (Some action)) s
            | None => s
            end)
    else onWin (set_drawStyleRevertAction None) s in
  if chkCenterMarks (ui (win s)) then drawCenterMarks 0 0 0 true s else Ok s.

Definition sldReleased (fuel : nat) (s : State) : Exc State :=
  let prevTransform := transformActive (win s) in
  (* Transformation has ended. *)
  let s := onWin (set_transformActive false) s in
  s <- setTranslateX fuel 0 s ;;
  s <- setTranslateY fuel 0 s ;;
  s <- setTranslateZ fuel 0 s ;;
  let s := updateTranslationLabels s in
  if negb prevTransform then Ok s
  else
    (* Restore the status of bounding boxes. *)
    s <- (if chkBoundingBoxes (ui (win s))
          then forEach (selectedObjsParams (win s))
                 (fun objParams =>
                    modify (object objParams)
                      (setBoundingBox (boundingBoxEnabled objParams))) s
          else Ok s) ;;
    let s := match drawStyleRevertAction (win s) with
             | Some action => trigger action s
             | None => s
             end in
    s <- removeGroup GROUP_LABEL_TEMP_CENTER_LINES s ;;
    (* Clear snapping related highlighting. *)
    s <- formatOriginMark s ;;
    s <- forEach (centerLinesParams (win s))
           (fun centerLine => clearHighlight (object centerLine)) s ;;
    Ok (if chkAutoRecompute (ui (win s)) then recompute s else s).

Definition addRemoveOriginMark (add : bool) (s : State) : Exc State :=
  if add then
    let len := float_of_int (axesMarkerLineLength (win s)) in
    let (l1, s) := addObject "Part::Line" LINE_ORIGIN_X_NAME s in
    s <- modify l1 (setEnds (mkVector (- len) zero zero) (mkVector len zero zero)) s ;;
    let (l2, s) := addObject "Part::Line" LINE_ORIGIN_Y_NAME s in
    s <- modify l2 (setEnds (mkVector zero (- len) zero) (mkVector zero len zero)) s ;;
    let (l3, s) := addObject "Part::Line" LINE_ORIGIN_Z_NAME s in
    s <- modify l3 (setEnds (mkVector zero zero (- len)) (mkVector zero zero len)) s ;;
    s <- addToGroup [l1; l2; l3] GROUP_LABEL_ORIGIN_LINES s ;;
    formatOriginMark s
  else removeGroup GROUP_LABEL_ORIGIN_LINES s.

Definition btnToggleOriginMarkClicked (s : State) : Exc State :=
  let (group, s) := getGroup GROUP_LABEL_ORIGIN_LINES false s in
  match group with
  | None => addRemoveOriginMark true s
  | Some _ => addRemoveOriginMark false s
  end.

Definition btnAddCenterMarkClicked (s : State) : Exc State :=
  let s := clearMessage s in
  '(selObjs, s) <- getSelectedObjects true s ;;
  let s := onWin (set_selectedObjsParams selObjs) s in
  if Nat.eqb (List.length (selectedObjsParams (win s))) 0
  then Ok (showMessage "Nothing selected." s)
  else
    forEach (selectedObjsParams (win s))
      (fun objParams s =>
         let obj := object objParams in
         o <- getObject (doc s) obj ;;
         c <- getCenter o ;;
         '(lines, s) <- drawCenterMark 0 c (0, 0, 0)%Z (Label o) true s ;;
         s <- forEach lines
                (fun l s => modify l (setLineColor (markerLineColor (win s))) s) s ;;
         addToGroup lines GROUP_LABEL_CENTER_LINES s) s.

(** [btnDefaultLineColorClicked]; [r], [g] and [b] are the components of the
    colour the dialog returns. *)
Definition btnDefaultLineColorClicked (r g b : Z) (s : State) : State :=
  let s := clearMessage s in
  (* "r", "g" and "b" are zero when the dialog is canceled. *)
  if negb ((r =? g)%Z && (g =? b)%Z && (b =? 0)%Z)
  then onWin (set_markerLineColor
                ((float_of_int r / 255)%float, (float_of_int g / 255)%float,
                 (float_of_int b / 255)%float, zero)) s
  else s.

(* ================================================================== *)
(** ** States of a drag *)

(** [getGroup] without creation reads the document and leaves the state. *)
Definition findGroup (groupLabel : string) (d : Document) : option Name :=
  match getObjectsByLabel groupLabel d with
  | [] => None
  | o :: l => option_map ObjName (find (typeIdIs "App::DocumentObjectGroup") (o :: l))
  end.

Definition live (d : Document) (n : Name) : bool :=
  match find (named n) d with Some _ => true | None => false end.

Definition centerOk (o : DocObject) : bool :=
  match getCenter o with Ok _ => true | Raise _ => false end.

Definition hasCenter (d : Document) (n : Name) : bool :=
  match find (named n) d with Some o => centerOk o | None => false end.

(** A member of a group that [getGroupObjects] can read: it has a shape, and
    a center unless its shape is a face. *)
Definition memberOk (d : Document) (m : Name) : bool :=
  match find (named m) d with
  | Some o =>
      match Shape o with
      | Some sh => isFace (shapeClass sh) || centerOk o
      | None => false
      end
  | None => false
  end.

(** [getGroupObjects groupLabel] can read the group and its members. *)
Definition groupOk (d : Document) (groupLabel : string) : bool :=
  match findGroup groupLabel d with
  | None => true
  | Some g =>
      match find (named g) d with
      | Some grp => forallb (memberOk d) (Group grp)
      | None => false
      end
  end.

Definition vec_eqb (v w : Vector) : bool :=
  PrimFloat.Leibniz.eqb (vx v) (vx w) && PrimFloat.Leibniz.eqb (vy v) (vy w)
  && PrimFloat.Leibniz.eqb (vz v) (vz w).

(** Two records of the same object hold the same base. *)
Definition sameCapture (p q : ObjectParameters) : bool :=
  implb (Nat.eqb (object p) (object q)) (vec_eqb (base p) (base q)).

Definition notIn (L : list Name) (n : Name) : bool := negb (existsb (Nat.eqb n) L).

(** The three lines of the center mark of a selected object: they are in the
    document and none of them is one of the marker lines [L]. *)
Definition rowOk (d : Document) (L : list Name) (row : list Name) : bool :=
  match row with
  | a :: b :: c :: _ =>
      live d a && live d b && live d c && notIn L a && notIn L b && notIn L c
  | _ => false
  end.

(** The state of the window and of the document during a drag, as
    [sldPressed] leaves it: the transform is active; the selected objects
    are in the document, with one captured base per object; when center
    marks are drawn, each selected object has its three temporary lines and
    a center; when snapping is on, the marker lines are in the document and
    the group of the origin lines can be read. *)
Definition dragReady (s : State) : bool :=
  let w := win s in
  let d := doc s in
  let L := map object (centerLinesParams w) in
  transformActive w
  && forallb (fun p => live d (object p)) (selectedObjsParams w)
  && forallb (fun p => forallb (sameCapture p) (selectedObjsParams w))
       (selectedObjsParams w)
  && (if chkCenterMarks (ui w)
      then forallb (fun p => hasCenter d (object p)) (selectedObjsParams w)
           && (List.length (selectedObjsParams w) <=? List.length (centerLines w))%nat
           && forallb (rowOk d L) (firstn (List.length (selectedObjsParams w)) (centerLines w))
      else true)
  && (if chkSnap (ui w)
      then forallb (live d) L && groupOk d GROUP_LABEL_ORIGIN_LINES
      else true).

(** What a drag never changes in a document object. *)
Definition skel (o : DocObject) :=
  (ObjName o, Label o, TypeId o, Shape o, Mesh o, Group o).

Definition coords (o : DocObject) := (X1 o, Y1 o, Z1 o).

(** [kept L B o o']: [o'] is [o] up to its view properties, its end points
    unless it is one of [L], and its placement unless [B] holds. *)
Definition kept (L : list Name) (B : Prop) (o o' : DocObject) : Prop :=
  skel o = skel o'
  /\ (In (ObjName o) L -> coords o = coords o')
  /\ (B -> PlacementBase o = PlacementBase o').

Definition docKept (L : list Name) (B : Prop) (d d' : Document) : Prop :=
  Forall2 (kept L B) d d'.

(** The attributes of the window that stay as they are during a drag. *)
Definition dragConst (w : MacroWindow) :=
  (transformActive w, deltaTranslation w, snapDistance w, markerLineColor w,
   markerLineWidth w, snapLineColor w, snapLineWidth w, axesMarkerLineLength w,
   selectedObjsParams w, centerLinesParams w, centerLines w,
   (chkBoundingBoxes (ui w), chkWireFrame (ui w), chkSnap (ui w),
    chkCenterMarks (ui w), chkAutoUpdateView (ui w), chkAutoRecompute (ui w))).

(** [during L B s s']: [s'] is a later state of the drag of [s]. *)
Definition during (L : list Name) (B : Prop) (s s' : State) : Prop :=
  dragConst (win s) = dragConst (win s') /\ docKept L B (doc s) (doc s').

(* ================================================================== *)
(** ** Relations between the states of a drag *)

(** [quietly s s']: from [s] to [s'] the window did not change, and the
    document changed in view properties only. *)
Definition quietly (s s' : State) : Prop :=
  win s' = win s /\ forall L, docKept L True (doc s) (doc s').

(** The console is the only part of the state a message changes. *)
Definition logged (s s' : State) : Prop := win s' = win s /\ doc s' = doc s.

(* ================================================================== *)
(** ** Snapping: what the scan decides *)

Inductive Axis : Set := AxisX | AxisY | AxisZ.

(** The three translation counters, and the three counters
    [axis?Translation2], as vectors. *)
Definition axisOf (w : MacroWindow) : Vector :=
  mkVector (axisXTranslation w) (axisYTranslation w) (axisZTranslation w).

Definition axis2Of (w : MacroWindow) : Vector :=
  mkVector (axisXTranslation2 w) (axisYTranslation2 w) (axisZTranslation2 w).

(** The active axis: the first one of X, Y, Z whose translation is not zero. *)
Definition activeAxis (t : Vector) : option Axis :=
  if (zero <? abs (vx t))%float then Some AxisX
  else if (zero <? abs (vy t))%float then Some AxisY
  else if (zero <? abs (vz t))%float then Some AxisZ
  else None.

Definition component (a : Axis) (v : Vector) : float :=
  match a with AxisX => vx v | AxisY => vy v | AxisZ => vz v end.

(** [nudge a diff t]: [t] with [diff] added to its component on [a]. *)
Definition nudge (a : Axis) (diff : float) (t : Vector) : Vector :=
  match a with
  | AxisX => mkVector (vx t + diff)%float (vy t) (vz t)
  | AxisY => mkVector (vx t) (vy t + diff)%float (vz t)
  | AxisZ => mkVector (vx t) (vy t) (vz t + diff)%float
  end.

(** What the scan reads of a marker line. *)
Record MarkerLine : Set := mkMarker {
  markerName : Name;
  markerLabel : string;
  markerStart : Vector
}.

Definition marker (o : DocObject) : MarkerLine :=
  mkMarker (ObjName o) (Label o) (mkVector (X1 o) (Y1 o) (Z1 o)).

(** The marker lines of a list of records, as the document holds them. *)
Definition markers (d : Document) (lines : list ObjectParameters)
  : list MarkerLine :=
  flat_map (fun p => match find (named (object p)) d with
                     | Some o => [marker o]
                     | None => []
                     end) lines.

(** The lines a translation along [a] can snap to: the center lines drawn
    along the two other axes, whose coordinate on [a] is fixed. *)
Definition crossing (a : Axis) (label : string) : bool :=
  match a with
  | AxisX => startswith label LINE_CENTER_Y_LABEL_PREFIX
             || startswith label LINE_CENTER_Z_LABEL_PREFIX
  | AxisY => startswith label LINE_CENTER_X_LABEL_PREFIX
             || startswith label LINE_CENTER_Z_LABEL_PREFIX
  | AxisZ => startswith label LINE_CENTER_X_LABEL_PREFIX
             || startswith label LINE_CENTER_Y_LABEL_PREFIX
  end.

(** The threshold predicate [abs(candidate - target) <= snapDistance]. *)
Definition withinSnap (candidate target snapDistance : float) : bool :=
  (abs (candidate - target) <=? snapDistance)%float.

(** The snap decision for a marker line and a translated center. *)
Definition snapsTo (a : Axis) (snapDistance : float) (target : Vector)
  (m : MarkerLine) : bool :=
  crossing a (markerLabel m)
  && withinSnap (component a (markerStart m)) (component a target) snapDistance.

(** First match over the selected objects, then over the marker lines. *)
Fixpoint firstSnap (a : Axis) (snapDistance : float) (t : Vector)
  (params : list ObjectParameters) (ms : list MarkerLine)
  : option (ObjectParameters * MarkerLine) :=
  match params with
  | [] => None
  | p :: rest =>
      match find (snapsTo a snapDistance (vadd (center p) t)) ms with
      | Some m => Some (p, m)
      | None => firstSnap a snapDistance t rest ms
      end
  end.

(** The adjustment of a snap of the object [p] to the line [m]. *)
Definition snapDiff (a : Axis) (t : Vector) (p : ObjectParameters)
  (m : MarkerLine) : float :=
  (component a (markerStart m) - component a (vadd (center p) t))%float.

(** The translation [checkSnapping] leaves for the translation [t]. *)
Definition snapResult (snapDistance : float) (t : Vector)
  (params : list ObjectParameters) (ms : list MarkerLine) : Vector :=
  match activeAxis t with
  | Some a =>
      match firstSnap a snapDistance t params ms with
      | Some (p, m) => nudge a (snapDiff a t p m) t
      | None => t
      end
  | None => t
  end.

(** The decision of the body of the inner loop for one line: the new
    counters [axis?Translation2] when it snaps. *)
Definition snapStep (w : MacroWindow) (newCenter : Vector) (m : MarkerLine)
  : option Vector :=
  match activeAxis (axisOf w) with
  | Some a =>
      if snapsTo a (snapDistance w) newCenter m
      then Some (nudge a (component a (markerStart m) - component a newCenter)%float
                   (axis2Of w))
      else None
  | None => None
  end.

Definition snapsNow (w : MacroWindow) (newCenter : Vector) (m : MarkerLine) : bool :=
  match snapStep w newCenter m with Some _ => true | None => false end.

Definition labelOf (d : Document) (n : Name) : string :=
  match find (named n) d with Some o => Label o | None => EmptyString end.

(** The outcome of the outer loop of [checkSnapping]: the translation and
    the message of the status bar. *)
Definition snapOutcome (w : MacroWindow) (d : Document)
  (params : list ObjectParameters) : Vector * string :=
  match activeAxis (axisOf w) with
  | Some a =>
      match firstSnap a (snapDistance w) (axisOf w) params
              (markers d (centerLinesParams w)) with
      | Some (p, m) =>
          (nudge a (snapDiff a (axisOf w) p m) (axis2Of w),
           snapMessage (labelOf d (object p)) (markerLabel m))
      | None => (axisOf w, statusBar (ui w))
      end
  | None => (axisOf w, statusBar (ui w))
  end.

(** [checkSnapping] can read what it needs: the selected objects and the
    marker lines are in the document and the group of the origin lines can
    be read. *)
Definition snapReady (s : State) : bool :=
  forallb (fun p => live (doc s) (object p)) (selectedObjsParams (win s))
  && forallb (fun p => live (doc s) (object p)) (centerLinesParams (win s))
  && groupOk (doc s) GROUP_LABEL_ORIGIN_LINES.

(** [moving L s s']: from [s] to [s'] the window did not change, and the
    document changed in view properties and in the end points of lines
    other than [L]. *)
Definition moving (L : list Name) (s s' : State) : Prop :=
  win s' = win s /\ docKept L True (doc s) (doc s').

(** The center marks can be moved. *)
Definition marksReady (s : State) : bool :=
  let w := win s in
  forallb (fun p => hasCenter (doc s) (object p)) (selectedObjsParams w)
  && (List.length (selectedObjsParams w) <=? List.length (centerLines w))%nat
  && forallb (rowOk (doc s) (map object (centerLinesParams w)))
       (firstn (List.length (selectedObjsParams w)) (centerLines w)).

(* ================================================================== *)
(** ** Translation of the selection *)

(** [obj.Placement.Base], read through a reference. *)
Definition baseOf (d : Document) (n : Name) : option Vector :=
  option_map PlacementBase (find (named n) d).

(** The translation the sliders ask for. *)
Definition requested (w : MacroWindow) (x y z : Z) : Vector :=
  mkVector (int_mul_float x (deltaTranslation w))
           (int_mul_float y (deltaTranslation w))
           (int_mul_float z (deltaTranslation w)).

(** The translation [translateSelection x y z] applies in the state [s] of a
    drag: the one asked for, adjusted by [checkSnapping] when snapping is on. *)
Definition offsetFor (x y z : Z) (s : State) : Vector :=
  let w := win s in
  if chkSnap (ui w)
  then snapResult (snapDistance w) (requested w x y z) (selectedObjsParams w)
         (markers (doc s) (centerLinesParams w))
  else requested w x y z.

(** Delivery of a [valueChanged] signal of a translation slider: the slider
    holds the value [v] and the connected handler runs. *)
Definition Event : Set := (Axis * Z)%type.

Definition deliver (fuel : nat) (e : Event) (s : State) : Exc State :=
  match e with
  | (AxisX, v) => sldTranslateXChanged fuel (onWin (onUi (set_sldTranslateX v)) s)
  | (AxisY, v) => sldTranslateYChanged fuel (onWin (onUi (set_sldTranslateY v)) s)
  | (AxisZ, v) => sldTranslateZChanged fuel (onWin (onUi (set_sldTranslateZ v)) s)
  end.

(** The translation the handler of an event asks for. *)
Definition eventOffset (e : Event) (s : State) : Vector :=
  match e with
  | (AxisX, v) => offsetFor v 0 0 s
  | (AxisY, v) => offsetFor 0 v 0 s
  | (AxisZ, v) => offsetFor 0 0 v s
  end.

(* ================================================================== *)
(** ** Example documents *)

(** The widgets and the attributes of the window as [setupUi] and [__init__]
    leave them, up to the checkbox of snapping and the two steps; the lists
    that the first press assigns are shown empty. *)
Definition startUi (snap : bool) (delta : Z) : Ui :=
  mkUi 0 0 0 delta 1 true false snap true false true
       zero zero zero (pow10 delta) (pow10 1) EmptyString.

Definition startWindow (snap : bool) (delta : Z) : MacroWindow :=
  mkWindow (startUi snap delta) false zero zero zero zero zero zero
    (pow10 delta) (pow10 1)
    ((150 / 255)%float, (150 / 255)%float, (150 / 255)%float, zero) 2
    (zero, one, one, zero) 4 500 None [] [] [].

(** A design object with a shape. *)
Definition solid (n : Name) (label typeId : string) (b c : Vector) : DocObject :=
  mkObj n label typeId b (Some (mkShape PartShapeOther c)) None []
        zero zero zero zero zero zero (mkView (zero, zero, zero, zero) 2 false).

Definition exDoc : Document :=
  [ solid 0 "Box" "Part::Box" (mkVector 1 2 3) (mkVector 5 5 5);
    solid 1 "Cyl" "Part::Cylinder" (mkVector 10 0 0) (mkVector 1 1 1) ].

Definition select (l : list Name) (s : State) : State :=
  mkState (win s) (doc s) (fresh s) l (console s) (drawStyle s) (recomputes s).

Definition orElse (m : Exc State) (s : State) : State :=
  match m with Ok s' => s' | Raise _ => s end.

(** The box and the cylinder, after a center mark was added to the cylinder
    and the origin mark was toggled on. *)
Definition exMarked (snap : bool) (delta : Z) : State :=
  Eval vm_compute in
    let s0 := mkState (startWindow snap delta) exDoc 2 [1%nat] [] 0 0 in
    orElse (s <- btnAddCenterMarkClicked s0 ;; btnToggleOriginMarkClicked s) s0.

(** The same, after the box was selected and a translation slider pressed. *)
Definition exPressed (snap : bool) (delta : Z) : State :=
  Eval vm_compute in
    orElse (sldPressed (select [0%nat] (exMarked snap delta))) (exMarked snap delta).

(* ================================================================== *)
(** ** Statements of the claims *)

(** [placesSelection s r t]: the call whose result is [r], made in the state
    [s], returned and left every selected object at its captured base plus
    [t]. *)
Definition placesSelection (s : State) (r : Exc State) (t : Vector) : Prop :=
  exists s', r = Ok s'
    /\ forall p, In p (selectedObjsParams (win s)) ->
         baseOf (doc s') (object p) = Some (vadd (base p) t).

(** [keepsCoordinates s r a]: the call whose result is [r], made in the
    state [s], returned and left, for every selected object, the same
    numbers as in its captured base on the two axes other than [a]. *)
Definition keepsCoordinates (s : State) (r : Exc State) (a : Axis) : Prop :=
  exists s', r = Ok s'
    /\ forall p, In p (selectedObjsParams (win s)) ->
         exists b, baseOf (doc s') (object p) = Some b
           /\ forall a', a' <> a ->
                same_number (component a' b) (component a' (base p)).

(** The state of the pressed example when a slider handler has assigned the
    translation counters and calls [checkSnapping]. *)
Definition exSnapping (x : Z) : State :=
  Eval vm_compute in
    onWin (fun w => set_axis (int_mul_float x (deltaTranslation w)) zero zero w)
      (exPressed true 0).

(** [snapsToNearest s]: the line [checkSnapping] snaps to in the state [s]
    is, among the marker lines within the threshold of the translated
    center, one whose coordinate difference is smallest. *)
Definition snapsToNearest (s : State) : Prop :=
  let w := win s in
  let ms := markers (doc s) (centerLinesParams w) in
  forall s' a p m,
    checkSnapping s = Ok s' ->
    activeAxis (axisOf w) = Some a ->
    In p (selectedObjsParams w) -> In m ms ->
    snapsTo a (snapDistance w) (vadd (center p) (axisOf w)) m = true ->
    axisOf (win s') = nudge a (snapDiff a (axisOf w) p m) (axisOf w) ->
    forall m', In m' ms ->
      snapsTo a (snapDistance w) (vadd (center p) (axisOf w)) m' = true ->
      (abs (snapDiff a (axisOf w) p m) <=? abs (snapDiff a (axisOf w) p m'))%float = true.

(** [snapLandsOnLine s]: when [checkSnapping] snaps the selected object [p]
    to the marker line [m] in the state [s], the captured center of [p]
    plus the translation it leaves is the coordinate of [m], on the active
    axis. *)
Definition snapLandsOnLine (s : State) : Prop :=
  let w := win s in
  forall s' a p m,
    checkSnapping s = Ok s' ->
    activeAxis (axisOf w) = Some a ->
    firstSnap a (snapDistance w) (axisOf w) (selectedObjsParams w)
      (markers (doc s) (centerLinesParams w)) = Some (p, m) ->
    (component a (center p) + component a (axisOf (win s')))%float
    = component a (markerStart m).

(** A pin whose center is at x = 0.1 and a center line at x = 0.3. *)
Definition exPinDoc : Document :=
  Eval vm_compute in
    [ solid 0 "Pin" "Part::Cylinder" (mkVector 0 0 0) (mkVector (1 / 10) 0 0);
      mkObj 1 "line_center_cy_Ref" "Part::Line"%string (mkVector 0 0 0)
        (Some (mkShape PartEdge (mkVector 0 0 0))) None []
        (3 / 10)%float (-500)%float zero (3 / 10)%float 500%float zero
        (mkView (zero, zero, zero, zero) 2 false);
      mkObj 2 "lines_center" "App::DocumentObjectGroup"%string
        (mkVector 0 0 0) None None [1%nat] zero zero zero zero zero zero
        (mkView (zero, zero, zero, zero) 2 false) ].

(** The pin is selected, a slider is pressed with a step of 0.1, and the
    handler of the X slider, at the value 2, calls [checkSnapping]. *)
Definition exPin : State :=
  Eval vm_compute in
    let s0 := mkState (startWindow true (-1)) exPinDoc 3 [0%nat] [] 0 0 in
    onWin (fun w => set_axis (int_mul_float 2 (deltaTranslation w)) zero zero w)
      (orElse (sldPressed s0) s0).

(* ================================================================== *)
(** ** Slider changes outside a drag *)

(** The number of translation sliders that are not at zero. *)
Definition offZero (s : State) : nat :=
  let u := ui (win s) in
  (if Z.eqb (sldTranslateX u) 0 then 0 else 1)
  + (if Z.eqb (sldTranslateY u) 0 then 0 else 1)
  + (if Z.eqb (sldTranslateZ u) 0 then 0 else 1).

(** [settled s s']: from [s] to [s'] the document, the selection list, the
    flag of the transform and the step are as they were, and a translation
    slider either kept its value or went to zero. *)
Definition settled (s s' : State) : Prop :=
  doc s' = doc s
  /\ dragConst (win s') = dragConst (win s)
  /\ transformActive (win s') = transformActive (win s)
  /\ selectedObjsParams (win s') = selectedObjsParams (win s)
  /\ (sldTranslateX (ui (win s')) = sldTranslateX (ui (win s))
      \/ sldTranslateX (ui (win s')) = 0%Z)
  /\ (sldTranslateY (ui (win s')) = sldTranslateY (ui (win s))
      \/ sldTranslateY (ui (win s')) = 0%Z)
  /\ (sldTranslateZ (ui (win s')) = sldTranslateZ (ui (win s))
      \/ sldTranslateZ (ui (win s')) = 0%Z).

(** [reset s s']: [s'] is [s] with the three translation sliders and the
    three translation counters at zero, and the same document. *)
Definition reset (s s' : State) : Prop :=
  settled s s'
  /\ sldTranslateX (ui (win s')) = 0%Z
  /\ sldTranslateY (ui (win s')) = 0%Z
  /\ sldTranslateZ (ui (win s')) = 0%Z
  /\ axisOf (win s') = mkVector zero zero zero.

(** The pressed example after the release of the slider, with the X slider
    moved to 4 and the Z slider to -2 without a press. *)
Definition exIdle : State :=
  Eval vm_compute in
    onWin (onUi (fun u => set_sldTranslateX 4 (set_sldTranslateZ (-2) u)))
      (orElse (sldReleased 4 (exPressed true 0)) (exPressed true 0)).

(** A document with a sketch, whose [TypeId] starts with none of the allowed
    prefixes, and a group that holds the box and the sketch. *)
Definition exFolderDoc : Document :=
  exDoc ++
  [ solid 2 "Sketch" "Sketcher::SketchObject" (mkVector 0 0 0) (mkVector 0 0 0);
    mkObj 3 "Group" "App::DocumentObjectGroup"%string (mkVector 0 0 0)
      None None [0%nat; 2%nat] zero zero zero zero zero zero
      (mkView (zero, zero, zero, zero) 2 false) ].

Definition exFolder (sel : list Name) : State :=
  mkState (startWindow true 0) exFolderDoc 4 sel [] 0 0.

(* ================================================================== *)
(** ** Removal of the temporary center marks *)

Definition names (d : Document) : list Name := map ObjName d.

Definition isNonFace (d : Document) (m : Name) : bool :=
  match find (named m) d with
  | Some o =>
      match Shape o with
      | Some sh => negb (isFace (shapeClass sh))
      | None => false
      end
  | None => false
  end.

(** The objects [getGroupObjects] returns: the members of the group whose
    shape is not a face. *)
Definition nonFaceMembers (d : Document) (groupLabel : string) : list Name :=
  match findGroup groupLabel d with
  | Some g =>
      match find (named g) d with
      | Some grp => filter (isNonFace d) (Group grp)
      | None => []
      end
  | None => []
  end.

Definition removeAll (l : list Name) (d : Document) : Document :=
  fold_left (fun d' n => docRemove n d') l d.

(** The document [removeGroup] leaves. *)
Definition cleanupDoc (groupLabel : string) (d : Document) : Document :=
  let d1 := removeAll (nonFaceMembers d groupLabel) d in
  removeAll (map ObjName (getObjectsByLabel groupLabel d1)) d1.

Fixpoint distinct (l : list Name) : bool :=
  match l with
  | [] => true
  | n :: l' => negb (existsb (Nat.eqb n) l') && distinct l'
  end.

(** [sldReleased] can run to its end: the selected objects are in the
    document when their bounding boxes are restored; the group of the
    temporary lines can be read; names are unique in the document and in the
    group; and once the temporary lines are gone, the group of the origin
    lines can be read and the marker lines are still in the document. *)
Definition releaseReady (s : State) : bool :=
  let w := win s in
  let d := doc s in
  (if chkBoundingBoxes (ui w)
   then forallb (fun p => live d (object p)) (selectedObjsParams w) else true)
  && groupOk d GROUP_LABEL_TEMP_CENTER_LINES
  && distinct (names d)
  && distinct (nonFaceMembers d GROUP_LABEL_TEMP_CENTER_LINES)
  && groupOk (cleanupDoc GROUP_LABEL_TEMP_CENTER_LINES d) GROUP_LABEL_ORIGIN_LINES
  && forallb (fun p => live (cleanupDoc GROUP_LABEL_TEMP_CENTER_LINES d) (object p))
       (centerLinesParams w).

(** [cleanupRemovesAll fuel s]: the release of the slider in the state [s]
    returns and has removed the group of the temporary center lines and
    every object in it. *)
Definition cleanupRemovesAll (fuel : nat) (s : State) : Prop :=
  exists s', sldReleased fuel s = Ok s'
    /\ forall g grp,
         findGroup GROUP_LABEL_TEMP_CENTER_LINES (doc s) = Some g ->
         find (named g) (doc s) = Some grp ->
         live (doc s') g = false
         /\ forall m, In m (Group grp) -> live (doc s') m = false.

(** A document whose group labelled [lines_temp_center] holds a plane, whose
    shape is a face; the box is selected and a slider pressed. *)
Definition exPlane : State :=
  Eval vm_compute in
    let d := exDoc ++
      [ mkObj 2 "Plane" "Part::Plane"%string (mkVector 0 0 0)
          (Some (mkShape PartFace (mkVector 5 5 0))) None []
          zero zero zero zero zero zero (mkView (zero, zero, zero, zero) 2 false);
        mkObj 3 GROUP_LABEL_TEMP_CENTER_LINES
          "App::DocumentObjectGroup"%string (mkVector 0 0 0)
          None None [2%nat] zero zero zero zero zero zero
          (mkView (zero, zero, zero, zero) 2 false) ] in
    let s0 := mkState (startWindow true 0) d 4 [0%nat] [] 0 0 in
    orElse (sldPressed s0) s0.

(* ================================================================== *)
(** ** The start of a drag *)

(** The names of the document are distinct and below the next free name. *)
Definition hostOk (s : State) : bool :=
  distinct (names (doc s)) && forallb (fun n => Nat.ltb n (fresh s)) (names (doc s)).

(** [captured d p]: the record [p] was made from the document [d]. *)
Definition captured (d : Document) (p : ObjectParameters) : Prop :=
  hasCenter d (object p) = true /\ baseOf d (object p) = Some (base p).

(** [printed s s']: only messages were printed from [s] to [s']. *)
Definition printed (s s' : State) : Prop :=
  win s' = win s /\ doc s' = doc s /\ fresh s' = fresh s.

Definition hasShape (d : Document) (m : Name) : bool :=
  match find (named m) d with
  | Some o => match Shape o with Some _ => true | None => false end
  | None => false
  end.

(** [originKept o o']: [o'] is [o] up to what a press changes in an object
    that was in the document: view properties, and the members of a group
    that is not labelled as the group of the origin lines. *)
Definition originKept (o o' : DocObject) : Prop :=
  ObjName o = ObjName o' /\ Label o = Label o' /\ TypeId o = TypeId o'
  /\ Shape o = Shape o' /\ Mesh o = Mesh o'
  /\ (Label o = GROUP_LABEL_ORIGIN_LINES -> Group o = Group o').

(** [grown d d']: [d'] is [d] with objects kept as [originKept] says,
    followed by new objects, none labelled as the group of the origin
    lines. *)
Definition grown (d d' : Document) : Prop :=
  exists d1 extra,
    d' = d1 ++ extra /\ Forall2 originKept d d1
    /\ Forall (fun o => Label o <> GROUP_LABEL_ORIGIN_LINES) extra.

(** The names of the document are distinct and below the next free name. *)
Definition Host (s : State) : Prop :=
  NoDup (names (doc s)) /\ forall n, In n (names (doc s)) -> n < fresh s.

(** The line [drawLine] adds to the document. *)
Definition addedLine (s : State) (label : string) (start end_ : Vector) : DocObject :=
  setEnds start end_
    (setLabel label
       (setLineWidth (markerLineWidth (win s))
          (setLineColor (markerLineColor (win s))
             (newObject (fresh s) "Part::Line" LINE_CENTER_NAME_PREFIX)))).

Definition appended (o : DocObject) (s : State) : State :=
  mkState (win s) (doc s ++ [o]) (S (fresh s)) (selection s) (console s)
          (drawStyle s) (recomputes s).

(** A step of [sldPressed] that may add objects to the document: the names
    stay distinct, the window is unchanged, and what was in the document is
    still there. *)
Definition extends (s s' : State) : Prop :=
  Host s' /\ win s' = win s /\ fresh s <= fresh s' /\ grown (doc s) (doc s').

(** A name at or above the free name of [s] that is in the document [d]. *)
Definition newIn (s : State) (d : Document) (n : Name) : Prop :=
  fresh s <= n /\ live d n = true.

(** A row of three lines drawn after the state [s]. *)
Definition newRow (s : State) (d : Document) (row : list Name) : Prop :=
  exists a b c, row = [a; b; c] /\ newIn s d a /\ newIn s d b /\ newIn s d c.

(** A step that writes view attributes of objects of the document. *)
Definition retouched (s s' : State) : Prop :=
  win s' = win s /\ fresh s' = fresh s /\ names (doc s') = names (doc s)
  /\ grown (doc s) (doc s').

(* ================================================================== *)
(** ** What the selection filter returns *)



(** [says s s' msgs]: from [s] to [s'] the messages [msgs] were printed on
    the report console, and nothing else changed. *)
Definition says (s s' : State) (msgs : list string) : Prop :=
  s' = mkState (win s) (doc s) (fresh s) (selection s) (console s ++ msgs)
         (drawStyle s) (recomputes s).


(* ================================================================== *)
(** ** What the controller leaves to the host *)

(** [steady s s']: from [s] to [s'] the selection of the view, the draw
    style and the number of recomputes asked are the same. *)
Definition steady (s s' : State) : Prop :=
  selection s' = selection s /\ drawStyle s' = drawStyle s
  /\ recomputes s' = recomputes s.

(* ================================================================== *)
(** ** Slider changes with nothing selected *)


(* ================================================================== *)
(** ** Center marks ticked during a drag *)



(* ================================================================== *)
(** ** Removal by label *)


(* ================================================================== *)
(** ** The origin mark *)







(* ================================================================== *)
(** ** The origin mark, on and off *)

(** The members of every group of the document are below the next free
    name. *)
Definition groupsBelow (s : State) : bool :=
  forallb (fun o => forallb (fun m => Nat.ltb m (fresh s)) (Group o)) (doc s).

(* ================================================================== *)
(** ** Members of a group *)




(* ================================================================== *)
(** ** The lines of a center mark *)



(* ================================================================== *)
(** ** The step of the sliders *)




(* ================================================================== *)
(** ** The line a snap highlights *)





(* ================================================================== *)
(** ** Reset of the placements *)




(* ================================================================== *)
(** ** The window flag of the top-most window *)



(* ================================================================== *)
(** ** Selection filtering *)

(** The objects the filter of [getSelectedObjects] tests, in its order: an
    object of the selection, or, for a group of the selection, the members of
    the group. *)
Definition candidates (d : Document) (sel : list Name) : list Name :=
  flat_map (fun n => match find (named n) d with
                     | Some obj =>
                         if typeIdIs "App::DocumentObjectGroup" obj
                         then Group obj else [n]
                     | None => []
                     end) sel.

(** The test of the filter on the object [n] of the document. *)
Definition allowed (d : Document) (n : Name) : bool :=
  match find (named n) d with
  | Some o => str_in (split_head (TypeId o)) allowedTypeIds
  | None => false
  end.

(** The selection the host hands over: its objects, and the members of its
    groups, are objects of the document. *)
Definition selectionOk (s : State) : bool :=
  forallb (live (doc s)) (selection s)
  && forallb (live (doc s)) (candidates (doc s) (selection s)).

(** The messages of the filter for the candidates [l]. *)
Definition notSelected (d : Document) (l : list Name) : list string :=
  map (fun n => notSelecting (labelOf d n)) (filter (fun n => negb (allowed d n)) l).

(* ================================================================== *)
(** ** The release of the slider *)

Definition isFaceMember (d : Document) (m : Name) : bool :=
  match find (named m) d with
  | Some o =>
      match Shape o with
      | Some sh => isFace (shapeClass sh)
      | None => false
      end
  | None => false
  end.

(** The objects [getGroupObjects] skips: the members of the group whose
    shape is a face. *)
Definition faceMembers (d : Document) (groupLabel : string) : list Name :=
  match findGroup groupLabel d with
  | Some g =>
      match find (named g) d with
      | Some grp => filter (isFaceMember d) (Group grp)
      | None => []
      end
  | None => []
  end.

(** The messages [getGroupObjects] prints for the group. *)
Definition skipped (d : Document) (groupLabel : string) : list string :=
  map (fun m => notSelecting (labelOf d m)) (faceMembers d groupLabel).

(** A document whose group labelled [lines_temp_center] holds a mesh, which
    has no [Shape]; the box is selected and a slider pressed. *)
Definition exMeshed : State :=
  Eval vm_compute in
    let d := exDoc ++
      [ mkObj 2 "Mesh" "Mesh::Feature"%string (mkVector 0 0 0)
          None (Some (mkVector 5 5 0)) []
          zero zero zero zero zero zero (mkView (zero, zero, zero, zero) 2 false);
        mkObj 3 GROUP_LABEL_TEMP_CENTER_LINES
          "App::DocumentObjectGroup"%string (mkVector 0 0 0)
          None None [2%nat] zero zero zero zero zero zero
          (mkView (zero, zero, zero, zero) 2 false) ] in
    let s0 := mkState (startWindow true 0) d 4 [0%nat] [] 0 0 in
    orElse (sldPressed s0) s0.

(** The proofs unfold these functions where they need to. *)
Arguments drawCenterMark : simpl never.
Arguments checkSnapping : simpl never.
Arguments drawCenterMarks : simpl never.
Arguments translateObject : simpl never.
Arguments removeGroup : simpl never.
Arguments formatOriginMark : simpl never.
Arguments setTranslateX : simpl never.
Arguments setTranslateY : simpl never.
Arguments setTranslateZ : simpl never.
Arguments classify : simpl never.

(* ================================================================== *)
(** * Properties *)

(* ================================================================== *)
(** ** Documents related by [kept] *)

Lemma kept_refl L B o : kept L B o o.
Proof. repeat split. Qed.

Lemma kept_trans L B o1 o2 o3 :
  kept L B o1 o2 -> kept L B o2 o3 -> kept L B o1 o3.
Proof.
  intros (Hs & Hc & Hb) (Hs' & Hc' & Hb').
  assert (Hn : ObjName o1 = ObjName o2) by (unfold skel in Hs; congruence).
  repeat split.
  - congruence.
  - intro Hin. rewrite Hc by assumption. apply Hc'. now rewrite <- Hn.
  - intro b. rewrite Hb by assumption. now apply Hb'.
Qed.

Lemma kept_weaken L B (B' : Prop) o o' :
  (B' -> B) -> kept L B o o' -> kept L B' o o'.
Proof. intros HB (Hs & Hc & Hb). repeat split; auto. Qed.

Lemma kept_name {L B o o'} : kept L B o o' -> ObjName o = ObjName o'.
Proof. intros (Hs & _). unfold skel in Hs. congruence. Qed.

Lemma docKept_refl L B d : docKept L B d d.
Proof. induction d; constructor; auto using kept_refl. Qed.

Lemma docKept_trans L B d1 d2 d3 :
  docKept L B d1 d2 -> docKept L B d2 d3 -> docKept L B d1 d3.
Proof.
  intros H12. revert d3.
  induction H12 as [|o1 o2 d1 d2 Hk _ IH]; intros d3 H23;
    inversion H23; subst; constructor.
  - eapply kept_trans; eassumption.
  - now apply IH.
Qed.

Lemma docKept_weaken L B (B' : Prop) d d' :
  (B' -> B) -> docKept L B d d' -> docKept L B' d d'.
Proof. intros HB H. induction H; constructor; eauto using kept_weaken. Qed.

Lemma docKept_find {L B d d'} n :
  docKept L B d d' ->
  match find (named n) d with
  | Some o => exists o', find (named n) d' = Some o' /\ kept L B o o'
  | None => find (named n) d' = None
  end.
Proof.
  induction 1 as [|o o' d d' Hk _ IH]; simpl; [reflexivity|].
  assert (E : named n o' = named n o)
    by (unfold named; now rewrite (kept_name Hk)).
  rewrite E. destruct (named n o); [eauto|exact IH].
Qed.

Lemma docKept_upd L B n f d :
  (forall o, named n o = true -> kept L B o (f o)) ->
  docKept L B d (updObject n f d).
Proof.
  intro Hf. induction d as [|o d IH]; simpl; constructor; auto.
  destruct (named n o) eqn:E; auto using kept_refl.
Qed.

Lemma find_named_name n d o : find (named n) d = Some o -> ObjName o = n.
Proof.
  intro H. apply find_some in H. destruct H as [_ H].
  now apply Nat.eqb_eq in H.
Qed.

Lemma find_upd_same n f d o :
  (forall o, ObjName (f o) = ObjName o) ->
  find (named n) d = Some o ->
  find (named n) (updObject n f d) = Some (f o).
Proof.
  intros Hf. induction d as [|a d IH]; simpl; [discriminate|].
  destruct (named n a) eqn:E.
  - intros [= <-]. unfold named. rewrite Hf. unfold named in E. now rewrite E.
  - rewrite E. exact IH.
Qed.

Lemma find_upd_other n m f d :
  (forall o, ObjName (f o) = ObjName o) ->
  n <> m ->
  find (named m) (updObject n f d) = find (named m) d.
Proof.
  intros Hf Hnm. induction d as [|a d IH]; simpl; [reflexivity|].
  destruct (named n a) eqn:E.
  - unfold named in *. rewrite Hf. apply Nat.eqb_eq in E.
    destruct (Nat.eqb (ObjName a) m) eqn:E'; [|exact IH].
    apply Nat.eqb_eq in E'. congruence.
  - destruct (named m a); [reflexivity|exact IH].
Qed.

Lemma forallb_same {A : Type} (f g : A -> bool) (l : list A) :
  (forall a, f a = g a) -> forallb f l = forallb g l.
Proof. intro H. induction l as [|a l IH]; simpl; [reflexivity|]. now rewrite H, IH. Qed.

Lemma kept_fields {L B o o'} :
  kept L B o o' ->
  ObjName o' = ObjName o /\ Label o' = Label o /\ TypeId o' = TypeId o
  /\ Shape o' = Shape o /\ Mesh o' = Mesh o /\ Group o' = Group o.
Proof. intros (Hs & _). unfold skel in Hs. injection Hs. intuition congruence. Qed.

Lemma live_kept {L B d d'} n : docKept L B d d' -> live d' n = live d n.
Proof.
  intro H. pose proof (docKept_find n H) as F. unfold live.
  destruct (find (named n) d); [destruct F as (o' & -> & _)|rewrite F]; reflexivity.
Qed.

Lemma centerOk_kept {L B o o'} : kept L B o o' -> centerOk o' = centerOk o.
Proof.
  intro H. apply kept_fields in H. destruct H as (_ & _ & Ht & Hs & Hm & _).
  unfold centerOk, getCenter, typeIdIs, meshBoundBoxCenter, shapeBoundBoxCenter.
  rewrite Ht, Hs, Hm.
  destruct (String.eqb (TypeId o) "Mesh::Feature"); [destruct (Mesh o); reflexivity|].
  destruct (String.eqb (TypeId o) "Image::ImagePlane"); [reflexivity|].
  destruct (Shape o); reflexivity.
Qed.

Lemma hasCenter_kept {L B d d'} n : docKept L B d d' -> hasCenter d' n = hasCenter d n.
Proof.
  intro H. pose proof (docKept_find n H) as F. unfold hasCenter.
  destruct (find (named n) d); [destruct F as (o' & -> & K)|now rewrite F].
  exact (centerOk_kept K).
Qed.

Lemma memberOk_kept {L B d d'} n : docKept L B d d' -> memberOk d' n = memberOk d n.
Proof.
  intro H. pose proof (docKept_find n H) as F. unfold memberOk.
  destruct (find (named n) d); [destruct F as (o' & -> & K)|now rewrite F].
  rewrite (centerOk_kept K). apply kept_fields in K.
  destruct K as (_ & _ & _ & -> & _). reflexivity.
Qed.

Lemma docKept_filter {L B} (p : DocObject -> bool) {d d'} :
  (forall o o', kept L B o o' -> p o' = p o) ->
  docKept L B d d' -> docKept L B (filter p d) (filter p d').
Proof.
  intros Hp H. induction H as [|o o' d d' Hk _ IH]; simpl; [constructor|].
  rewrite (Hp _ _ Hk). destruct (p o); [constructor|]; assumption.
Qed.

Lemma docKept_find_pred {L B} (p : DocObject -> bool) {d d'} :
  (forall o o', kept L B o o' -> p o' = p o) ->
  docKept L B d d' ->
  option_map ObjName (find p d') = option_map ObjName (find p d).
Proof.
  intros Hp H. induction H as [|o o' d d' Hk _ IH]; simpl; [reflexivity|].
  rewrite (Hp _ _ Hk). destruct (p o); [|exact IH].
  simpl. now rewrite (kept_name Hk).
Qed.

Lemma typeIdIs_kept {L B} t {o o'} : kept L B o o' -> typeIdIs t o' = typeIdIs t o.
Proof.
  intro K. apply kept_fields in K. destruct K as (_ & _ & Ht & _).
  unfold typeIdIs. now rewrite Ht.
Qed.

Lemma findGroup_kept {L B} label {d d'} :
  docKept L B d d' -> findGroup label d' = findGroup label d.
Proof.
  intro H. unfold findGroup, getObjectsByLabel.
  assert (F : docKept L B (filter (fun o => String.eqb (Label o) label) d)
                          (filter (fun o => String.eqb (Label o) label) d')).
  { apply docKept_filter; [|assumption].
    intros o o' K. apply kept_fields in K. destruct K as (_ & -> & _). reflexivity. }
  pose proof (docKept_find_pred (typeIdIs "App::DocumentObjectGroup")
                (fun o o' K => typeIdIs_kept _ K) F) as E.
  destruct F; [reflexivity|exact E].
Qed.

Lemma groupOk_kept {L B} label {d d'} :
  docKept L B d d' -> groupOk d' label = groupOk d label.
Proof.
  intro H. unfold groupOk. rewrite (findGroup_kept label H).
  destruct (findGroup label d) as [g|]; [|reflexivity].
  pose proof (docKept_find g H) as F.
  destruct (find (named g) d) as [grp|]; [destruct F as (o' & -> & K)|now rewrite F].
  apply kept_fields in K. destruct K as (_ & _ & _ & _ & _ & ->).
  apply forallb_same. intros m. exact (memberOk_kept m H).
Qed.

Lemma rowOk_kept {L B} L' {d d'} row :
  docKept L B d d' -> rowOk d' L' row = rowOk d L' row.
Proof.
  intro H. unfold rowOk.
  destruct row as [|a [|b [|c r]]]; try reflexivity.
  now rewrite !(live_kept _ H).
Qed.

Lemma dragConst_fields w w' :
  dragConst w = dragConst w' ->
  transformActive w' = transformActive w
  /\ deltaTranslation w' = deltaTranslation w
  /\ snapDistance w' = snapDistance w
  /\ markerLineColor w' = markerLineColor w
  /\ markerLineWidth w' = markerLineWidth w
  /\ snapLineColor w' = snapLineColor w
  /\ snapLineWidth w' = snapLineWidth w
  /\ axesMarkerLineLength w' = axesMarkerLineLength w
  /\ selectedObjsParams w' = selectedObjsParams w
  /\ centerLinesParams w' = centerLinesParams w
  /\ centerLines w' = centerLines w
  /\ chkSnap (ui w') = chkSnap (ui w)
  /\ chkCenterMarks (ui w') = chkCenterMarks (ui w)
  /\ chkBoundingBoxes (ui w') = chkBoundingBoxes (ui w)
  /\ chkAutoRecompute (ui w') = chkAutoRecompute (ui w).
Proof. unfold dragConst. intro H. injection H. intuition congruence. Qed.

(** A later state of a drag is ready as the first one was. *)
Lemma dragReady_during B s s' :
  during (map object (centerLinesParams (win s))) B s s' ->
  dragReady s' = dragReady s.
Proof.
  intros [Hw Hd]. apply dragConst_fields in Hw.
  destruct Hw as (Ha & _ & _ & _ & _ & _ & _ & _ & Hsel & Hcl & Hrows & Hsn & Hcm & _).
  unfold dragReady. rewrite Ha, Hsel, Hcl, Hrows, Hsn, Hcm.
  rewrite (groupOk_kept _ Hd).
  rewrite (forallb_same (fun p => live (doc s') (object p))
             (fun p => live (doc s) (object p)))
    by (intro p; apply (live_kept _ Hd)).
  rewrite (forallb_same (fun p => hasCenter (doc s') (object p))
             (fun p => hasCenter (doc s) (object p)))
    by (intro p; apply (hasCenter_kept _ Hd)).
  rewrite (forallb_same (rowOk (doc s') (map object (centerLinesParams (win s))))
             (rowOk (doc s) (map object (centerLinesParams (win s)))))
    by (intro row; apply (rowOk_kept _ _ Hd)).
  rewrite (forallb_same (live (doc s')) (live (doc s)))
    by (intro n; apply (live_kept _ Hd)).
  reflexivity.
Qed.

(* ================================================================== *)
(** ** Steps of the controller that keep the document *)

Lemma quietly_refl s : quietly s s.
Proof. split; [reflexivity|intro L; apply docKept_refl]. Qed.

Lemma quietly_trans s1 s2 s3 : quietly s1 s2 -> quietly s2 s3 -> quietly s1 s3.
Proof.
  intros [W D] [W' D']. split; [congruence|].
  intro L. eapply docKept_trans; eauto.
Qed.

Lemma live_quietly {s s'} n : quietly s s' -> live (doc s') n = live (doc s) n.
Proof. intros [_ D]. exact (live_kept n (D [])). Qed.

Lemma modify_live n f s :
  live (doc s) n = true -> modify n f s = Ok (onDoc (updObject n f) s).
Proof.
  unfold live, modify, getObject. now destruct (find (named n) (doc s)).
Qed.

Lemma getObject_live d n :
  live d n = true -> exists o, find (named n) d = Some o /\ getObject d n = Ok o.
Proof.
  unfold live, getObject. destruct (find (named n) d) as [o|]; [eauto|discriminate].
Qed.

Lemma kept_setLineColor L B c o : kept L B o (setLineColor c o).
Proof. repeat split. Qed.

Lemma kept_setLineWidth L B w o : kept L B o (setLineWidth w o).
Proof. repeat split. Qed.

Lemma kept_setBoundingBox L B b o : kept L B o (setBoundingBox b o).
Proof. repeat split. Qed.

Lemma kept_setEnds L B p q o : ~ In (ObjName o) L -> kept L B o (setEnds p q o).
Proof. intro H. repeat split. intro Hin. contradiction. Qed.

Lemma kept_setPlacementBase L v o : kept L False o (setPlacementBase v o).
Proof. repeat split. intros []. Qed.

(** A change of view property through a reference. *)
Lemma modify_view {n} f s :
  (forall L o, kept L True o (f o)) ->
  live (doc s) n = true ->
  exists s', modify n f s = Ok s' /\ quietly s s'.
Proof.
  intros Hf Hl. rewrite (modify_live _ f _ Hl). eexists. split; [reflexivity|].
  split; [reflexivity|]. intro L. apply docKept_upd. intros o _. apply Hf.
Qed.

Lemma forEach_rel {A : Type} (P : A -> State -> Prop) (R : State -> State -> Prop)
  (body : A -> State -> Exc State) (l : list A) :
  (forall s, R s s) ->
  (forall s1 s2 s3, R s1 s2 -> R s2 s3 -> R s1 s3) ->
  (forall a s s', P a s -> R s s' -> P a s') ->
  (forall a s, In a l -> P a s -> exists s', body a s = Ok s' /\ R s s') ->
  forall s, (forall a, In a l -> P a s) ->
  exists s', forEach l body s = Ok s' /\ R s s'.
Proof.
  intros Rrefl Rtrans Pmono Hbody.
  induction l as [|a l IH]; intros s HP; simpl.
  - eauto.
  - destruct (Hbody a s (or_introl eq_refl) (HP a (or_introl eq_refl)))
      as (s1 & -> & R1). simpl.
    destruct IH with (s := s1) as (s2 & -> & R2).
    + intros b s0 Hb. apply Hbody. now right.
    + intros b Hb. eapply Pmono; [apply HP; now right|exact R1].
    + eauto.
Qed.

Lemma getGroup_false label s :
  getGroup label false s = (findGroup label (doc s), s).
Proof.
  unfold getGroup, findGroup. now destruct (getObjectsByLabel label (doc s)).
Qed.

Lemma nonFaces_ok members : forall s,
  forallb (memberOk (doc s)) members = true ->
  exists objs s', nonFaces members s = Ok (objs, s') /\ logged s s'
    /\ forallb (hasCenter (doc s)) objs = true.
Proof.
  induction members as [|m members IH]; intros s H; simpl.
  - exists [], s. repeat split.
  - simpl in H. apply andb_true_iff in H. destruct H as [Hm Hr].
    unfold memberOk in Hm. unfold getObject.
    destruct (find (named m) (doc s)) as [o|] eqn:Ef; [|discriminate].
    simpl. unfold shapeType. destruct (Shape o) as [sh|] eqn:Es; [|discriminate].
    simpl. destruct (isFace (shapeClass sh)) eqn:Eface.
    + destruct (IH (PrintMessage (notSelecting (Label o)) s) Hr)
        as (objs & s' & -> & [W D] & Hc).
      exists objs, s'. repeat split; assumption.
    + destruct (IH s Hr) as (objs & s' & -> & L & Hc). simpl.
      exists (m :: objs), s'. repeat split; try apply L.
      simpl. unfold hasCenter at 1. rewrite Ef. simpl in Hm. now rewrite Hm.
Qed.

Lemma mapExc_objectParameters d objs :
  forallb (hasCenter d) objs = true ->
  exists ps, mapExc (objectParameters d) objs = Ok ps /\ map object ps = objs.
Proof.
  induction objs as [|n objs IH]; simpl; intro H.
  - exists []. split; reflexivity.
  - apply andb_true_iff in H. destruct H as [Hn Hr].
    unfold hasCenter in Hn. unfold objectParameters at 1, getObject.
    destruct (find (named n) d) as [o|]; [|discriminate]. simpl.
    unfold centerOk in Hn. destruct (getCenter o) as [c|]; [|discriminate]. simpl.
    destruct (IH Hr) as (ps & -> & E). simpl.
    eexists. split; [reflexivity|]. simpl. now rewrite E.
Qed.

Lemma hasCenter_live d n : hasCenter d n = true -> live d n = true.
Proof. unfold hasCenter, live. now destruct (find (named n) d). Qed.

Lemma getGroupObjects_ok label s :
  groupOk (doc s) label = true ->
  exists ps s', getGroupObjects label s = Ok (ps, s') /\ logged s s'
    /\ forallb (fun p => live (doc s) (object p)) ps = true.
Proof.
  intro H. unfold getGroupObjects. rewrite getGroup_false.
  unfold groupOk in H. destruct (findGroup label (doc s)) as [g|].
  - unfold getObject. destruct (find (named g) (doc s)) as [grp|]; [|discriminate].
    simpl. destruct (nonFaces_ok _ _ H) as (objs & s' & -> & [W D] & Hc). simpl.
    rewrite D. destruct (mapExc_objectParameters _ _ Hc) as (ps & -> & E). simpl.
    exists ps, s'. repeat split; try assumption.
    apply forallb_forall. intros p Hp.
    rewrite forallb_forall in Hc. apply hasCenter_live, Hc.
    rewrite <- E. now apply in_map.
  - exists [], s. repeat split.
Qed.

Lemma formatOriginLine_ok objParams s :
  live (doc s) (object objParams) = true ->
  exists s', formatOriginLine objParams s = Ok s' /\ quietly s s'.
Proof.
  intro Hl. unfold formatOriginLine.
  destruct (getObject_live _ _ Hl) as (o & _ & ->). simpl.
  assert (two_steps : forall c,
    exists s',
      (s1 <- modify (object objParams) (setLineColor c) s ;;
       modify (object objParams) (setLineWidth (markerLineWidth (win s1))) s1) = Ok s'
      /\ quietly s s').
  { intro c.
    destruct (modify_view (setLineColor c) s (fun L o => kept_setLineColor L True c o) Hl)
      as (s1 & -> & Q1). simpl.
    assert (Hl1 : live (doc s1) (object objParams) = true)
      by now rewrite (live_quietly _ Q1).
    destruct (modify_view (setLineWidth (markerLineWidth (win s1))) s1
                (fun L o => kept_setLineWidth L True _ o) Hl1) as (s2 & -> & Q2).
    eauto using quietly_trans. }
  destruct (String.eqb (Label o) LINE_ORIGIN_X_NAME); [apply two_steps|].
  destruct (String.eqb (Label o) LINE_ORIGIN_Y_NAME); [apply two_steps|].
  destruct (String.eqb (Label o) LINE_ORIGIN_Z_NAME); [apply two_steps|].
  eauto using quietly_refl.
Qed.

Lemma formatOriginMark_ok s :
  groupOk (doc s) GROUP_LABEL_ORIGIN_LINES = true ->
  exists s', formatOriginMark s = Ok s' /\ quietly s s'.
Proof.
  intro H. unfold formatOriginMark.
  destruct (getGroupObjects_ok _ _ H) as (ps & s1 & -> & [W D] & Hl). simpl.
  destruct (@forEach_rel _ (fun p s => live (doc s) (object p) = true) quietly
              formatOriginLine ps quietly_refl quietly_trans) with (s := s1)
    as (s2 & -> & Q).
  - intros p s0 s0' Hp Q. now rewrite (live_quietly _ Q).
  - intros p s0 _ Hp. now apply formatOriginLine_ok.
  - intros p Hp. rewrite D. rewrite forallb_forall in Hl. now apply Hl.
  - exists s2. split; [reflexivity|].
    destruct Q as [W2 D2]. split; [congruence|]. intro L. rewrite <- D. apply D2.
Qed.

(* ================================================================== *)
(** ** The scan of the marker lines *)

Lemma clearHighlight_ok n s :
  live (doc s) n = true -> exists s', clearHighlight n s = Ok s' /\ quietly s s'.
Proof.
  intro Hl. unfold clearHighlight.
  destruct (getObject_live _ _ Hl) as (o & _ & ->). simpl.
  destruct (negb (isOriginLine (Label o))); [|eauto using quietly_refl].
  destruct (modify_view (setLineColor (markerLineColor (win s))) s
              (fun L o => kept_setLineColor L True _ o) Hl) as (s1 & -> & Q1).
  simpl.
  assert (Hl1 : live (doc s1) n = true) by now rewrite (live_quietly _ Q1).
  destruct (modify_view (setLineWidth (markerLineWidth (win s1))) s1
              (fun L o => kept_setLineWidth L True _ o) Hl1) as (s2 & -> & Q2).
  eauto using quietly_trans.
Qed.

Lemma snapLine_step newCenter centerLine s o :
  find (named (object centerLine)) (doc s) = Some o ->
  exists s1, clearHighlight (object centerLine) s = Ok s1 /\ quietly s s1
    /\ snapLine newCenter centerLine s =
       match snapStep (win s) newCenter (marker o) with
       | Some v => Ok (true, onWin (set_axis2 (vx v) (vy v) (vz v)) s1)
       | None => Ok (false, s1)
       end.
Proof.
  intro Ef.
  assert (Hl : live (doc s) (object centerLine) = true) by (unfold live; now rewrite Ef).
  destruct (clearHighlight_ok _ _ Hl) as (s1 & Ec & Q).
  exists s1. split; [assumption|]. split; [assumption|].
  unfold snapLine, getObject. rewrite Ef. simpl. rewrite Ec. simpl.
  destruct Q as [W _]. rewrite W.
  unfold snapStep, activeAxis, snapsTo, withinSnap, crossing. simpl.
  destruct (zero <? abs (axisXTranslation (win s)))%float.
  { destruct (startswith (Label o) LINE_CENTER_Y_LABEL_PREFIX
              || startswith (Label o) LINE_CENTER_Z_LABEL_PREFIX)%bool; simpl;
      [|reflexivity].
    destruct (abs (X1 o - vx newCenter) <=? snapDistance (win s))%float; reflexivity. }
  destruct (zero <? abs (axisYTranslation (win s)))%float.
  { destruct (startswith (Label o) LINE_CENTER_X_LABEL_PREFIX
              || startswith (Label o) LINE_CENTER_Z_LABEL_PREFIX)%bool; simpl;
      [|reflexivity].
    destruct (abs (Y1 o - vy newCenter) <=? snapDistance (win s))%float; reflexivity. }
  destruct (zero <? abs (axisZTranslation (win s)))%float; [|reflexivity].
  destruct (startswith (Label o) LINE_CENTER_X_LABEL_PREFIX
            || startswith (Label o) LINE_CENTER_Y_LABEL_PREFIX)%bool; simpl;
    [|reflexivity].
  destruct (abs (Z1 o - vz newCenter) <=? snapDistance (win s))%float; reflexivity.
Qed.

Lemma marker_kept L B o o' :
  kept L B o o' -> In (ObjName o) L -> marker o' = marker o.
Proof.
  intros (Hs & Hc & _) Hin. specialize (Hc Hin).
  unfold skel in Hs. unfold coords in Hc. unfold marker.
  injection Hs as Hn Hl _ _ _ _. injection Hc as H1 H2 H3. congruence.
Qed.

Lemma markers_kept B lines d d' :
  docKept (map object lines) B d d' -> markers d' lines = markers d lines.
Proof.
  intro H. unfold markers.
  assert (G : forall l, incl l lines ->
            flat_map (fun p => match find (named (object p)) d' with
                               | Some o => [marker o] | None => [] end) l
            = flat_map (fun p => match find (named (object p)) d with
                               | Some o => [marker o] | None => [] end) l).
  { induction l as [|p l IH]; intro Hi; simpl; [reflexivity|].
    rewrite IH by (intros q Hq; apply Hi; now right). f_equal.
    pose proof (docKept_find (object p) H) as F.
    destruct (find (named (object p)) d) as [o|] eqn:Ef;
      [destruct F as (o' & -> & K)|now rewrite F].
    rewrite (marker_kept _ _ _ _ K); [reflexivity|].
    rewrite (find_named_name _ _ _ Ef). apply in_map, Hi. now left. }
  apply G, incl_refl.
Qed.

Lemma markers_quietly lines s s' :
  quietly s s' -> markers (doc s') lines = markers (doc s) lines.
Proof. intros [_ D]. exact (markers_kept True lines _ _ (D _)). Qed.

Lemma find_same {A : Type} (f g : A -> bool) (l : list A) :
  (forall a, f a = g a) -> find f l = find g l.
Proof. intro H. induction l as [|a l IH]; simpl; [reflexivity|]. now rewrite H, IH. Qed.

Lemma markers_live d lines m :
  In m (markers d lines) -> live d (markerName m) = true.
Proof.
  unfold markers. rewrite in_flat_map. intros (p & _ & Hm).
  destruct (find (named (object p)) d) as [o|] eqn:Ef; [|contradiction].
  destruct Hm as [<-|[]]. simpl. unfold live.
  now rewrite (find_named_name _ _ _ Ef), Ef.
Qed.

Lemma scanLines_spec newCenter lines : forall s,
  forallb (fun p => live (doc s) (object p)) lines = true ->
  exists r s', scanLines newCenter lines s = Ok (r, s')
    /\ (forall L, docKept L True (doc s) (doc s'))
    /\ match find (snapsNow (win s) newCenter) (markers (doc s) lines) with
       | Some m =>
           r = Some (markerName m)
           /\ exists v, snapStep (win s) newCenter m = Some v
                        /\ win s' = set_axis2 (vx v) (vy v) (vz v) (win s)
       | None => r = None /\ win s' = win s
       end.
Proof.
  induction lines as [|cl rest IH]; intros s Hl; simpl.
  - exists None, s. split; [reflexivity|]. split; [intro; apply docKept_refl|].
    now split.
  - simpl in Hl. apply andb_true_iff in Hl. destruct Hl as [Hc Hr].
    destruct (getObject_live _ _ Hc) as (o & Ef & _).
    destruct (snapLine_step newCenter cl s o Ef) as (s1 & _ & Q & ->).
    rewrite Ef. simpl. unfold snapsNow at 1.
    destruct (snapStep (win s) newCenter (marker o)) as [v|] eqn:Es; simpl.
    + exists (Some (object cl)), (onWin (set_axis2 (vx v) (vy v) (vz v)) s1).
      split; [reflexivity|]. split; [apply Q|].
      split; [now rewrite (find_named_name _ _ _ Ef)|].
      exists v. split; [assumption|]. simpl. destruct Q as [-> _]. reflexivity.
    + destruct (IH s1) as (r & s' & -> & D & Hfind).
      { rewrite <- Hr. apply forallb_same. intro p. apply (live_quietly _ Q). }
      exists r, s'. split; [reflexivity|].
      split; [intro L; eapply docKept_trans; [apply Q|apply D]|].
      rewrite (markers_quietly rest _ _ Q) in Hfind.
      destruct Q as [W _]. rewrite W in Hfind. exact Hfind.
Qed.

Lemma labelOf_kept L B d d' n : docKept L B d d' -> labelOf d' n = labelOf d n.
Proof.
  intro H. pose proof (docKept_find n H) as F. unfold labelOf.
  destruct (find (named n) d); [destruct F as (o' & -> & K)|now rewrite F].
  apply kept_fields in K. now destruct K as (_ & -> & _).
Qed.

Lemma dragConst_set_axis a b c w : dragConst (set_axis a b c w) = dragConst w.
Proof. reflexivity. Qed.

Lemma dragConst_set_axis2 a b c w : dragConst (set_axis2 a b c w) = dragConst w.
Proof. reflexivity. Qed.

Lemma snapsNow_active w newCenter a :
  activeAxis (axisOf w) = Some a ->
  forall m, snapsNow w newCenter m = snapsTo a (snapDistance w) newCenter m.
Proof.
  intros Ha m. unfold snapsNow, snapStep. rewrite Ha.
  now destruct (snapsTo a (snapDistance w) newCenter m).
Qed.

Lemma snapsNow_idle w newCenter :
  activeAxis (axisOf w) = None -> forall m, snapsNow w newCenter m = false.
Proof. intros Ha m. unfold snapsNow, snapStep. now rewrite Ha. Qed.

Lemma find_never {A : Type} (f : A -> bool) (l : list A) :
  (forall a, f a = false) -> find f l = None.
Proof. intro H. induction l as [|a l IH]; simpl; [reflexivity|]. now rewrite H. Qed.

Lemma snapObjects_spec params : forall s,
  groupOk (doc s) GROUP_LABEL_ORIGIN_LINES = true ->
  forallb (fun p => live (doc s) (object p)) (centerLinesParams (win s)) = true ->
  forallb (fun p => live (doc s) (object p)) params = true ->
  exists s', snapObjects params s = Ok s'
    /\ (forall L, docKept L True (doc s) (doc s'))
    /\ dragConst (win s') = dragConst (win s)
    /\ (axisOf (win s'), statusBar (ui (win s'))) = snapOutcome (win s) (doc s) params.
Proof.
  induction params as [|p rest IH]; intros s Hg Hlines Hsel.
  - exists s. simpl. split; [reflexivity|]. split; [intro; apply docKept_refl|].
    split; [reflexivity|]. unfold snapOutcome. simpl.
    now destruct (activeAxis (axisOf (win s))).
  - simpl in Hsel. apply andb_true_iff in Hsel. destruct Hsel as [Hp Hrest].
    simpl. destruct (formatOriginMark_ok s Hg) as (s1 & -> & Q1). simpl.
    pose proof Q1 as [W1 D1]. rewrite W1.
    destruct (scanLines_spec
                (mkVector (vx (center p) + axisXTranslation (win s))%float
                          (vy (center p) + axisYTranslation (win s))%float
                          (vz (center p) + axisZTranslation (win s))%float)
                (centerLinesParams (win s)) s1) as (r & s2 & -> & D2 & Hfind).
    { rewrite <- Hlines. apply forallb_same. intro q. apply (live_quietly _ Q1). }
    simpl. rewrite (markers_quietly _ _ _ Q1), W1 in Hfind.
    assert (Q2 : forall L, docKept L True (doc s) (doc s2))
      by (intro L; eapply docKept_trans; [apply D1|apply D2]).
    unfold snapOutcome. simpl firstSnap.
    change (vadd (center p) (axisOf (win s)))
      with (mkVector (vx (center p) + axisXTranslation (win s))%float
                     (vy (center p) + axisYTranslation (win s))%float
                     (vz (center p) + axisZTranslation (win s))%float).
    set (nc := mkVector _ _ _) in *.
    destruct (activeAxis (axisOf (win s))) as [a|] eqn:Ha.
    + rewrite (find_same _ _ _ (snapsNow_active (win s) nc a Ha)) in Hfind.
      destruct (find (snapsTo a (snapDistance (win s)) nc)
                  (markers (doc s) (centerLinesParams (win s)))) as [m|] eqn:Efind.
      * destruct Hfind as (-> & v & Ev & W2).
        unfold snapStep in Ev. rewrite Ha in Ev.
        destruct (snapsTo a (snapDistance (win s)) nc m); [|discriminate].
        injection Ev as <-.
        assert (Hp2 : live (doc s2) (object p) = true)
          by now rewrite (live_kept _ (Q2 [])).
        assert (Hm2 : live (doc s2) (markerName m) = true).
        { rewrite (live_kept _ (Q2 [])). eapply markers_live.
          eapply find_some. exact Efind. }
        destruct (getObject_live _ _ Hp2) as (o & Eo & ->).
        destruct (getObject_live _ _ Hm2) as (l & El & ->). simpl.
        set (s3 := showMessage _ s2).
        destruct (modify_view (setLineColor (snapLineColor (win s2))) s3
                    (fun L o => kept_setLineColor L True _ o) Hm2) as (s4 & -> & Q4).
        simpl.
        assert (Hm4 : live (doc s4) (markerName m) = true)
          by now rewrite (live_quietly _ Q4).
        destruct (modify_view (setLineWidth (snapLineWidth (win s4))) s4
                    (fun L o => kept_setLineWidth L True _ o) Hm4) as (s5 & -> & Q5).
        simpl. eexists. split; [reflexivity|].
        destruct Q4 as [W4 D4], Q5 as [W5 D5].
        split.
        { intro L. simpl. eapply docKept_trans; [apply Q2|].
          eapply docKept_trans; [apply (D4 L)|apply D5]. }
        simpl. rewrite W5, W4. unfold s3. simpl. rewrite W2.
        split; [reflexivity|].
        unfold axisOf, axis2Of, snapDiff. simpl.
        assert (Lo : Label o = labelOf (doc s) (object p)).
        { rewrite <- (labelOf_kept _ _ _ _ (object p) (Q2 [])).
          unfold labelOf. now rewrite Eo. }
        assert (Ll : Label l = markerLabel m).
        { apply find_some in Efind. destruct Efind as [Hin _].
          unfold markers in Hin. rewrite in_flat_map in Hin.
          destruct Hin as (q & _ & Hq).
          destruct (find (named (object q)) (doc s)) as [oq|] eqn:Eq; [|contradiction].
          destruct Hq as [<-|[]]. simpl in *.
          pose proof (docKept_find (object q) (Q2 [])) as F. rewrite Eq in F.
          destruct F as (o' & Ef' & K).
          rewrite (find_named_name _ _ _ Eq) in El. rewrite Ef' in El.
          injection El as <-. apply kept_fields in K. now destruct K as (_ & -> & _). }
        rewrite Lo, Ll. now destruct a.
      * destruct Hfind as (-> & W2).
        destruct (IH s2) as (s' & -> & D & Wc & Out).
        { now rewrite (groupOk_kept _ (Q2 [])). }
        { rewrite W2. rewrite <- Hlines. apply forallb_same. intro q.
          apply (live_kept _ (Q2 [])). }
        { rewrite <- Hrest. apply forallb_same. intro q. apply (live_kept _ (Q2 [])). }
        exists s'. split; [reflexivity|].
        split; [intro L; eapply docKept_trans; [apply Q2|apply D]|].
        split; [now rewrite Wc, W2|].
        rewrite Out. unfold snapOutcome. rewrite W2, Ha.
        rewrite (markers_kept True _ _ _ (Q2 _)).
        destruct (firstSnap a (snapDistance (win s)) (axisOf (win s)) rest
                    (markers (doc s) (centerLinesParams (win s)))) as [[q m]|];
          [|reflexivity].
        now rewrite (labelOf_kept _ _ _ _ (object q) (Q2 [])).
    + rewrite (find_never _ _ (snapsNow_idle (win s) nc Ha)) in Hfind.
      destruct Hfind as (-> & W2).
      destruct (IH s2) as (s' & -> & D & Wc & Out).
      { now rewrite (groupOk_kept _ (Q2 [])). }
      { rewrite W2. rewrite <- Hlines. apply forallb_same. intro q.
        apply (live_kept _ (Q2 [])). }
      { rewrite <- Hrest. apply forallb_same. intro q. apply (live_kept _ (Q2 [])). }
      exists s'. split; [reflexivity|].
      split; [intro L; eapply docKept_trans; [apply Q2|apply D]|].
      split; [now rewrite Wc, W2|].
      rewrite Out. unfold snapOutcome. now rewrite W2, Ha.
Qed.

Lemma snapOutcome_checkSnapping w d params :
  snapOutcome (set_axis2 (axisXTranslation w) (axisYTranslation w)
                 (axisZTranslation w) w) d params
  = (snapResult (snapDistance w) (axisOf w) params (markers d (centerLinesParams w)),
     snd (snapOutcome w d params)).
Proof.
  unfold snapOutcome, snapResult, axisOf, axis2Of. destruct w; simpl.
  match goal with |- context [activeAxis ?t] => destruct (activeAxis t) as [a|] end;
    [|reflexivity].
  match goal with |- context [firstSnap ?a ?d ?t ?p ?m] =>
    destruct (firstSnap a d t p m) as [[q l]|] end; reflexivity.
Qed.

Lemma checkSnapping_spec s :
  snapReady s = true ->
  exists s', checkSnapping s = Ok s'
    /\ (forall L, docKept L True (doc s) (doc s'))
    /\ dragConst (win s') = dragConst (win s)
    /\ axisOf (win s') =
       snapResult (snapDistance (win s)) (axisOf (win s))
         (selectedObjsParams (win s)) (markers (doc s) (centerLinesParams (win s)))
    /\ statusBar (ui (win s')) =
       snd (snapOutcome (win s) (doc s) (selectedObjsParams (win s))).
Proof.
  unfold snapReady. rewrite !andb_true_iff. intros [[Hsel Hlines] Hg].
  unfold checkSnapping.
  set (s0 := onWin _ s).
  destruct (snapObjects_spec (selectedObjsParams (win s)) s0 Hg Hlines Hsel)
    as (s' & E & D & Wc & Out).
  exists s'. split; [exact E|]. split; [exact D|]. split; [exact Wc|].
  unfold s0 in Out. simpl in Out. rewrite snapOutcome_checkSnapping in Out.
  injection Out as Oa Os. now split.
Qed.

(* ================================================================== *)
(** ** Moving the center marks *)

Lemma moving_refl L s : moving L s s.
Proof. split; [reflexivity|apply docKept_refl]. Qed.

Lemma moving_trans L s1 s2 s3 : moving L s1 s2 -> moving L s2 s3 -> moving L s1 s3.
Proof. intros [W D] [W' D']. split; [congruence|eapply docKept_trans; eauto]. Qed.

Lemma notIn_spec L n : notIn L n = true -> ~ In n L.
Proof.
  unfold notIn. rewrite negb_true_iff. intros H Hin.
  assert (E : existsb (Nat.eqb n) L = true)
    by (apply existsb_exists; exists n; split; [assumption|apply Nat.eqb_refl]).
  congruence.
Qed.

Lemma setEnds_moving L line p q s :
  live (doc s) line = true -> notIn L line = true ->
  exists s', modify line (setEnds p q) s = Ok s' /\ moving L s s'.
Proof.
  intros Hl Hn. rewrite (modify_live _ _ _ Hl). eexists. split; [reflexivity|].
  split; [reflexivity|]. apply docKept_upd. intros o Ho.
  apply kept_setEnds. apply Nat.eqb_eq in Ho. rewrite Ho. now apply notIn_spec.
Qed.

Lemma drawCenterMark_move L i p1 row s :
  nth_error (centerLines (win s)) i = Some row ->
  rowOk (doc s) L row = true ->
  exists lines s', drawCenterMark i p1 (0, 0, 0)%Z EmptyString false s = Ok (lines, s')
                   /\ moving L s s'.
Proof.
  intros Hrow Hok. unfold rowOk in Hok.
  destruct row as [|a [|b [|c r]]]; try discriminate.
  rewrite !andb_true_iff in Hok.
  destruct Hok as [[[[[La Lb] Lc] Na] Nb] Nc].
  unfold drawCenterMark, drawLines, drawLine. rewrite Hrow. simpl.
  match goal with |- context [modify a (setEnds ?p ?q) s] =>
    destruct (setEnds_moving L a p q s La Na) as (s1 & -> & M1) end.
  simpl. destruct M1 as [W1 D1]. rewrite W1, Hrow. simpl.
  assert (Lb1 : live (doc s1) b = true) by now rewrite (live_kept _ D1).
  match goal with |- context [modify b (setEnds ?p ?q) s1] =>
    destruct (setEnds_moving L b p q s1 Lb1 Nb) as (s2 & -> & M2) end.
  simpl. destruct M2 as [W2 D2]. rewrite W2, W1, Hrow. simpl.
  assert (Lc2 : live (doc s2) c = true)
    by now rewrite (live_kept _ D2), (live_kept _ D1).
  match goal with |- context [modify c (setEnds ?p ?q) s2] =>
    destruct (setEnds_moving L c p q s2 Lc2 Nc) as (s3 & -> & M3) end.
  simpl. destruct M3 as [W3 D3].
  eexists _, _. split; [reflexivity|]. split; [congruence|].
  eapply docKept_trans; [exact D1|]. eapply docKept_trans; eassumption.
Qed.

Lemma skipn_cons_nth {A : Type} (l : list A) : forall i a l',
  skipn i l = a :: l' -> nth_error l i = Some a /\ skipn (S i) l = l'.
Proof.
  induction l as [|b l IH]; intros [|i] a l' H; simpl in *; try discriminate.
  - injection H as -> ->. now split.
  - now apply IH.
Qed.

Lemma getCenter_hasCenter d n :
  hasCenter d n = true ->
  exists o c, getObject d n = Ok o /\ getCenter o = Ok c.
Proof.
  unfold hasCenter, getObject, centerOk.
  destruct (find (named n) d) as [o|]; [|discriminate].
  destruct (getCenter o) as [c|] eqn:E; [|discriminate].
  intros _. exists o, c. now split.
Qed.

Lemma drawMarksFrom_move L params : forall i s,
  forallb (fun p => hasCenter (doc s) (object p)) params = true ->
  (List.length params <= List.length (skipn i (centerLines (win s))))%nat ->
  forallb (rowOk (doc s) L) (firstn (List.length params) (skipn i (centerLines (win s)))) = true ->
  exists s', drawMarksFrom i params 0 0 0 false s = Ok s' /\ moving L s s'.
Proof.
  induction params as [|p rest IH]; intros i s Hc Hlen Hrows; simpl.
  - eauto using moving_refl.
  - simpl in Hc. apply andb_true_iff in Hc. destruct Hc as [Hp Hrest].
    destruct (skipn i (centerLines (win s))) as [|row rows] eqn:Es;
      [simpl in Hlen; lia|].
    apply skipn_cons_nth in Es. destruct Es as [Hnth Hskip].
    simpl in Hrows. apply andb_true_iff in Hrows. destruct Hrows as [Hrow Hrows].
    destruct (getCenter_hasCenter _ _ Hp) as (o & c & -> & Ec). simpl.
    rewrite Ec. simpl.
    destruct (drawCenterMark_move L i c row s Hnth Hrow) as (lines & s1 & -> & M1).
    simpl. destruct (IH (S i) s1) as (s2 & -> & M2).
    + rewrite <- Hrest. apply forallb_same. intro q.
      destruct M1 as [_ D]. apply (hasCenter_kept _ D).
    + destruct M1 as [-> _]. rewrite Hskip. simpl in Hlen. lia.
    + destruct M1 as [-> D]. rewrite Hskip. rewrite <- Hrows.
      apply forallb_same. intro r. apply (rowOk_kept _ _ D).
    + eauto using moving_trans.
Qed.

Lemma drawCenterMarks_move s :
  marksReady s = true ->
  exists s', drawCenterMarks 0 0 0 false s = Ok s'
             /\ moving (map object (centerLinesParams (win s))) s s'.
Proof.
  unfold marksReady. rewrite !andb_true_iff. intros [[Hc Hlen] Hrows].
  apply Nat.leb_le in Hlen. now apply drawMarksFrom_move.
Qed.

(* ================================================================== *)
(** ** Translation of the selection during a drag *)

Lemma during_refl L B s : during L B s s.
Proof. split; [reflexivity|apply docKept_refl]. Qed.

Lemma during_trans L B s1 s2 s3 :
  during L B s1 s2 -> during L B s2 s3 -> during L B s1 s3.
Proof. intros [W D] [W' D']. split; [congruence|eapply docKept_trans; eauto]. Qed.

Lemma baseOf_kept L d d' n : docKept L True d d' -> baseOf d' n = baseOf d n.
Proof.
  intro H. pose proof (docKept_find n H) as F. unfold baseOf.
  destruct (find (named n) d); [destruct F as (o' & -> & K)|now rewrite F].
  destruct K as (_ & _ & Hb). simpl. now rewrite (Hb I).
Qed.

Lemma vec_eqb_eq v w : vec_eqb v w = true -> v = w.
Proof.
  unfold vec_eqb. rewrite !andb_true_iff. intros [[Hx Hy] Hz].
  apply FloatAxioms.Leibniz.eqb_spec in Hx, Hy, Hz.
  destruct v, w; simpl in *. congruence.
Qed.

Lemma dragReady_parts s :
  dragReady s = true ->
  transformActive (win s) = true
  /\ forallb (fun p => live (doc s) (object p)) (selectedObjsParams (win s)) = true
  /\ (forall p q, In p (selectedObjsParams (win s)) ->
                  In q (selectedObjsParams (win s)) ->
                  object p = object q -> base p = base q)
  /\ (chkCenterMarks (ui (win s)) = true -> marksReady s = true)
  /\ (chkSnap (ui (win s)) = true -> snapReady s = true).
Proof.
  unfold dragReady. rewrite !andb_true_iff. intros [[[[Ha Hl] Hc] Hm] Hs].
  split; [assumption|]. split; [assumption|]. split; [|split].
  - intros p q Hp Hq E. rewrite forallb_forall in Hc. specialize (Hc p Hp).
    rewrite forallb_forall in Hc. specialize (Hc q Hq).
    unfold sameCapture in Hc. rewrite E, Nat.eqb_refl in Hc. simpl in Hc.
    now apply vec_eqb_eq.
  - intro E. rewrite E in Hm. exact Hm.
  - intro E. rewrite E in Hs. unfold snapReady. rewrite Hl. simpl.
    rewrite andb_true_iff in Hs. destruct Hs as [H1 H2]. rewrite H2, andb_true_r.
    rewrite <- H1. clear. induction (centerLinesParams (win s)) as [|p l IH];
      simpl; [reflexivity|]. now rewrite IH.
Qed.

Lemma offsetFor_during B x y z s s' :
  during (map object (centerLinesParams (win s))) B s s' ->
  offsetFor x y z s' = offsetFor x y z s.
Proof.
  intros [W D]. pose proof (dragConst_fields _ _ W) as
    (_ & Hd & Hsd & _ & _ & _ & _ & _ & Hsel & Hcl & _ & Hsn & _).
  unfold offsetFor, requested. rewrite Hsn, Hd, Hsd, Hsel, Hcl.
  now rewrite (markers_kept B _ _ _ D).
Qed.

Lemma translateObject_spec x y z p s :
  dragReady s = true ->
  In p (selectedObjsParams (win s)) ->
  exists s', translateObject x y z p s = Ok s'
    /\ during (map object (centerLinesParams (win s))) False s s'
    /\ baseOf (doc s') (object p) = Some (vadd (base p) (offsetFor x y z s))
    /\ (forall n, n <> object p -> baseOf (doc s') n = baseOf (doc s) n)
    /\ axisOf (win s') = offsetFor x y z s.
Proof.
  intros Hr Hp. set (L := map object (centerLinesParams (win s))).
  destruct (dragReady_parts s Hr) as (_ & Hl & _ & Hm & Hs).
  unfold translateObject.
  set (s1 := onWin _ s).
  assert (S2 : exists s2,
    (if chkSnap (ui (win s1)) then checkSnapping s1 else Ok s1) = Ok s2
    /\ (forall L, docKept L True (doc s) (doc s2))
    /\ dragConst (win s2) = dragConst (win s)
    /\ axisOf (win s2) = offsetFor x y z s).
  { unfold offsetFor. change (chkSnap (ui (win s1))) with (chkSnap (ui (win s))).
    destruct (chkSnap (ui (win s))) eqn:Esn.
    - destruct (checkSnapping_spec s1 (Hs eq_refl)) as (s2 & -> & D & W & A & _).
      exists s2. repeat split; assumption.
    - exists s1. split; [reflexivity|]. split; [intro; apply docKept_refl|].
      split; reflexivity. }
  destruct S2 as (s2 & -> & D2 & W2 & A2). cbn [bind].
  assert (Lp : live (doc s2) (object p) = true).
  { rewrite (live_kept _ (D2 [])). rewrite forallb_forall in Hl. now apply Hl. }
  rewrite (modify_live _ _ _ Lp). cbn [bind].
  set (newBase := mkVector _ _ _).
  set (s3 := onDoc _ s2).
  assert (R3 : during L False s s3).
  { split; [symmetry; exact W2|]. simpl.
    eapply docKept_trans; [apply (docKept_weaken L True False); [tauto|apply D2]|].
    apply docKept_upd. intros o _. apply kept_setPlacementBase. }
  assert (R3' : dragReady s3 = true) by now rewrite (dragReady_during False s s3 R3).
  assert (S4 : exists s4,
    (if chkCenterMarks (ui (win s3)) then drawCenterMarks 0 0 0 false s3 else Ok s3) = Ok s4
    /\ moving L s3 s4).
  { destruct (chkCenterMarks (ui (win s3))) eqn:Ecm; [|eauto using moving_refl].
    destruct (dragReady_parts s3 R3') as (_ & _ & _ & Hm3 & _).
    destruct (drawCenterMarks_move s3 (Hm3 Ecm)) as (s4 & -> & M).
    exists s4. split; [reflexivity|].
    replace L with (map object (centerLinesParams (win s3))); [exact M|].
    destruct R3 as [W _]. apply dragConst_fields in W.
    unfold L. now destruct W as (_ & _ & _ & _ & _ & _ & _ & _ & _ & -> & _). }
  destruct S4 as (s4 & -> & [W4 D4]). cbn [bind].
  eexists. split; [reflexivity|].
  assert (B3 : forall n, baseOf (doc (updateTranslationLabels s4)) n = baseOf (doc s3) n)
    by (intro n; exact (baseOf_kept L _ _ n D4)).
  split; [|split; [|split]].
  - eapply during_trans; [exact R3|]. split; [simpl; now rewrite W4|].
    simpl. apply (docKept_weaken L True False); [tauto|exact D4].
  - rewrite B3. unfold s3, baseOf. simpl.
    destruct (getObject_live _ _ Lp) as (o & Eo & _).
    rewrite (find_upd_same (object p) (setPlacementBase newBase) (doc s2) o
               (fun _ => eq_refl) Eo). simpl.
    rewrite <- A2. reflexivity.
  - intros n Hn. rewrite B3. unfold s3, baseOf. simpl.
    rewrite (find_upd_other (object p) n (setPlacementBase newBase) (doc s2)
               (fun _ => eq_refl)) by congruence.
    exact (baseOf_kept [] _ _ n (D2 [])).
  - simpl. rewrite W4. unfold s3. simpl. exact A2.
Qed.

Lemma translateObjects_spec x y z l : forall s,
  dragReady s = true ->
  incl l (selectedObjsParams (win s)) ->
  exists s', forEach l (translateObject x y z) s = Ok s'
    /\ during (map object (centerLinesParams (win s))) False s s'
    /\ (forall p, In p l ->
          baseOf (doc s') (object p) = Some (vadd (base p) (offsetFor x y z s)))
    /\ (forall n, (forall p, In p l -> object p <> n) ->
          baseOf (doc s') n = baseOf (doc s) n)
    /\ axisOf (win s') = match l with
                         | [] => axisOf (win s)
                         | _ :: _ => offsetFor x y z s
                         end.
Proof.
  induction l as [|p l IH]; intros s Hr Hi; simpl.
  - exists s. split; [reflexivity|]. split; [apply during_refl|].
    split; [intros p []|]. split; reflexivity.
  - destruct (translateObject_spec x y z p s Hr (Hi p (or_introl eq_refl)))
      as (s1 & -> & R1 & B1 & F1 & A1). cbn [bind].
    pose proof R1 as [W1 _]. apply dragConst_fields in W1.
    destruct W1 as (_ & _ & _ & _ & _ & _ & _ & _ & Hsel & Hcl & _).
    destruct (IH s1) as (s' & -> & R & B & F & A).
    { now rewrite (dragReady_during False s s1 R1). }
    { rewrite Hsel. intros q Hq. apply Hi. now right. }
    rewrite Hcl in R. rewrite (offsetFor_during False x y z s s1 R1) in B, A.
    exists s'. split; [reflexivity|]. split; [eapply during_trans; eassumption|].
    destruct (dragReady_parts s Hr) as (_ & _ & Hc & _).
    split; [|split].
    + intros q [<-|Hq]; [|now apply B].
      destruct (existsb (fun r => Nat.eqb (object r) (object p)) l) eqn:Ex.
      * apply existsb_exists in Ex. destruct Ex as (r & Hr' & E).
        apply Nat.eqb_eq in E. rewrite <- E, (B r Hr').
        rewrite (Hc r p); auto.
        -- apply Hi. now right.
        -- apply Hi. now left.
      * rewrite F; [exact B1|]. intros r Hr' E.
        assert (X : existsb (fun r => Nat.eqb (object r) (object p)) l = true)
          by (apply existsb_exists; exists r; split; [assumption|now apply Nat.eqb_eq]).
        congruence.
    + intros n Hn. rewrite F by (intros q Hq; apply Hn; now right).
      apply F1. intro E. apply (Hn p); [now left|congruence].
    + rewrite A. destruct l; [exact A1|reflexivity].
Qed.

(** [translateSelection] during a drag: every selected object is placed at
    its captured base plus the translation of the call, and the placement of
    no other object changes. *)
Lemma translateSelection_drag fuel x y z s :
  dragReady s = true ->
  exists s', translateSelection (S fuel) x y z s = Ok s'
    /\ during (map object (centerLinesParams (win s))) False s s'
    /\ (forall p, In p (selectedObjsParams (win s)) ->
          baseOf (doc s') (object p) = Some (vadd (base p) (offsetFor x y z s)))
    /\ (forall n, (forall p, In p (selectedObjsParams (win s)) -> object p <> n) ->
          baseOf (doc s') n = baseOf (doc s) n).
Proof.
  intro Hr. cbn [translateSelection].
  change (selectedObjsParams (win (clearMessage s))) with (selectedObjsParams (win s)).
  change (transformActive (win (clearMessage s))) with (transformActive (win s)).
  destruct (dragReady_parts s Hr) as (Ha & _). rewrite Ha.
  destruct (selectedObjsParams (win s)) as [|p0 l0] eqn:Esel.
  - simpl. eexists. split; [reflexivity|].
    split; [split; [reflexivity|apply docKept_refl]|].
    split; [intros p []|reflexivity].
  - cbn [List.length Nat.eqb negb]. rewrite <- Esel.
    destruct (translateObjects_spec x y z (selectedObjsParams (win s)) (clearMessage s))
      as (s' & E & R & B & F & _).
    + exact Hr.
    + apply incl_refl.
    + exists s'. split; [exact E|]. split; [|split].
      * eapply during_trans; [|exact R]. split; [reflexivity|apply docKept_refl].
      * exact B.
      * exact F.
Qed.

Lemma deliver_drag fuel e s :
  dragReady s = true ->
  exists s', deliver (S fuel) e s = Ok s'
    /\ during (map object (centerLinesParams (win s))) False s s'
    /\ (forall p, In p (selectedObjsParams (win s)) ->
          baseOf (doc s') (object p) = Some (vadd (base p) (eventOffset e s))).
Proof.
  intro Hr. destruct e as [[| |] v]; unfold deliver, sldTranslateXChanged,
    sldTranslateYChanged, sldTranslateZChanged;
  match goal with |- context [translateSelection _ ?x ?y ?z ?t] =>
    destruct (translateSelection_drag fuel x y z t Hr) as (s' & E & R & B & _)
  end; exists s'; (split; [exact E|]); (split; [exact R|exact B]).
Qed.

Lemma deliverAll_drag fuel es : forall s,
  dragReady s = true ->
  exists s', forEach es (deliver (S fuel)) s = Ok s'
    /\ during (map object (centerLinesParams (win s))) False s s'.
Proof.
  induction es as [|e es IH]; intros s Hr; simpl.
  - eauto using during_refl.
  - destruct (deliver_drag fuel e s Hr) as (s1 & -> & R1 & _). cbn [bind].
    destruct (IH s1) as (s' & -> & R).
    { now rewrite (dragReady_during False s s1 R1). }
    exists s'. split; [reflexivity|]. eapply during_trans; [exact R1|].
    destruct R1 as [W _]. apply dragConst_fields in W.
    destruct W as (_ & _ & _ & _ & _ & _ & _ & _ & _ & Hcl & _).
    now rewrite <- Hcl.
Qed.

Lemma eventOffset_during B e s s' :
  during (map object (centerLinesParams (win s))) B s s' ->
  eventOffset e s' = eventOffset e s.
Proof. intro R. destruct e as [[| |] v]; simpl; now apply offsetFor_during with B. Qed.

(* ================================================================== *)
(** ** Floats *)

Lemma finite_shape d :
  is_finite d = true ->
  exists s, Prim2SF d = S754_zero s \/ exists m e, Prim2SF d = S754_finite s m e.
Proof.
  unfold is_finite, is_nan, is_infinity.
  rewrite negb_true_iff, orb_false_iff, negb_false_iff.
  rewrite !FloatAxioms.eqb_spec, FloatAxioms.abs_spec.
  replace (Prim2SF infinity) with (S754_infinity false) by reflexivity.
  destruct (Prim2SF d) as [s|s| |s m e]; simpl.
  - intros _. exists s. now left.
  - intros [_ H]. discriminate.
  - intros [H _]. discriminate.
  - intros _. exists s. right. eauto.
Qed.

(** Adding [0 * d] to a float leaves the same number, for a finite [d]. *)
Lemma add_zero_product b d :
  is_finite d = true -> same_number (b + int_mul_float 0 d)%float b.
Proof.
  intro Hd. unfold same_number, py_eq, int_mul_float. simpl float_of_int.
  destruct (finite_shape d Hd) as (s & Hs).
  assert (Hz : exists s', Prim2SF (zero * d) = S754_zero s').
  { rewrite FloatAxioms.mul_spec.
    replace (Prim2SF zero) with (S754_zero false) by reflexivity.
    destruct Hs as [-> | (m & e & ->)]; simpl; eauto. }
  destruct Hz as (s' & Hz).
  destruct (Prim2SF b) as [sb|sb| |sb mb eb] eqn:Eb.
  - right. rewrite FloatAxioms.eqb_spec, FloatAxioms.add_spec, Hz, Eb.
    destruct sb, s'; reflexivity.
  - left. apply FloatAxioms.Prim2SF_inj.
    rewrite FloatAxioms.add_spec, Hz, Eb. reflexivity.
  - left. apply FloatAxioms.Prim2SF_inj.
    rewrite FloatAxioms.add_spec, Hz, Eb. reflexivity.
  - left. apply FloatAxioms.Prim2SF_inj.
    rewrite FloatAxioms.add_spec, Hz, Eb. reflexivity.
Qed.

(* ================================================================== *)
(** ** Translation is vector addition *)

Lemma offsetFor_no_snap x y z s :
  chkSnap (ui (win s)) = false -> offsetFor x y z s = requested (win s) x y z.
Proof. intro H. unfold offsetFor. now rewrite H. Qed.

(** C1. During an active drag with snapping disabled, [translateSelection]
    leaves every selected object at the base captured at drag start plus
    [(x * deltaTranslation, y * deltaTranslation, z * deltaTranslation)];
    the handler of each translation slider passes the value of its slider
    for its own axis and 0 for the two others. *)
Theorem translation_is_vector_addition (fuel : nat) (s : State) :
  dragReady s = true ->
  chkSnap (ui (win s)) = false ->
  (forall x y z,
     placesSelection s (translateSelection (S fuel) x y z s)
       (mkVector (int_mul_float x (deltaTranslation (win s)))
                 (int_mul_float y (deltaTranslation (win s)))
                 (int_mul_float z (deltaTranslation (win s)))))
  /\ sldTranslateXChanged (S fuel) s
     = translateSelection (S fuel) (sldTranslateX (ui (win s))) 0 0 s
  /\ sldTranslateYChanged (S fuel) s
     = translateSelection (S fuel) 0 (sldTranslateY (ui (win s))) 0 s
  /\ sldTranslateZChanged (S fuel) s
     = translateSelection (S fuel) 0 0 (sldTranslateZ (ui (win s))) s.
Proof.
  intros Hr Hs. split; [|repeat split].
  intros x y z.
  destruct (translateSelection_drag fuel x y z s Hr) as (s' & E & _ & B & _).
  exists s'. split; [exact E|]. intros p Hp.
  rewrite (B p Hp), (offsetFor_no_snap x y z s Hs). reflexivity.
Qed.

Lemma translation_is_vector_addition_witness :
  dragReady (exPressed false (-1)) = true
  /\ chkSnap (ui (win (exPressed false (-1)))) = false
  /\ placesSelection (exPressed false (-1))
       (translateSelection 1 3 0 0 (exPressed false (-1)))
       (mkVector (int_mul_float 3 (deltaTranslation (win (exPressed false (-1)))))
                 (int_mul_float 0 (deltaTranslation (win (exPressed false (-1)))))
                 (int_mul_float 0 (deltaTranslation (win (exPressed false (-1)))))).
Proof.
  split; [vm_compute; reflexivity|]. split; [reflexivity|].
  refine (proj1 (translation_is_vector_addition 0 (exPressed false (-1)) _ _) 3%Z 0%Z 0%Z);
    vm_compute; reflexivity.
Defined.

(** C7. With snapping disabled, a change of one translation slider during a
    drag leaves, for every selected object, the coordinates of the placement
    base on the two other axes equal to those of the base captured at drag
    start (the step [deltaTranslation] being a finite number, as every power
    of ten the step slider can give). *)
Theorem offsets_are_axis_aligned (fuel : nat) (s : State) :
  dragReady s = true ->
  chkSnap (ui (win s)) = false ->
  is_finite (deltaTranslation (win s)) = true ->
  keepsCoordinates s (sldTranslateXChanged (S fuel) s) AxisX
  /\ keepsCoordinates s (sldTranslateYChanged (S fuel) s) AxisY
  /\ keepsCoordinates s (sldTranslateZChanged (S fuel) s) AxisZ.
Proof.
  intros Hr Hs Hd.
  assert (G : forall x y z a,
    (forall a', a' <> a -> component a' (mkVector (float_of_int x) (float_of_int y)
                                          (float_of_int z)) = zero) ->
    keepsCoordinates s (translateSelection (S fuel) x y z s) a).
  { intros x y z a Hz.
    destruct (translateSelection_drag fuel x y z s Hr) as (s' & E & _ & B & _).
    exists s'. split; [exact E|]. intros p Hp. eexists. split; [exact (B p Hp)|].
    intros a' Ha. rewrite (offsetFor_no_snap x y z s Hs). specialize (Hz a' Ha).
    pose proof (add_zero_product (component a' (base p)) _ Hd) as Z.
    unfold int_mul_float in Z. simpl float_of_int in Z.
    destruct a'; simpl in Hz |- *; unfold int_mul_float; rewrite Hz; exact Z. }
  split; [|split]; apply G; intros [| |] Ha; try reflexivity; congruence.
Qed.

Lemma offsets_are_axis_aligned_witness :
  dragReady (exPressed false (-1)) = true
  /\ chkSnap (ui (win (exPressed false (-1)))) = false
  /\ is_finite (deltaTranslation (win (exPressed false (-1)))) = true
  /\ keepsCoordinates (exPressed false (-1))
       (sldTranslateXChanged 1 (exPressed false (-1))) AxisX.
Proof.
  split; [vm_compute; reflexivity|]. split; [reflexivity|].
  split; [vm_compute; reflexivity|].
  refine (proj1 (offsets_are_axis_aligned 0 (exPressed false (-1)) _ _ _));
    vm_compute; reflexivity.
Defined.

(** Every step the step slider can give is a finite number. *)
Lemma pow10_finite v : (-9 <= v <= 9)%Z -> is_finite (pow10 v) = true.
Proof.
  intro H.
  assert (C : In v [-9; -8; -7; -6; -5; -4; -3; -2; -1; 0; 1; 2; 3; 4; 5; 6; 7; 8; 9]%Z)
    by (simpl; lia).
  simpl in C. repeat (destruct C as [<-|C]; [vm_compute; reflexivity|]).
  contradiction.
Qed.

(* ================================================================== *)
(** ** Placements within one drag *)

Lemma forEach_app {A : Type} (body : A -> State -> Exc State) (l1 l2 : list A) :
  forall s, forEach (l1 ++ l2) body s = (s' <- forEach l1 body s ;; forEach l2 body s').
Proof.
  induction l1 as [|a l1 IH]; intro s; simpl; [reflexivity|].
  destruct (body a s) as [s1|e]; simpl; [apply IH|reflexivity].
Qed.

(** In a state of a drag, after any sequence of [valueChanged] events of the
    translation sliders, every selected object is at its captured base plus
    the translation of the last event alone. *)
Lemma placement_during_drag (fuel : nat) (s : State)
  (es : list Event) (e : Event) :
  dragReady s = true ->
  placesSelection s (forEach (es ++ [e]) (deliver (S fuel)) s) (eventOffset e s)
  /\ placesSelection s (deliver (S fuel) e s) (eventOffset e s)
  /\ placesSelection s (forEach [e; e] (deliver (S fuel)) s) (eventOffset e s).
Proof.
  intro Hr.
  assert (G : forall es',
    placesSelection s (forEach (es' ++ [e]) (deliver (S fuel)) s) (eventOffset e s)).
  { intro es'. rewrite forEach_app.
    destruct (deliverAll_drag fuel es' s Hr) as (s1 & -> & R1). cbn [bind forEach].
    assert (Hr1 : dragReady s1 = true) by now rewrite (dragReady_during False s s1 R1).
    destruct (deliver_drag fuel e s1 Hr1) as (s2 & -> & _ & B).
    exists s2. split; [reflexivity|]. intros p Hp.
    rewrite <- (eventOffset_during False e s s1 R1). apply B.
    destruct R1 as [W _]. apply dragConst_fields in W.
    now destruct W as (_ & _ & _ & _ & _ & _ & _ & _ & -> & _). }
  split; [apply G|]. split; [|apply (G [e])].
  destruct (deliver_drag fuel e s Hr) as (s2 & E & _ & B).
  exists s2. now split.
Qed.

(* ================================================================== *)
(** ** The snap decision *)

(** C2. [checkSnapping] decides by the threshold predicate
    [abs(candidate - target) <= snapDistance], on the active axis, between
    the fixed coordinate of a marker line that crosses that axis and the
    translated center of a selected object; the scan stops at the first
    match, and the adjustment of that match is the one applied. *)
Theorem snapping_is_first_match (s : State) :
  snapReady s = true ->
  (forall a dist target m,
     snapsTo a dist target m =
     crossing a (markerLabel m)
     && (abs (component a (markerStart m) - component a target) <=? dist)%float)
  /\ exists s', checkSnapping s = Ok s'
       /\ axisOf (win s') =
          match activeAxis (axisOf (win s)) with
          | Some a =>
              match firstSnap a (snapDistance (win s)) (axisOf (win s))
                      (selectedObjsParams (win s))
                      (markers (doc s) (centerLinesParams (win s))) with
              | Some (p, m) => nudge a (snapDiff a (axisOf (win s)) p m) (axisOf (win s))
              | None => axisOf (win s)
              end
          | None => axisOf (win s)
          end.
Proof.
  intro Hr. split; [reflexivity|].
  destruct (checkSnapping_spec s Hr) as (s' & E & _ & _ & A & _).
  exists s'. split; [exact E|exact A].
Qed.

Lemma snapping_is_first_match_witness :
  snapReady (exSnapping 5) = true
  /\ exists s', checkSnapping (exSnapping 5) = Ok s'
       /\ axisOf (win s') =
          match activeAxis (axisOf (win (exSnapping 5))) with
          | Some a =>
              match firstSnap a (snapDistance (win (exSnapping 5)))
                      (axisOf (win (exSnapping 5)))
                      (selectedObjsParams (win (exSnapping 5)))
                      (markers (doc (exSnapping 5))
                         (centerLinesParams (win (exSnapping 5)))) with
              | Some (p, m) =>
                  nudge a (snapDiff a (axisOf (win (exSnapping 5))) p m)
                    (axisOf (win (exSnapping 5)))
              | None => axisOf (win (exSnapping 5))
              end
          | None => axisOf (win (exSnapping 5))
          end.
Proof.
  split; [vm_compute; reflexivity|].
  refine (proj2 (snapping_is_first_match (exSnapping 5) _)).
  vm_compute; reflexivity.
Defined.

Lemma find_first {A : Type} (f : A -> bool) (pre : list A) (m : A) (post : list A) :
  (forall m', In m' pre -> f m' = false) -> f m = true ->
  find f (pre ++ m :: post) = Some m.
Proof.
  intros Hpre Hm. induction pre as [|a pre IH]; simpl.
  - now rewrite Hm.
  - rewrite (Hpre a) by now left. apply IH. intros m' H. apply Hpre. now right.
Qed.

Lemma find_none_in {A : Type} (f : A -> bool) (l : list A) :
  (forall a, In a l -> f a = false) -> find f l = None.
Proof.
  induction l as [|a l IH]; intro H; simpl; [reflexivity|].
  rewrite (H a) by now left. apply IH. intros b Hb. apply H. now right.
Qed.

Lemma firstSnap_first a dist t before p after ms pre m post :
  (forall q m', In q before -> In m' ms -> snapsTo a dist (vadd (center q) t) m' = false) ->
  ms = pre ++ m :: post ->
  (forall m', In m' pre -> snapsTo a dist (vadd (center p) t) m' = false) ->
  snapsTo a dist (vadd (center p) t) m = true ->
  firstSnap a dist t (before ++ p :: after) ms = Some (p, m).
Proof.
  intros Hb E Hpre Hm. induction before as [|q before IH]; simpl.
  - rewrite E. now rewrite (find_first _ pre m post Hpre Hm).
  - rewrite find_none_in.
    + apply IH. intros q' m' Hq. apply Hb. now right.
    + intros m' Hin. apply Hb; [now left|exact Hin].
Qed.

(** The box of the pressed example, whose center is at x = 6, is moved by
    -3 with a snap distance of 10: it snaps to the center line of the
    cylinder at x = 11, the first in the list, at a distance of 8, although
    the origin line at x = 0, later in the list, is at a distance of 3. *)
Lemma snap_nearest_counterexample : ~ snapsToNearest (exSnapping (-3)).
Proof.
  intro H.
  assert (C : exists s', checkSnapping (exSnapping (-3)) = Ok s'
                         /\ axisOf (win s') = mkVector 5 0 0).
  { destruct (checkSnapping (exSnapping (-3))) as [s'|e] eqn:E.
    - exists s'. split; [reflexivity|].
      apply (f_equal (fun r => match r with Ok t => axisOf (win t) | Raise _ => mkVector 0 0 0 end)) in E.
      vm_compute in E. symmetry. exact E.
    - vm_compute in E. discriminate. }
  destruct C as (s' & E & A).
  specialize (H s' AxisX
                (mkParams 0 (mkVector 1 2 3) (mkVector 6 7 8) false)
                (mkMarker 3 "line_center_cy_Cyl" (mkVector 11 (-499) 1)) E).
  assert (X1 : activeAxis (axisOf (win (exSnapping (-3)))) = Some AxisX)
    by (vm_compute; reflexivity).
  specialize (H X1). clear X1.
  match type of H with ?P -> _ =>
    assert (X2 : P) by (vm_compute; tauto); specialize (H X2); clear X2 end.
  match type of H with ?P -> _ =>
    assert (X3 : P) by (vm_compute; tauto); specialize (H X3); clear X3 end.
  match type of H with ?P -> _ =>
    assert (X4 : P) by (vm_compute; reflexivity); specialize (H X4); clear X4 end.
  match type of H with ?P -> _ =>
    assert (X5 : P) by (rewrite A; vm_compute; reflexivity);
    specialize (H X5); clear X5 end.
  specialize (H (mkMarker 7 "line_center_cy_origin" (mkVector 0 (-500) 0))).
  match type of H with ?P -> _ =>
    assert (X6 : P) by (vm_compute; tauto); specialize (H X6); clear X6 end.
  match type of H with ?P -> _ =>
    assert (X7 : P) by (vm_compute; reflexivity); specialize (H X7); clear X7 end.
  vm_compute in H. discriminate.
Qed.

(** C3, amended. The scan is linear and takes the first candidate, not the
    nearest: when the marker lines are [pre ++ m :: post], [m] is within
    the threshold of the translated center of the selected object [p], no
    line of [pre] is, and no line is within the threshold for a selected
    object before [p], the snap applied is the one to [m], whatever the
    lines of [post] are. *)
Theorem snap_takes_first_candidate (s : State) (a : Axis)
  (before after : list ObjectParameters) (p : ObjectParameters)
  (pre post : list MarkerLine) (m : MarkerLine) :
  snapReady s = true ->
  activeAxis (axisOf (win s)) = Some a ->
  selectedObjsParams (win s) = before ++ p :: after ->
  markers (doc s) (centerLinesParams (win s)) = pre ++ m :: post ->
  (forall q m', In q before -> In m' (pre ++ m :: post) ->
     snapsTo a (snapDistance (win s)) (vadd (center q) (axisOf (win s))) m' = false) ->
  (forall m', In m' pre ->
     snapsTo a (snapDistance (win s)) (vadd (center p) (axisOf (win s))) m' = false) ->
  snapsTo a (snapDistance (win s)) (vadd (center p) (axisOf (win s))) m = true ->
  exists s', checkSnapping s = Ok s'
    /\ axisOf (win s') = nudge a (snapDiff a (axisOf (win s)) p m) (axisOf (win s)).
Proof.
  intros Hr Ha Hsel Hms Hb Hpre Hm.
  destruct (checkSnapping_spec s Hr) as (s' & E & _ & _ & A & _).
  exists s'. split; [exact E|]. rewrite A. unfold snapResult. rewrite Ha, Hsel, Hms.
  now rewrite (firstSnap_first a _ _ before p after _ pre m post Hb eq_refl Hpre Hm).
Qed.

Lemma snap_takes_first_candidate_witness :
  exists s', checkSnapping (exSnapping (-3)) = Ok s'
    /\ axisOf (win s') =
       nudge AxisX
         (snapDiff AxisX (axisOf (win (exSnapping (-3))))
            (mkParams 0 (mkVector 1 2 3) (mkVector 6 7 8) false)
            (mkMarker 3 "line_center_cy_Cyl" (mkVector 11 (-499) 1)))
         (axisOf (win (exSnapping (-3)))).
Proof.
  refine (snap_takes_first_candidate (exSnapping (-3)) AxisX []
            [mkParams 0 (mkVector 1 2 3) (mkVector 6 7 8) false]
            (mkParams 0 (mkVector 1 2 3) (mkVector 6 7 8) false)
            [mkMarker 2 "line_center_cx_Cyl" (mkVector (-489) 1 1)]
            [mkMarker 4 "line_center_cz_Cyl" (mkVector 11 1 (-499));
             mkMarker 6 "line_center_cx_origin" (mkVector (-500) 0 0);
             mkMarker 7 "line_center_cy_origin" (mkVector 0 (-500) 0);
             mkMarker 8 "line_center_cz_origin" (mkVector 0 0 (-500))]
            (mkMarker 3 "line_center_cy_Cyl" (mkVector 11 (-499) 1))
            _ _ _ _ _ _ _).
  - vm_compute; reflexivity.
  - vm_compute; reflexivity.
  - vm_compute; reflexivity.
  - vm_compute; reflexivity.
  - intros q m' [].
  - intros m' [<-|[]]. vm_compute; reflexivity.
  - vm_compute; reflexivity.
Defined.

(** The pin is moved by 2 * 0.1 and snaps to the line at 0.3; the adjusted
    translation is 0.2 + (0.3 - (0.1 + 0.2)), and the center plus that
    translation is 0.29999999999999993, not 0.3. *)
Lemma snap_exact_counterexample : ~ snapLandsOnLine exPin.
Proof.
  intro H.
  assert (C : exists s', checkSnapping exPin = Ok s'
                         /\ axisOf (win s') = mkVector 0x1.9999999999998p-3 0 0).
  { destruct (checkSnapping exPin) as [s'|e] eqn:E.
    - exists s'. split; [reflexivity|].
      apply (f_equal (fun r => match r with
                               | Ok t => axisOf (win t)
                               | Raise _ => mkVector 0 0 0
                               end)) in E.
      vm_compute in E. symmetry. exact E.
    - vm_compute in E. discriminate. }
  destruct C as (s' & E & A).
  specialize (H s' AxisX
                (mkParams 0 (mkVector 0 0 0) (mkVector 0x1.999999999999ap-4 0 0) false)
                (mkMarker 1 "line_center_cy_Ref"
                   (mkVector 0x1.3333333333333p-2 (-500) 0)) E).
  match type of H with ?P -> _ =>
    assert (X1 : P) by (vm_compute; reflexivity); specialize (H X1); clear X1 end.
  match type of H with ?P -> _ =>
    assert (X2 : P) by (vm_compute; reflexivity); specialize (H X2); clear X2 end.
  rewrite A in H. simpl in H.
  apply (f_equal (fun f => PrimFloat.Leibniz.eqb f 0x1.3333333333333p-2)) in H.
  vm_compute in H. discriminate.
Qed.

(** C8, amended. When [checkSnapping] snaps the selected object [p] to the
    marker line [m], it reports it in the status bar and leaves, on the
    active axis (the first of X, Y, Z whose translation is not zero), the
    translation [t + (c - (center + t))], in floating-point arithmetic,
    where [c] is the coordinate of the start of [m] ([X1], [Y1] or [Z1]);
    the translations on the two other axes are not adjusted, and nothing is
    adjusted when nothing snaps. *)
Theorem snap_adjusts_active_axis (s : State) :
  snapReady s = true ->
  exists s', checkSnapping s = Ok s'
    /\ match activeAxis (axisOf (win s)) with
       | Some a =>
           (forall b, b <> a ->
              component b (axisOf (win s')) = component b (axisOf (win s)))
           /\ match firstSnap a (snapDistance (win s)) (axisOf (win s))
                      (selectedObjsParams (win s))
                      (markers (doc s) (centerLinesParams (win s))) with
              | Some (p, m) =>
                  component a (axisOf (win s'))
                  = (component a (axisOf (win s))
                     + (component a (markerStart m)
                        - (component a (center p) + component a (axisOf (win s)))))%float
                  /\ statusBar (ui (win s'))
                     = snapMessage (labelOf (doc s) (object p)) (markerLabel m)
              | None => axisOf (win s') = axisOf (win s)
              end
       | None => axisOf (win s') = axisOf (win s)
       end.
Proof.
  intro Hr.
  destruct (checkSnapping_spec s Hr) as (s' & E & _ & _ & A & M).
  exists s'. split; [exact E|]. rewrite A, M. unfold snapResult, snapOutcome.
  destruct (activeAxis (axisOf (win s))) as [a|]; [|reflexivity].
  destruct (firstSnap a (snapDistance (win s)) (axisOf (win s))
              (selectedObjsParams (win s))
              (markers (doc s) (centerLinesParams (win s)))) as [[p m]|].
  - split; [|split; [|reflexivity]].
    + intros b Hb. destruct a, b; try reflexivity; congruence.
    + unfold snapDiff. destruct a; reflexivity.
  - split; [|reflexivity]. intros b _. reflexivity.
Qed.

Lemma snap_adjusts_active_axis_witness :
  snapReady exPin = true
  /\ exists s', checkSnapping exPin = Ok s'
       /\ match activeAxis (axisOf (win exPin)) with
          | Some a =>
              (forall b, b <> a ->
                 component b (axisOf (win s')) = component b (axisOf (win exPin)))
              /\ match firstSnap a (snapDistance (win exPin)) (axisOf (win exPin))
                         (selectedObjsParams (win exPin))
                         (markers (doc exPin) (centerLinesParams (win exPin))) with
                 | Some (p, m) =>
                     component a (axisOf (win s'))
                     = (component a (axisOf (win exPin))
                        + (component a (markerStart m)
                           - (component a (center p)
                              + component a (axisOf (win exPin)))))%float
                     /\ statusBar (ui (win s'))
                        = snapMessage (labelOf (doc exPin) (object p)) (markerLabel m)
                 | None => axisOf (win s') = axisOf (win exPin)
                 end
          | None => axisOf (win s') = axisOf (win exPin)
          end.
Proof.
  split; [vm_compute; reflexivity|].
  refine (snap_adjusts_active_axis exPin _).
  vm_compute; reflexivity.
Defined.

(* ================================================================== *)
(** ** Slider changes outside a drag *)

Lemma settled_refl s : settled s s.
Proof. unfold settled. tauto. Qed.

Lemma settled_trans s1 s2 s3 : settled s1 s2 -> settled s2 s3 -> settled s1 s3.
Proof.
  unfold settled.
  intros (D & C & A & S & X & Y & Z) (D' & C' & A' & S' & X' & Y' & Z').
  repeat split; try congruence.
  - destruct X' as [-> | ->]; tauto.
  - destruct Y' as [-> | ->]; tauto.
  - destruct Z' as [-> | ->]; tauto.
Qed.

Lemma settled_offZero s s' : settled s s' -> (offZero s' <= offZero s)%nat.
Proof.
  unfold settled, offZero. intros (_ & _ & _ & _ & X & Y & Z).
  destruct X as [-> | ->], Y as [-> | ->], Z as [-> | ->]; simpl;
    repeat match goal with |- context [Z.eqb ?a 0] => destruct (Z.eqb a 0) end; lia.
Qed.

(** Outside a drag, with a selection, [translateSelection] returns when the
    handlers can nest once more than there are sliders off zero, and resets
    the sliders and the counters. *)
Lemma translateSelection_idle k : forall fuel x y z s,
  transformActive (win s) = false ->
  selectedObjsParams (win s) <> [] ->
  (offZero s <= k)%nat -> (k < fuel)%nat ->
  exists s', translateSelection fuel x y z s = Ok s' /\ reset s s'.
Proof.
  induction k as [|k IH]; intros fuel x y z s Ha Hsel Hoff Hfuel;
    (destruct fuel as [|fuel]; [lia|]);
    cbn [translateSelection];
    change (selectedObjsParams (win (clearMessage s))) with (selectedObjsParams (win s));
    change (transformActive (win (clearMessage s))) with (transformActive (win s));
    rewrite Ha;
    (destruct (selectedObjsParams (win s)) as [|p0 l0] eqn:Esel; [congruence|]);
    cbn [List.length Nat.eqb negb]; unfold setValue;
    change (Z.max (-50) (Z.min 50 0)) with 0%Z.
  - (* every slider is at zero *)
    unfold offZero in Hoff.
    change (ui (win (clearMessage s))) with (set_statusBar EmptyString (ui (win s))).
    destruct (Z.eqb (sldTranslateX (ui (win s))) 0) eqn:EX; [|lia].
    destruct (Z.eqb (sldTranslateY (ui (win s))) 0) eqn:EY; [|lia].
    destruct (Z.eqb (sldTranslateZ (ui (win s))) 0) eqn:EZ; [|lia].
    apply Z.eqb_eq in EX, EY, EZ.
    simpl sldTranslateX. rewrite EX. cbn [Z.eqb bind].
    simpl sldTranslateY. rewrite EY. cbn [Z.eqb bind].
    simpl sldTranslateZ. rewrite EZ. cbn [Z.eqb bind].
    eexists. split; [reflexivity|].
    unfold reset, settled. simpl. rewrite Esel. tauto.
  - (* the nested handlers run with less fuel and fewer sliders off zero *)
    assert (Step : forall (get : Ui -> Z) (set : Z -> Ui -> Ui)
                     (x' y' z' : State -> Z) (s0 : State),
      (forall u, get (set 0%Z u) = 0%Z) ->
      (forall s1, ((if Z.eqb (get (ui (win s1))) 0 then 0 else 1) <= offZero s1)%nat) ->
      (forall s1, get (ui (win s1)) <> 0%Z ->
                  (S (offZero (onWin (onUi (set 0%Z)) s1)) <= offZero s1)%nat) ->
      (forall s1, settled s1 (onWin (onUi (set 0%Z)) s1)) ->
      (forall s1 s2, reset s1 s2 -> get (ui (win s2)) = 0%Z) ->
      transformActive (win s0) = false ->
      selectedObjsParams (win s0) <> [] ->
      (offZero s0 <= S k)%nat ->
      exists s1,
        (if Z.eqb 0 (get (ui (win s0))) then Ok s0
         else translateSelection fuel (x' (onWin (onUi (set 0%Z)) s0))
                (y' (onWin (onUi (set 0%Z)) s0)) (z' (onWin (onUi (set 0%Z)) s0))
                (onWin (onUi (set 0%Z)) s0)) = Ok s1
        /\ settled s0 s1 /\ get (ui (win s1)) = 0%Z).
    { intros get set x' y' z' s0 Hgs Hle Hdec Hset Hres Ha0 Hsel0 Hoff0.
      destruct (Z.eqb 0 (get (ui (win s0)))) eqn:E.
      - exists s0. split; [reflexivity|]. split; [apply settled_refl|].
        apply Z.eqb_eq in E. congruence.
      - apply Z.eqb_neq in E.
        destruct (IH fuel (x' (onWin (onUi (set 0%Z)) s0))
                    (y' (onWin (onUi (set 0%Z)) s0)) (z' (onWin (onUi (set 0%Z)) s0))
                    (onWin (onUi (set 0%Z)) s0)) as (s1 & E1 & R1).
        + destruct (Hset s0) as (_ & _ & -> & _). exact Ha0.
        + destruct (Hset s0) as (_ & _ & _ & -> & _). exact Hsel0.
        + specialize (Hdec s0 (fun H => E (eq_sym H))). lia.
        + lia.
        + exists s1. split; [exact E1|]. split.
          * eapply settled_trans; [apply Hset|apply R1].
          * eapply Hres. exact R1. }
    set (sc := clearMessage s).
    assert (Hc : settled s sc) by (unfold settled; simpl; tauto).
    assert (Hoc : (offZero sc <= S k)%nat) by (apply settled_offZero in Hc; lia).
    destruct (Step sldTranslateX set_sldTranslateX
                (fun s' => sldTranslateX (ui (win s'))) (fun _ => 0%Z) (fun _ => 0%Z) sc)
      as (s1 & -> & R1 & X1); try reflexivity.
    { intro s1. unfold offZero.
      repeat match goal with |- context [Z.eqb ?a 0] => destruct (Z.eqb a 0) end; lia. }
    { intros s1 H. unfold offZero. simpl. apply Z.eqb_neq in H. rewrite H.
      repeat match goal with |- context [Z.eqb ?a 0] => destruct (Z.eqb a 0) end; lia. }
    { intro s1. unfold settled. simpl. tauto. }
    { intros s1 s2 R. apply R. }
    { exact Ha. }
    { simpl. congruence. }
    { exact Hoc. }
    cbn [bind].
    assert (Ha1 : transformActive (win s1) = false)
      by (destruct R1 as (_ & _ & -> & _); exact Ha).
    assert (Hsel1 : selectedObjsParams (win s1) <> [])
      by (destruct R1 as (_ & _ & _ & -> & _); simpl; congruence).
    assert (Ho1 : (offZero s1 <= S k)%nat) by (apply settled_offZero in R1; lia).
    destruct (Step sldTranslateY set_sldTranslateY
                (fun _ => 0%Z) (fun s' => sldTranslateY (ui (win s'))) (fun _ => 0%Z) s1)
      as (s2 & -> & R2 & Y2); try reflexivity; try assumption.
    { intro s0. unfold offZero.
      repeat match goal with |- context [Z.eqb ?a 0] => destruct (Z.eqb a 0) end; lia. }
    { intros s0 H. unfold offZero. simpl. apply Z.eqb_neq in H. rewrite H.
      repeat match goal with |- context [Z.eqb ?a 0] => destruct (Z.eqb a 0) end; lia. }
    { intro s0. unfold settled. simpl. tauto. }
    { intros s0 s3 R. apply R. }
    cbn [bind].
    assert (Ha2 : transformActive (win s2) = false)
      by (destruct R2 as (_ & _ & -> & _); exact Ha1).
    assert (Hsel2 : selectedObjsParams (win s2) <> [])
      by (destruct R2 as (_ & _ & _ & -> & _); exact Hsel1).
    assert (Ho2 : (offZero s2 <= S k)%nat) by (apply settled_offZero in R2; lia).
    destruct (Step sldTranslateZ set_sldTranslateZ
                (fun _ => 0%Z) (fun _ => 0%Z) (fun s' => sldTranslateZ (ui (win s'))) s2)
      as (s3 & -> & R3 & Z3); try reflexivity; try assumption.
    { intro s0. unfold offZero.
      repeat match goal with |- context [Z.eqb ?a 0] => destruct (Z.eqb a 0) end; lia. }
    { intros s0 H. unfold offZero. simpl. apply Z.eqb_neq in H. rewrite H.
      repeat match goal with |- context [Z.eqb ?a 0] => destruct (Z.eqb a 0) end; lia. }
    { intro s0. unfold settled. simpl. tauto. }
    { intros s0 s4 R. apply R. }
    cbn [bind]. eexists. split; [reflexivity|].
    assert (R : settled s s3)
      by (eapply settled_trans; [exact Hc|];
          eapply settled_trans; [exact R1|];
          eapply settled_trans; [exact R2|exact R3]).
    assert (X3 : sldTranslateX (ui (win s3)) = 0%Z).
    { destruct R3 as (_ & _ & _ & _ & [-> | ->] & _); [|reflexivity].
      destruct R2 as (_ & _ & _ & _ & [-> | ->] & _); [exact X1|reflexivity]. }
    assert (Y3 : sldTranslateY (ui (win s3)) = 0%Z).
    { destruct R3 as (_ & _ & _ & _ & _ & [-> | ->] & _); [exact Y2|reflexivity]. }
    split.
    { eapply settled_trans; [exact R|]. clear. unfold settled. simpl. tauto. }
    simpl. repeat split; assumption.
Qed.

(** C10. When no transform is active and the selection list is not empty,
    [translateSelection] returns, leaves the three translation sliders and
    the three translation counters at zero, and leaves the document, so the
    placement of every object, as it was. *)
Theorem translateSelection_outside_drag (fuel : nat) (x y z : Z) (s : State) :
  transformActive (win s) = false ->
  selectedObjsParams (win s) <> [] ->
  exists s', translateSelection (4 + fuel) x y z s = Ok s'
    /\ sldTranslateX (ui (win s')) = 0%Z
    /\ sldTranslateY (ui (win s')) = 0%Z
    /\ sldTranslateZ (ui (win s')) = 0%Z
    /\ axisOf (win s') = mkVector zero zero zero
    /\ doc s' = doc s.
Proof.
  intros Ha Hsel.
  destruct (translateSelection_idle 3 (4 + fuel) x y z s Ha Hsel) as (s' & E & R).
  - unfold offZero.
    repeat match goal with |- context [Z.eqb ?a 0] => destruct (Z.eqb a 0) end;
      simpl; lia.
  - lia.
  - exists s'. split; [exact E|].
    destruct R as ((D & _) & X & Y & Z & A). repeat split; assumption.
Qed.

Lemma translateSelection_outside_drag_witness :
  transformActive (win exIdle) = false
  /\ selectedObjsParams (win exIdle) <> []
  /\ exists s', translateSelection (4 + 0) 4 0 0 exIdle = Ok s'
       /\ sldTranslateX (ui (win s')) = 0%Z
       /\ sldTranslateY (ui (win s')) = 0%Z
       /\ sldTranslateZ (ui (win s')) = 0%Z
       /\ axisOf (win s') = mkVector zero zero zero
       /\ doc s' = doc exIdle.
Proof.
  split; [reflexivity|]. split; [discriminate|].
  refine (translateSelection_outside_drag 0 4 0 0 exIdle _ _);
    [reflexivity|discriminate].
Defined.

(* ================================================================== *)
(** ** The colour of the marker lines *)

(** C9. When the colour the dialog returns is black (red, green and blue
    are zero, as when the dialog is canceled), [btnDefaultLineColorClicked]
    leaves [markerLineColor] as it was; for every other colour it sets it
    to the components divided by 255, with alpha 0. *)
Theorem line_color_set_unless_black (r g b : Z) (s : State) :
  markerLineColor (win (btnDefaultLineColorClicked r g b s)) =
  if ((r =? 0) && (g =? 0) && (b =? 0))%Z
  then markerLineColor (win s)
  else ((float_of_int r / 255)%float, (float_of_int g / 255)%float,
        (float_of_int b / 255)%float, zero).
Proof.
  unfold btnDefaultLineColorClicked.
  destruct (Z.eqb_spec r g), (Z.eqb_spec g b), (Z.eqb_spec b 0),
           (Z.eqb_spec r 0), (Z.eqb_spec g 0); simpl; try reflexivity; lia.
Qed.

(* ================================================================== *)
(** ** Removal of the temporary center marks *)

Lemma distinct_NoDup l : distinct l = true -> NoDup l.
Proof.
  induction l as [|n l IH]; simpl; intro H; [constructor|].
  apply andb_true_iff in H. destruct H as [Hn Hl]. constructor; [|auto].
  intro Hin. apply negb_true_iff in Hn.
  assert (E : existsb (Nat.eqb n) l = true)
    by (apply existsb_exists; exists n; split; [assumption|apply Nat.eqb_refl]).
  congruence.
Qed.

Lemma live_names d n : live d n = true <-> In n (names d).
Proof.
  unfold live, names. split.
  - destruct (find (named n) d) as [o|] eqn:E; [|discriminate]. intros _.
    rewrite <- (find_named_name n d o E). apply find_some in E. apply in_map, E.
  - intro H. apply in_map_iff in H. destruct H as (o & Ho & Hin).
    destruct (find (named n) d) eqn:E; [reflexivity|].
    apply (find_none _ _ E) in Hin. unfold named in Hin.
    rewrite Ho, Nat.eqb_refl in Hin. discriminate.
Qed.

Lemma names_docRemove n d :
  names (docRemove n d) = filter (fun m => negb (Nat.eqb m n)) (names d).
Proof.
  unfold names, docRemove. rewrite map_map. simpl.
  induction d as [|o d IH]; simpl; [reflexivity|].
  unfold named at 1. destruct (Nat.eqb (ObjName o) n); simpl; now rewrite IH.
Qed.

Lemma names_removeAll l : forall d,
  names (removeAll l d) = filter (fun m => negb (existsb (Nat.eqb m) l)) (names d).
Proof.
  induction l as [|n l IH]; intro d; simpl.
  - symmetry. apply forallb_filter_id. now apply forallb_forall.
  - unfold removeAll in *. simpl. rewrite IH, names_docRemove.
    induction (names d) as [|m ms IHm]; simpl; [reflexivity|].
    destruct (Nat.eqb m n); simpl; [exact IHm|].
    destruct (existsb (Nat.eqb m) l); simpl; [exact IHm|]. now rewrite IHm.
Qed.

Lemma NoDup_filter {A : Type} (f : A -> bool) (l : list A) :
  NoDup l -> NoDup (filter f l).
Proof.
  induction 1 as [|a l Hn _ IH]; simpl; [constructor|].
  destruct (f a); [|exact IH]. constructor; [|exact IH].
  intro Hin. apply filter_In in Hin. tauto.
Qed.

Lemma removeObject_live obj s :
  live (doc s) obj = true -> removeObject obj s = Ok (onDoc (docRemove obj) s).
Proof.
  intro H. unfold removeObject.
  destruct (getObject_live _ _ H) as (o & E & ->). simpl.
  now rewrite (find_named_name _ _ _ E).
Qed.

Lemma removeObjects_ok l : forall s,
  NoDup l -> (forall n, In n l -> In n (names (doc s))) ->
  forEach l removeObject s = Ok (onDoc (removeAll l) s).
Proof.
  induction l as [|n l IH]; intros s Hd Hl; simpl.
  - now destruct s.
  - rewrite removeObject_live by (apply live_names, Hl; now left). simpl.
    inversion Hd as [|? ? Hn Hd']; subst. rewrite IH; [now destruct s|assumption|].
    intros m Hm. simpl. rewrite names_docRemove. apply filter_In.
    split; [apply Hl; now right|].
    apply negb_true_iff, Nat.eqb_neq. intros ->. contradiction.
Qed.

Lemma forEach_map {A B : Type} (f : A -> B) (body : B -> State -> Exc State)
  (l : list A) : forall s,
  forEach l (fun a => body (f a)) s = forEach (map f l) body s.
Proof.
  induction l as [|a l IH]; intro s; simpl; [reflexivity|].
  destruct (body (f a) s); simpl; [apply IH|reflexivity].
Qed.

Lemma nonFaces_filter members : forall s,
  forallb (memberOk (doc s)) members = true ->
  exists s', nonFaces members s = Ok (filter (isNonFace (doc s)) members, s')
             /\ logged s s'.
Proof.
  induction members as [|m members IH]; intros s H; simpl.
  - exists s. repeat split.
  - simpl in H. apply andb_true_iff in H. destruct H as [Hm Hr].
    unfold memberOk in Hm. unfold getObject, isNonFace at 1.
    destruct (find (named m) (doc s)) as [o|] eqn:Ef; [|discriminate].
    simpl. unfold shapeType. destruct (Shape o) as [sh|] eqn:Es; [|discriminate].
    simpl. destruct (isFace (shapeClass sh)) eqn:Eface; simpl.
    + destruct (IH (PrintMessage (notSelecting (Label o)) s) Hr) as (s' & -> & L).
      exists s'. split; [reflexivity|exact L].
    + destruct (IH s Hr) as (s' & -> & L). simpl. exists s'. now split.
Qed.

Lemma isNonFace_hasCenter d members :
  forallb (memberOk d) members = true ->
  forallb (hasCenter d) (filter (isNonFace d) members) = true.
Proof.
  intro H. apply forallb_forall. intros m Hm. apply filter_In in Hm.
  destruct Hm as [Hin Hn]. rewrite forallb_forall in H. specialize (H m Hin).
  unfold memberOk in H. unfold isNonFace in Hn. unfold hasCenter.
  destruct (find (named m) d) as [o|]; [|discriminate].
  destruct (Shape o) as [sh|]; [|discriminate].
  apply negb_true_iff in Hn. now rewrite Hn in H.
Qed.

Lemma getGroupObjects_members label s :
  groupOk (doc s) label = true ->
  exists ps s', getGroupObjects label s = Ok (ps, s') /\ logged s s'
    /\ map object ps = nonFaceMembers (doc s) label.
Proof.
  intro H. unfold getGroupObjects, nonFaceMembers. rewrite getGroup_false.
  unfold groupOk in H. destruct (findGroup label (doc s)) as [g|].
  - unfold getObject. destruct (find (named g) (doc s)) as [grp|]; [|discriminate].
    simpl. destruct (nonFaces_filter _ _ H) as (s' & -> & [W D]). simpl.
    rewrite D.
    destruct (mapExc_objectParameters _ _ (isNonFace_hasCenter _ _ H)) as (ps & -> & E).
    simpl. exists ps, s'. repeat split; assumption.
  - exists [], s. repeat split.
Qed.

Lemma in_getObjectsByLabel_names label d n :
  In n (map ObjName (getObjectsByLabel label d)) -> In n (names d).
Proof.
  unfold getObjectsByLabel, names. rewrite !in_map_iff.
  intros (o & E & Hin). apply filter_In in Hin. exists o. tauto.
Qed.

Lemma NoDup_labelled label d :
  NoDup (names d) -> NoDup (map ObjName (getObjectsByLabel label d)).
Proof.
  unfold names, getObjectsByLabel. induction d as [|o d IH]; simpl; intro H;
    [constructor|].
  inversion H as [|? ? Hn Hd]; subst.
  destruct (String.eqb (Label o) label); simpl; [|auto].
  constructor; [|auto]. intro Hin. apply Hn.
  apply in_map_iff in Hin. destruct Hin as (o' & E & Hin).
  apply filter_In in Hin. apply in_map_iff. exists o'. tauto.
Qed.

(** [removeGroup] returns, and leaves the document [cleanupDoc] describes. *)
Lemma removeGroup_cleanup label s :
  groupOk (doc s) label = true ->
  NoDup (names (doc s)) ->
  NoDup (nonFaceMembers (doc s) label) ->
  exists s', removeGroup label s = Ok s'
    /\ win s' = win s /\ doc s' = cleanupDoc label (doc s).
Proof.
  intros Hg Hn Hm. unfold removeGroup.
  destruct (getGroupObjects_members label s Hg) as (ps & s1 & -> & [W1 D1] & E).
  simpl. rewrite (forEach_map object removeObject ps s1), E.
  rewrite removeObjects_ok; [|assumption|].
  - simpl. unfold removeObjectsByLabel. simpl. rewrite removeObjects_ok.
    + eexists. split; [reflexivity|]. simpl. split; [assumption|].
      unfold cleanupDoc. now rewrite D1.
    + apply NoDup_labelled. simpl. rewrite names_removeAll.
      apply NoDup_filter. now rewrite D1.
    + simpl. intros n. apply in_getObjectsByLabel_names.
  - rewrite D1. intros n Hin. unfold nonFaceMembers in Hin.
    destruct (findGroup label (doc s)) as [g|]; [|contradiction].
    destruct (find (named g) (doc s)) as [grp|]; [|contradiction].
    apply filter_In in Hin. destruct Hin as [_ Hin]. unfold isNonFace in Hin.
    apply live_names. unfold live.
    destruct (find (named n) (doc s)); [reflexivity|discriminate].
Qed.

Lemma in_docRemove o n d :
  In o (docRemove n d) ->
  exists o0, In o0 d /\ ObjName o0 <> n /\ ObjName o = ObjName o0 /\ Label o = Label o0.
Proof.
  unfold docRemove. rewrite in_map_iff. intros (o0 & <- & Hin).
  apply filter_In in Hin. destruct Hin as [Hin Hn].
  exists o0. repeat split; [assumption|].
  unfold named in Hn. now apply negb_true_iff, Nat.eqb_neq in Hn.
Qed.

Lemma in_removeAll l : forall d o,
  In o (removeAll l d) ->
  exists o0, In o0 d /\ ~ In (ObjName o0) l /\ ObjName o = ObjName o0
             /\ Label o = Label o0.
Proof.
  induction l as [|n l IH]; intros d o H.
  - exists o. repeat split; auto.
  - unfold removeAll in H. simpl in H. apply IH in H.
    destruct H as (o1 & H1 & Hn1 & En & El).
    apply in_docRemove in H1. destruct H1 as (o0 & H0 & Hn0 & En0 & El0).
    exists o0. repeat split; [assumption| |congruence|congruence].
    intros [E|Hin]; [congruence|]. apply Hn1. now rewrite En0.
Qed.

(** What [removeGroup] removes is gone: the members of the group whose shape
    is not a face, and every object that bears the label of the group. *)
Lemma cleanupDoc_removed label d :
  (forall n, In n (nonFaceMembers d label) -> live (cleanupDoc label d) n = false)
  /\ getObjectsByLabel label (cleanupDoc label d) = [].
Proof.
  split.
  - intros n Hin. destruct (live (cleanupDoc label d) n) eqn:E; [|reflexivity].
    apply live_names in E. unfold cleanupDoc in E.
    rewrite !names_removeAll in E. apply filter_In in E. destruct E as [E _].
    apply filter_In in E. destruct E as [_ E]. apply negb_true_iff in E.
    assert (X : existsb (Nat.eqb n) (nonFaceMembers d label) = true)
      by (apply existsb_exists; exists n; split; [assumption|apply Nat.eqb_refl]).
    congruence.
  - unfold cleanupDoc. set (d1 := removeAll (nonFaceMembers d label) d).
    destruct (getObjectsByLabel label (removeAll _ d1)) as [|o l] eqn:E; [reflexivity|].
    assert (Hin : In o (getObjectsByLabel label
                          (removeAll (map ObjName (getObjectsByLabel label d1)) d1)))
      by (rewrite E; now left).
    unfold getObjectsByLabel at 1 in Hin. apply filter_In in Hin.
    destruct Hin as [Hin Hl]. apply in_removeAll in Hin.
    destruct Hin as (o0 & H0 & Hn & _ & El). exfalso. apply Hn.
    apply in_map. unfold getObjectsByLabel. apply filter_In. split; [assumption|].
    now rewrite <- El.
Qed.

Lemma kept_unlink L B f o o' :
  kept L B o o' ->
  kept L B (setGroup (filter f (Group o)) o) (setGroup (filter f (Group o')) o').
Proof.
  intros (Hs & Hc & Hb). unfold skel in Hs.
  injection Hs as Hn Hl Ht Hsh Hm Hg.
  repeat split; simpl; try assumption. unfold skel. simpl. congruence.
Qed.

Lemma docKept_docRemove L B n d d' :
  docKept L B d d' -> docKept L B (docRemove n d) (docRemove n d').
Proof.
  intro H. unfold docRemove.
  assert (F : docKept L B (filter (fun o => negb (named n o)) d)
                          (filter (fun o => negb (named n o)) d')).
  { apply docKept_filter; [|assumption].
    intros o o' K. unfold named. now rewrite (kept_name K). }
  clear H. induction F; simpl; constructor; auto using kept_unlink.
Qed.

Lemma docKept_removeAll L B l : forall d d',
  docKept L B d d' -> docKept L B (removeAll l d) (removeAll l d').
Proof.
  induction l as [|n l IH]; intros d d' H; [exact H|].
  unfold removeAll. simpl. apply IH. now apply docKept_docRemove.
Qed.

Lemma names_kept L B d d' : docKept L B d d' -> names d' = names d.
Proof.
  intro H. unfold names. induction H as [|o o' d d' K _ IH]; simpl; [reflexivity|].
  now rewrite IH, (kept_name K).
Qed.

Lemma isNonFace_kept L B d d' m : docKept L B d d' -> isNonFace d' m = isNonFace d m.
Proof.
  intro H. pose proof (docKept_find m H) as F. unfold isNonFace.
  destruct (find (named m) d); [destruct F as (o' & -> & K)|now rewrite F].
  apply kept_fields in K. now destruct K as (_ & _ & _ & -> & _).
Qed.

Lemma nonFaceMembers_kept L B label d d' :
  docKept L B d d' -> nonFaceMembers d' label = nonFaceMembers d label.
Proof.
  intro H. unfold nonFaceMembers. rewrite (findGroup_kept label H).
  destruct (findGroup label d) as [g|]; [|reflexivity].
  pose proof (docKept_find g H) as F.
  destruct (find (named g) d) as [grp|]; [destruct F as (o' & -> & K)|now rewrite F].
  apply kept_fields in K. destruct K as (_ & _ & _ & _ & _ & ->).
  induction (Group grp) as [|m l IH]; simpl; [reflexivity|].
  now rewrite (isNonFace_kept L B d d' m H), IH.
Qed.

Lemma labelled_kept L B label d d' :
  docKept L B d d' ->
  map ObjName (getObjectsByLabel label d') = map ObjName (getObjectsByLabel label d).
Proof.
  intro H. unfold getObjectsByLabel.
  induction H as [|o o' d d' K _ IH]; simpl; [reflexivity|].
  pose proof (kept_fields K) as (Hn & Hl & _). rewrite Hl.
  destruct (String.eqb (Label o) label); simpl; [now rewrite IH, Hn|exact IH].
Qed.

Lemma docKept_cleanup L B label d d' :
  docKept L B d d' -> docKept L B (cleanupDoc label d) (cleanupDoc label d').
Proof.
  intro H. unfold cleanupDoc. rewrite (nonFaceMembers_kept L B label d d' H).
  assert (H1 := docKept_removeAll L B (nonFaceMembers d label) d d' H).
  rewrite (labelled_kept L B label _ _ H1). now apply docKept_removeAll.
Qed.

Lemma docKept_labelled_nil L B label d d' :
  docKept L B d d' -> getObjectsByLabel label d = [] -> getObjectsByLabel label d' = [].
Proof.
  intros H E. pose proof (labelled_kept L B label d d' H) as M. rewrite E in M.
  destruct (getObjectsByLabel label d'); [reflexivity|discriminate].
Qed.

Lemma offZero_le_3 s : (offZero s <= 3)%nat.
Proof.
  unfold offZero.
  repeat match goal with |- context [Z.eqb ?a 0] => destruct (Z.eqb a 0) end;
    simpl; lia.
Qed.

(** Outside a drag, a handler of a translation slider returns. *)
Lemma translateSelection_settles fuel x y z s :
  transformActive (win s) = false ->
  exists s', translateSelection (4 + fuel) x y z s = Ok s' /\ settled s s'.
Proof.
  intro Ha. destruct (selectedObjsParams (win s)) as [|p l] eqn:Esel.
  - change (4 + fuel)%nat with (S (3 + fuel)). cbn [translateSelection].
    change (selectedObjsParams (win (clearMessage s))) with (selectedObjsParams (win s)).
    rewrite Esel. cbn [List.length Nat.eqb]. eexists. split; [reflexivity|].
    unfold settled. simpl. tauto.
  - destruct (translateSelection_idle 3 (4 + fuel) x y z s Ha) as (s' & E & R & _).
    + congruence.
    + apply offZero_le_3.
    + lia.
    + eauto.
Qed.

Lemma setTranslate_settles fuel s :
  transformActive (win s) = false ->
  (exists s', setTranslateX (4 + fuel) 0 s = Ok s' /\ settled s s')
  /\ (exists s', setTranslateY (4 + fuel) 0 s = Ok s' /\ settled s s')
  /\ (exists s', setTranslateZ (4 + fuel) 0 s = Ok s' /\ settled s s').
Proof.
  intro Ha.
  unfold setTranslateX, setTranslateY, setTranslateZ, setValue,
    sldTranslateXChanged, sldTranslateYChanged, sldTranslateZChanged.
  change (Z.max (-50) (Z.min 50 0)) with 0%Z.
  split; [|split].
  - destruct (Z.eqb 0 (sldTranslateX (ui (win s)))); [eauto using settled_refl|].
    match goal with |- context [translateSelection _ ?x ?y ?z ?t] =>
      destruct (translateSelection_settles fuel x y z t Ha) as (s' & E & R) end.
    exists s'. split; [exact E|]. eapply settled_trans; [|exact R].
    unfold settled. simpl. tauto.
  - destruct (Z.eqb 0 (sldTranslateY (ui (win s)))); [eauto using settled_refl|].
    match goal with |- context [translateSelection _ ?x ?y ?z ?t] =>
      destruct (translateSelection_settles fuel x y z t Ha) as (s' & E & R) end.
    exists s'. split; [exact E|]. eapply settled_trans; [|exact R].
    unfold settled. simpl. tauto.
  - destruct (Z.eqb 0 (sldTranslateZ (ui (win s)))); [eauto using settled_refl|].
    match goal with |- context [translateSelection _ ?x ?y ?z ?t] =>
      destruct (translateSelection_settles fuel x y z t Ha) as (s' & E & R) end.
    exists s'. split; [exact E|]. eapply settled_trans; [|exact R].
    unfold settled. simpl. tauto.
Qed.

Lemma docKept_in L B d d' o' :
  docKept L B d d' -> In o' d' -> exists o, In o d /\ kept L B o o'.
Proof.
  induction 1 as [|o1 o1' d d' K _ IH]; simpl; [contradiction|].
  intros [<-|Hin]; [eauto|]. destruct (IH Hin) as (o & Ho & Ko). eauto.
Qed.

(* ================================================================== *)
(** ** The state a press leaves *)

Lemma bind_ok {A B : Type} (m : Exc A) (k : A -> Exc B) (b : B) :
  bind m k = Ok b -> exists a, m = Ok a /\ k a = Ok b.
Proof. destruct m as [a|e]; simpl; [eauto|discriminate]. Qed.

Lemma modify_inv n f s s' :
  modify n f s = Ok s' -> s' = onDoc (updObject n f) s /\ live (doc s) n = true.
Proof.
  unfold modify, getObject, live. destruct (find (named n) (doc s)); simpl; [|discriminate].
  intros [= <-]. now split.
Qed.

Lemma mapExc_objectParameters_inv d objs : forall ps,
  mapExc (objectParameters d) objs = Ok ps ->
  Forall (captured d) ps /\ map object ps = objs.
Proof.
  induction objs as [|n objs IH]; intros ps H; simpl in H.
  - injection H as <-. split; constructor.
  - apply bind_ok in H. destruct H as (p & Hp & H).
    apply bind_ok in H. destruct H as (ps' & Hps & H). injection H as <-.
    destruct (IH ps' Hps) as [F E].
    unfold objectParameters in Hp. apply bind_ok in Hp. destruct Hp as (o & Ho & Hp).
    apply bind_ok in Hp. destruct Hp as (c & Hc & Hp). injection Hp as <-.
    unfold getObject in Ho. destruct (find (named n) d) as [o'|] eqn:Ef; [|discriminate].
    injection Ho as ->.
    split; [|simpl; now rewrite E]. constructor; [|exact F].
    unfold captured, hasCenter, baseOf, centerOk. simpl. rewrite Ef, Hc. now split.
Qed.

Lemma printed_refl s : printed s s.
Proof. repeat split. Qed.

Lemma printed_trans s1 s2 s3 : printed s1 s2 -> printed s2 s3 -> printed s1 s3.
Proof. intros (W & D & F) (W' & D' & F'). repeat split; congruence. Qed.

Lemma selectMembers_printed members : forall s objs s',
  selectMembers members s = Ok (objs, s') -> printed s s'.
Proof.
  induction members as [|m members IH]; intros s objs s' H; simpl in H.
  - injection H as _ <-. apply printed_refl.
  - apply bind_ok in H. destruct H as (o & _ & H).
    match type of H with (if ?c then _ else _) = _ => destruct c end.
    + apply bind_ok in H. destruct H as ([objs1 s1] & H1 & H).
      injection H as _ <-. eauto.
    + apply IH in H. eapply printed_trans; [|exact H]. repeat split.
Qed.

Lemma selectObjects_printed objs2 : forall s objs s',
  selectObjects objs2 s = Ok (objs, s') -> printed s s'.
Proof.
  induction objs2 as [|n rest IH]; intros s objs s' H; simpl in H.
  - injection H as _ <-. apply printed_refl.
  - apply bind_ok in H. destruct H as (o & _ & H).
    destruct (typeIdIs "App::DocumentObjectGroup" o).
    + apply bind_ok in H. destruct H as ([subs s1] & H1 & H).
      apply bind_ok in H. destruct H as ([objs1 s2] & H2 & H).
      injection H as _ <-. apply selectMembers_printed in H1. apply IH in H2.
      eapply printed_trans; eassumption.
    + match type of H with (if ?c then _ else _) = _ => destruct c end.
      * apply bind_ok in H. destruct H as ([objs1 s1] & H1 & H).
        injection H as _ <-. eauto.
      * apply IH in H. eapply printed_trans; [|exact H]. repeat split.
Qed.

Lemma getSelectedObjects_captured ext s ps s' :
  getSelectedObjects ext s = Ok (ps, s') ->
  printed s s' /\ Forall (captured (doc s)) ps.
Proof.
  unfold getSelectedObjects. intro H.
  apply bind_ok in H. destruct H as ([objs s1] & H1 & H).
  apply bind_ok in H. destruct H as (sel & H2 & H). injection H as <- <-.
  apply selectObjects_printed in H1. split; [exact H1|].
  destruct H1 as (_ & D & _). rewrite D in H2.
  now apply mapExc_objectParameters_inv in H2.
Qed.

Lemma nonFaces_inv members : forall s objs s',
  nonFaces members s = Ok (objs, s') ->
  printed s s' /\ objs = filter (isNonFace (doc s)) members
  /\ forallb (hasShape (doc s)) members = true.
Proof.
  induction members as [|m members IH]; intros s objs s' H; simpl in H.
  - injection H as <- <-. repeat split.
  - apply bind_ok in H. destruct H as (o & Ho & H).
    apply bind_ok in H. destruct H as (c & Hc & H).
    unfold getObject in Ho. destruct (find (named m) (doc s)) as [o'|] eqn:Ef; [|discriminate].
    injection Ho as ->. unfold shapeType in Hc.
    destruct (Shape o) as [sh|] eqn:Es; [|discriminate]. injection Hc as <-.
    simpl. unfold isNonFace at 1, hasShape at 1. rewrite Ef, Es.
    destruct (isFace (shapeClass sh)); simpl.
    + apply IH in H. destruct H as (P & E & F). simpl in E, F.
      split; [eapply printed_trans; [|exact P]; repeat split|]. now split.
    + apply bind_ok in H. destruct H as ([objs1 s1] & H1 & H). injection H as <- <-.
      apply IH in H1. destruct H1 as (P & E & F). split; [exact P|]. split; [now rewrite E|exact F].
Qed.

Lemma getGroupObjects_inv label s ps s' :
  getGroupObjects label s = Ok (ps, s') ->
  printed s s' /\ groupOk (doc s) label = true
  /\ Forall (fun p => live (doc s) (object p) = true) ps.
Proof.
  unfold getGroupObjects. rewrite getGroup_false. unfold groupOk.
  destruct (findGroup label (doc s)) as [g|].
  - intro H. apply bind_ok in H. destruct H as (grp & Hg & H).
    unfold getObject in Hg. destruct (find (named g) (doc s)) as [grp'|]; [|discriminate].
    injection Hg as ->.
    apply bind_ok in H. destruct H as ([objs s1] & H1 & H).
    apply bind_ok in H. destruct H as (groupObjs & H2 & H). injection H as <- <-.
    apply nonFaces_inv in H1. destruct H1 as (P & E & F).
    destruct P as (W & D & Fr). rewrite D in H2.
    apply mapExc_objectParameters_inv in H2. destruct H2 as [C M].
    split; [repeat split; assumption|]. split.
    + apply forallb_forall. intros m Hm. rewrite forallb_forall in F. specialize (F m Hm).
      unfold hasShape in F. unfold memberOk.
      destruct (find (named m) (doc s)) as [o|] eqn:Ef; [|discriminate].
      destruct (Shape o) as [sh|] eqn:Es; [|discriminate].
      destruct (isFace (shapeClass sh)) eqn:Eface; [reflexivity|]. simpl.
      assert (Hin : In m objs).
      { rewrite E. apply filter_In. split; [assumption|].
        unfold isNonFace. now rewrite Ef, Es, Eface. }
      rewrite <- M in Hin. apply in_map_iff in Hin. destruct Hin as (p & <- & Hp).
      rewrite Forall_forall in C. destruct (C p Hp) as [Hc _].
      unfold hasCenter in Hc. now rewrite Ef in Hc.
    + apply Forall_forall. intros p Hp. rewrite Forall_forall in C.
      destruct (C p Hp) as [Hc _]. now apply hasCenter_live.
  - intros [= <- <-]. repeat split. constructor.
Qed.

Lemma forEach_inv {A : Type} (R : State -> State -> Prop)
  (body : A -> State -> Exc State) (l : list A) :
  (forall s, R s s) ->
  (forall s1 s2 s3, R s1 s2 -> R s2 s3 -> R s1 s3) ->
  (forall a s s', In a l -> body a s = Ok s' -> R s s') ->
  forall s s', forEach l body s = Ok s' -> R s s'.
Proof.
  intros Rrefl Rtrans Hbody. induction l as [|a l IH]; intros s s' H; simpl in H.
  - injection H as <-. apply Rrefl.
  - apply bind_ok in H. destruct H as (s1 & H1 & H).
    eapply Rtrans; [eapply Hbody; [now left|exact H1]|].
    apply IH; [|exact H]. intros b t t' Hb. apply Hbody. now right.
Qed.

Lemma originKept_refl o : originKept o o.
Proof. repeat split. Qed.

Lemma originKept_trans o1 o2 o3 :
  originKept o1 o2 -> originKept o2 o3 -> originKept o1 o3.
Proof.
  intros (N & L & T & S & M & G) (N' & L' & T' & S' & M' & G').
  repeat split; try congruence. intro H. rewrite G by assumption. apply G'. congruence.
Qed.

Lemma Forall2_originKept_refl d : Forall2 originKept d d.
Proof. induction d; constructor; auto using originKept_refl. Qed.

Lemma grown_refl d : grown d d.
Proof.
  exists d, []. rewrite app_nil_r. split; [reflexivity|].
  split; [apply Forall2_originKept_refl|constructor].
Qed.

Lemma Forall2_originKept_trans d1 d2 d3 :
  Forall2 originKept d1 d2 -> Forall2 originKept d2 d3 -> Forall2 originKept d1 d3.
Proof.
  intro H. revert d3. induction H as [|o1 o2 d1 d2 K _ IH]; intros d3 H';
    inversion H'; subst; constructor; eauto using originKept_trans.
Qed.

Lemma grown_trans d1 d2 d3 : grown d1 d2 -> grown d2 d3 -> grown d1 d3.
Proof.
  intros (a1 & e1 & -> & F1 & X1) (a2 & e2 & -> & F2 & X2).
  apply Forall2_app_inv_l in F2. destruct F2 as (b1 & b2 & Fb1 & Fb2 & ->).
  exists b1, (b2 ++ e2). rewrite app_assoc. split; [reflexivity|].
  split; [eapply Forall2_originKept_trans; eassumption|].
  apply Forall_app. split; [|exact X2].
  clear - X1 Fb2. induction Fb2 as [|o o' e e' K _ IH]; [constructor|].
  inversion X1; subst. constructor; [|auto].
  destruct K as (_ & L & _). congruence.
Qed.

Lemma grown_app d o :
  Label o <> GROUP_LABEL_ORIGIN_LINES -> grown d (d ++ [o]).
Proof.
  intro H. exists d, [o]. split; [reflexivity|].
  split; [apply Forall2_originKept_refl|]. constructor; [exact H|constructor].
Qed.

Lemma grown_upd n f d :
  (forall o, In o d -> named n o = true -> originKept o (f o)) ->
  grown d (updObject n f d).
Proof.
  intro H. exists (updObject n f d), []. rewrite app_nil_r. split; [reflexivity|].
  split; [|constructor]. unfold updObject.
  induction d as [|o d IH]; simpl; constructor.
  - destruct (named n o) eqn:E; [apply H; [now left|exact E]|apply originKept_refl].
  - apply IH. intros o' Ho'. apply H. now right.
Qed.

Lemma Forall2_originKept_find d d1 n :
  Forall2 originKept d d1 ->
  match find (named n) d with
  | Some o => exists o', find (named n) d1 = Some o' /\ originKept o o'
  | None => find (named n) d1 = None
  end.
Proof.
  induction 1 as [|o o' d d1 K _ IH]; simpl; [reflexivity|].
  assert (E : named n o' = named n o)
    by (unfold named; destruct K as (N & _); now rewrite N).
  rewrite E. destruct (named n o); [eauto|exact IH].
Qed.

Lemma find_app_some {A : Type} (f : A -> bool) (l e : list A) (a : A) :
  find f l = Some a -> find f (l ++ e) = Some a.
Proof.
  induction l as [|b l IH]; simpl; [discriminate|].
  destruct (f b); [auto|exact IH].
Qed.

Lemma grown_find d d' n o :
  grown d d' -> find (named n) d = Some o ->
  exists o', find (named n) d' = Some o' /\ originKept o o'.
Proof.
  intros (d1 & e & -> & F & _) H.
  pose proof (Forall2_originKept_find d d1 n F) as G. rewrite H in G.
  destruct G as (o' & G & K). exists o'. split; [now apply find_app_some|exact K].
Qed.

Lemma grown_live d d' n : grown d d' -> live d n = true -> live d' n = true.
Proof.
  intros G H. unfold live in *.
  destruct (find (named n) d) as [o|] eqn:E; [|discriminate].
  destruct (grown_find d d' n o G E) as (o' & -> & _). reflexivity.
Qed.

Lemma centerOk_originKept o o' : originKept o o' -> centerOk o' = centerOk o.
Proof.
  intros (_ & _ & Ht & Hs & Hm & _).
  unfold centerOk, getCenter, typeIdIs, meshBoundBoxCenter, shapeBoundBoxCenter.
  rewrite <- Ht, <- Hs, <- Hm.
  destruct (String.eqb (TypeId o) "Mesh::Feature"); [destruct (Mesh o); reflexivity|].
  destruct (String.eqb (TypeId o) "Image::ImagePlane"); [reflexivity|].
  destruct (Shape o); reflexivity.
Qed.

Lemma grown_hasCenter d d' n :
  grown d d' -> hasCenter d n = true -> hasCenter d' n = true.
Proof.
  intros G H. unfold hasCenter in *.
  destruct (find (named n) d) as [o|] eqn:E; [|discriminate].
  destruct (grown_find d d' n o G E) as (o' & -> & K).
  now rewrite (centerOk_originKept o o' K).
Qed.

Lemma grown_memberOk d d' n :
  grown d d' -> memberOk d n = true -> memberOk d' n = true.
Proof.
  intros G H. unfold memberOk in *.
  destruct (find (named n) d) as [o|] eqn:E; [|discriminate].
  destruct (grown_find d d' n o G E) as (o' & -> & K).
  rewrite (centerOk_originKept o o' K). destruct K as (_ & _ & _ & <- & _). exact H.
Qed.

Lemma Forall2_originKept_labelled label d d1 :
  Forall2 originKept d d1 ->
  Forall2 originKept (getObjectsByLabel label d) (getObjectsByLabel label d1).
Proof.
  unfold getObjectsByLabel. induction 1 as [|o o' d d1 K _ IH]; simpl; [constructor|].
  destruct K as (N & L & R). rewrite <- L.
  destruct (String.eqb (Label o) label); [constructor|]; auto.
  repeat split; tauto.
Qed.

Lemma labelled_app label d e :
  getObjectsByLabel label (d ++ e) = getObjectsByLabel label d ++ getObjectsByLabel label e.
Proof. unfold getObjectsByLabel. apply filter_app. Qed.

Lemma labelled_none label e :
  Forall (fun o => Label o <> label) e -> getObjectsByLabel label e = [].
Proof.
  unfold getObjectsByLabel. induction 1 as [|o e H _ IH]; simpl; [reflexivity|].
  destruct (String.eqb_spec (Label o) label); [contradiction|exact IH].
Qed.

Lemma grown_originGroup d d' :
  grown d d' ->
  findGroup GROUP_LABEL_ORIGIN_LINES d' = findGroup GROUP_LABEL_ORIGIN_LINES d.
Proof.
  intros (d1 & e & -> & F & X). unfold findGroup.
  rewrite labelled_app, (labelled_none _ e X), app_nil_r.
  pose proof (Forall2_originKept_labelled GROUP_LABEL_ORIGIN_LINES d d1 F) as FL.
  assert (E : option_map ObjName (find (typeIdIs "App::DocumentObjectGroup")
                                    (getObjectsByLabel GROUP_LABEL_ORIGIN_LINES d1))
              = option_map ObjName (find (typeIdIs "App::DocumentObjectGroup")
                                    (getObjectsByLabel GROUP_LABEL_ORIGIN_LINES d))).
  { induction FL as [|o o' l l' K _ IH]; simpl; [reflexivity|].
    destruct K as (N & _ & T & _). unfold typeIdIs at 1 3. rewrite <- T.
    destruct (String.eqb (TypeId o) "App::DocumentObjectGroup");
      [simpl; now rewrite N|exact IH]. }
  destruct FL as [|o o' l l' K FL]; [reflexivity|exact E].
Qed.

Lemma unique_name d a b :
  NoDup (names d) -> In a d -> In b d -> ObjName a = ObjName b -> a = b.
Proof.
  unfold names. induction d as [|o d IH]; simpl; intros Hn Ha Hb E; [contradiction|].
  inversion Hn as [|? ? Hno Hnd]; subst.
  destruct Ha as [<-|Ha], Hb as [<-|Hb]; auto.
  - exfalso. apply Hno. rewrite E. now apply in_map.
  - exfalso. apply Hno. rewrite <- E. now apply in_map.
Qed.

Lemma findGroup_labelled label d g :
  findGroup label d = Some g ->
  exists o, In o d /\ ObjName o = g /\ Label o = label.
Proof.
  unfold findGroup. destruct (getObjectsByLabel label d) as [|o l] eqn:E; [discriminate|].
  destruct (find (typeIdIs "App::DocumentObjectGroup") (o :: l)) as [og|] eqn:F;
    [|discriminate].
  intros [= <-]. apply find_some in F. destruct F as [Hin _].
  rewrite <- E in Hin. unfold getObjectsByLabel in Hin. apply filter_In in Hin.
  destruct Hin as [Hin Hl]. exists og. repeat split; [assumption|].
  now apply String.eqb_eq.
Qed.

Lemma grown_groupOk d d' :
  NoDup (names d) -> grown d d' ->
  groupOk d GROUP_LABEL_ORIGIN_LINES = true ->
  groupOk d' GROUP_LABEL_ORIGIN_LINES = true.
Proof.
  intros Hn G H. unfold groupOk in *. rewrite (grown_originGroup d d' G).
  destruct (findGroup GROUP_LABEL_ORIGIN_LINES d) as [g|] eqn:Eg; [|reflexivity].
  destruct (find (named g) d) as [grp|] eqn:Ef; [|discriminate].
  destruct (grown_find d d' g grp G Ef) as (grp' & -> & K).
  destruct (findGroup_labelled _ _ _ Eg) as (og & Hin & Hname & Hlabel).
  assert (E : grp = og).
  { apply (unique_name d); [assumption| |assumption|].
    - apply find_some in Ef. tauto.
    - rewrite Hname. now apply find_named_name in Ef. }
  destruct K as (_ & _ & _ & _ & _ & HG). rewrite <- HG by congruence.
  rewrite forallb_forall in *. intros m Hm. apply (grown_memberOk d d' m G). auto.
Qed.

Lemma hostOk_Host s : hostOk s = true -> Host s.
Proof.
  unfold hostOk, Host. rewrite andb_true_iff. intros [D F]. split.
  - now apply distinct_NoDup.
  - intros n Hn. rewrite forallb_forall in F. apply Nat.ltb_lt. now apply F.
Qed.

Lemma names_updObject n f d :
  (forall o, ObjName (f o) = ObjName o) -> names (updObject n f d) = names d.
Proof.
  intro Hf. unfold names, updObject. rewrite map_map.
  apply map_ext. intro o. now destruct (named n o).
Qed.

Lemma updObject_absent n f d :
  ~ In n (names d) -> updObject n f d = d.
Proof.
  unfold names, updObject. induction d as [|o d IH]; simpl; intro H; [reflexivity|].
  destruct (named n o) eqn:E.
  - exfalso. apply H. left. now apply Nat.eqb_eq in E.
  - f_equal. apply IH. tauto.
Qed.

Lemma updObject_app n f d e :
  updObject n f (d ++ e) = updObject n f d ++ updObject n f e.
Proof. unfold updObject. apply map_app. Qed.

Lemma live_app_new d o : live (d ++ [o]) (ObjName o) = true.
Proof.
  apply live_names. unfold names. rewrite map_app. apply in_or_app. right. now left.
Qed.

Lemma NoDup_snoc {A} (l : list A) (a : A) :
  NoDup l -> ~ In a l -> NoDup (l ++ [a]).
Proof.
  induction 1 as [|x l Hx Hl IH]; simpl; intro Ha.
  - constructor; [intros []|constructor].
  - constructor.
    + intro Hin. apply in_app_or in Hin. destruct Hin as [Hin|[Hin|[]]].
      * contradiction.
      * apply Ha. now left.
    + apply IH. intro Hin. apply Ha. now right.
Qed.

Lemma Host_appended o s :
  Host s -> ObjName o = fresh s -> Host (appended o s).
Proof.
  intros [N F] E. unfold Host, appended, names in *. simpl. rewrite map_app. simpl. split.
  - apply NoDup_snoc; [assumption|]. intro Hin. specialize (F _ Hin). lia.
  - intros n Hn. apply in_app_or in Hn. destruct Hn as [Hn|[<-|[]]].
    + specialize (F n Hn). lia.
    + lia.
Qed.

Lemma updObject_snoc n f d o :
  ObjName o = n -> ~ In n (names d) -> updObject n f (d ++ [o]) = d ++ [f o].
Proof.
  intros E H. rewrite updObject_app, (updObject_absent n f d H).
  unfold updObject, named. simpl. now rewrite E, Nat.eqb_refl.
Qed.

Lemma Host_fresh s : Host s -> ~ In (fresh s) (names (doc s)).
Proof. intros [_ F] H. specialize (F _ H). lia. Qed.

Lemma modify_appended f o s :
  Host s -> ObjName o = fresh s ->
  modify (fresh s) f (appended o s) = Ok (appended (f o) s).
Proof.
  intros H E. rewrite modify_live.
  - unfold onDoc, appended. simpl. f_equal. f_equal.
    apply updObject_snoc; [assumption|now apply Host_fresh].
  - simpl. rewrite <- E. apply live_app_new.
Qed.

(** A line added by [drawLine] is appended to the document under the next
    free name. *)
Lemma drawLine_add i index prefix a b s line s' :
  Host s ->
  drawLine i EmptyString true (index, prefix, a, b) s = Ok (line, s') ->
  line = fresh s /\ s' = appended (addedLine s prefix a b) s.
Proof.
  intros H. unfold drawLine, addObject.
  change (mkState (win s) (doc s ++ [newObject (fresh s) "Part::Line" LINE_CENTER_NAME_PREFIX])
            (S (fresh s)) (selection s) (console s) (drawStyle s) (recomputes s))
    with (appended (newObject (fresh s) "Part::Line" LINE_CENTER_NAME_PREFIX) s).
  rewrite modify_appended by (assumption || reflexivity). cbn [bind].
  unfold appended at 1. cbn [win].
  rewrite modify_appended by (assumption || reflexivity). cbn [bind].
  rewrite modify_appended by (assumption || reflexivity). cbn [bind].
  rewrite modify_appended by (assumption || reflexivity). cbn [bind].
  intro E. inversion E. split; reflexivity.
Qed.

Lemma extends_refl s : Host s -> extends s s.
Proof. intro H. repeat split; try apply H; auto using grown_refl. Qed.

Lemma extends_trans s1 s2 s3 : extends s1 s2 -> extends s2 s3 -> extends s1 s3.
Proof.
  intros (H1 & W1 & F1 & G1) (H2 & W2 & F2 & G2). repeat split; try apply H2.
  - congruence.
  - lia.
  - eapply grown_trans; eassumption.
Qed.

Lemma extends_appended o s :
  Host s -> ObjName o = fresh s -> Label o <> GROUP_LABEL_ORIGIN_LINES ->
  extends s (appended o s) /\ live (doc (appended o s)) (fresh s) = true.
Proof.
  intros H E L. split.
  - split; [now apply Host_appended|]. split; [reflexivity|]. split; [simpl; lia|].
    simpl. now apply grown_app.
  - simpl. rewrite <- E. apply live_app_new.
Qed.

Lemma drawCenterMark_add i c off s lines s' :
  Host s ->
  drawCenterMark i c off EmptyString true s = Ok (lines, s') ->
  extends s s'
  /\ exists l1 l2 l3, lines = [l1; l2; l3]
       /\ newIn s (doc s') l1 /\ newIn s (doc s') l2 /\ newIn s (doc s') l3.
Proof.
  intros H. unfold drawCenterMark. destruct off as [[dx dy] dz].
  cbv zeta. cbn [drawLines]. intro E.
  apply bind_ok in E. destruct E as ([l1 s1] & E1 & E).
  apply bind_ok in E. destruct E as ([ls s2] & E2 & E).
  inversion E; subst; clear E.
  apply bind_ok in E2. destruct E2 as ([l2 s2'] & E2 & E).
  apply bind_ok in E. destruct E as ([ls' s3] & E3 & E).
  inversion E; subst; clear E.
  apply bind_ok in E3. destruct E3 as ([l3 s3'] & E3 & E).
  cbn [bind] in E. inversion E; subst; clear E.
  apply (drawLine_add _ _ _ _ _ _ _ _ H) in E1. destruct E1 as [-> ->].
  destruct (extends_appended
              (addedLine s LINE_CENTER_X_LABEL_PREFIX
                 (vadd (vsub c (mkVector (float_of_int (axesMarkerLineLength (win s))) zero zero))
                    (mkVector (float_of_int dx) (float_of_int dy) (float_of_int dz)))
                 (vadd (vadd c (mkVector (float_of_int (axesMarkerLineLength (win s))) zero zero))
                    (mkVector (float_of_int dx) (float_of_int dy) (float_of_int dz)))) s H eq_refl)
    as [X1 L1]; [discriminate|].
  set (s1 := appended _ s) in *.
  assert (H1 : Host s1) by apply X1.
  apply (drawLine_add _ _ _ _ _ _ _ _ H1) in E2. destruct E2 as [-> E2].
  match type of E2 with _ = appended ?o s1 =>
    destruct (extends_appended o s1 H1 eq_refl) as [X2 L2]; [discriminate|] end.
  subst s2'.
  set (s2 := appended _ s1) in *.
  assert (H2 : Host s2) by apply X2.
  apply (drawLine_add _ _ _ _ _ _ _ _ H2) in E3. destruct E3 as [-> E3].
  match type of E3 with _ = appended ?o s2 =>
    destruct (extends_appended o s2 H2 eq_refl) as [X3 L3]; [discriminate|] end.
  subst s'.
  set (s3 := appended _ s2) in *.
  split.
  - eapply extends_trans; [exact X1|]. eapply extends_trans; [exact X2|exact X3].
  - exists (fresh s), (fresh s1), (fresh s2). split; [reflexivity|].
    assert (G2 : grown (doc s2) (doc s3)) by apply X3.
    assert (G1 : grown (doc s1) (doc s2)) by apply X2.
    unfold newIn. repeat split.
    + lia.
    + eapply grown_live; [exact G2|]. eapply grown_live; [exact G1|]. exact L1.
    + destruct X1 as (_ & _ & F & _). exact F.
    + eapply grown_live; [exact G2|]. exact L2.
    + destruct X1 as (_ & _ & F & _). destruct X2 as (_ & _ & F' & _). lia.
    + exact L3.
Qed.

Lemma groupAdd_name n o : ObjName (groupAdd n o) = ObjName o.
Proof. unfold groupAdd. now destruct (existsb (Nat.eqb n) (Group o)). Qed.

Lemma groupAdd_label n o : Label (groupAdd n o) = Label o.
Proof. unfold groupAdd. now destruct (existsb (Nat.eqb n) (Group o)). Qed.

Lemma originKept_groupAdd n o :
  Label o <> GROUP_LABEL_ORIGIN_LINES -> originKept o (groupAdd n o).
Proof.
  intro L. unfold originKept, groupAdd.
  destruct (existsb (Nat.eqb n) (Group o)); simpl; repeat split; try reflexivity;
    intro; contradiction.
Qed.

(** Adding members to a group other than the group of the origin lines. *)
Lemma groupAdd_extends g lines : forall s s',
  Host s ->
  (exists og, In og (doc s) /\ ObjName og = g /\ Label og <> GROUP_LABEL_ORIGIN_LINES) ->
  forEach lines (fun obj s' => modify g (groupAdd obj) s') s = Ok s' ->
  extends s s'.
Proof.
  induction lines as [|l lines IH]; intros s s' H (og & Hin & Hg & HL) E.
  - inversion E; subst. now apply extends_refl.
  - simpl in E. apply bind_ok in E. destruct E as (s1 & E1 & E).
    apply modify_inv in E1. destruct E1 as [-> _].
    assert (N : names (updObject g (groupAdd l) (doc s)) = names (doc s))
      by (apply names_updObject; intro; apply groupAdd_name).
    assert (H1 : Host (onDoc (updObject g (groupAdd l)) s)).
    { destruct H as [D F]. split; simpl; rewrite N; assumption. }
    assert (X : extends s (onDoc (updObject g (groupAdd l)) s)).
    { split; [exact H1|]. split; [reflexivity|]. split; [simpl; lia|]. simpl.
      apply grown_upd. intros o Ho Hn. apply originKept_groupAdd.
      unfold named in Hn. apply Nat.eqb_eq in Hn.
      assert (o = og) as -> by (apply (unique_name (doc s)); try apply H; congruence).
      exact HL. }
    eapply extends_trans; [exact X|]. apply IH; [exact H1| |exact E].
    exists (groupAdd l og). split; [|split].
    + simpl. unfold updObject. apply in_map_iff. exists og. split; [|exact Hin].
      unfold named. now rewrite Hg, Nat.eqb_refl.
    + now rewrite groupAdd_name.
    + now rewrite groupAdd_label.
Qed.

Lemma addToGroup_temp lines s s' :
  Host s ->
  addToGroup lines GROUP_LABEL_TEMP_CENTER_LINES s = Ok s' ->
  extends s s'.
Proof.
  intros H. unfold addToGroup, getGroup.
  destruct (getObjectsByLabel GROUP_LABEL_TEMP_CENTER_LINES (doc s)) as [|o l] eqn:EL.
  - unfold addObject.
    change (mkState (win s)
              (doc s ++ [newObject (fresh s) "App::DocumentObjectGroup"
                           GROUP_LABEL_TEMP_CENTER_LINES])
              (S (fresh s)) (selection s) (console s) (drawStyle s) (recomputes s))
      with (appended (newObject (fresh s) "App::DocumentObjectGroup"
                        GROUP_LABEL_TEMP_CENTER_LINES) s).
    intro E.
    destruct (extends_appended
                (newObject (fresh s) "App::DocumentObjectGroup"
                   GROUP_LABEL_TEMP_CENTER_LINES) s H eq_refl) as [X _];
      [discriminate|].
    eapply extends_trans; [exact X|].
    eapply groupAdd_extends; [apply X| |exact E].
    eexists. split; [|split].
    + simpl. apply in_or_app. right. left. reflexivity.
    + reflexivity.
    + discriminate.
  - destruct (find (typeIdIs "App::DocumentObjectGroup") (o :: l)) as [og|] eqn:EF;
      cbn [option_map].
    + intro E. eapply groupAdd_extends; [exact H| |exact E].
      exists og. apply find_some in EF. destruct EF as [Hin _].
      rewrite <- EL in Hin. unfold getObjectsByLabel in Hin.
      apply filter_In in Hin. destruct Hin as [Hin HL].
      split; [exact Hin|]. split; [reflexivity|].
      apply String.eqb_eq in HL. rewrite HL. discriminate.
    + destruct lines as [|a lines]; intro E.
      * inversion E; subst. now apply extends_refl.
      * discriminate.
Qed.

Lemma newIn_later s1 s2 d d' n :
  fresh s1 <= fresh s2 -> grown d d' -> newIn s2 d n -> newIn s1 d' n.
Proof.
  intros F G [L V]. split; [lia|]. eapply grown_live; eassumption.
Qed.

Lemma newRow_later s1 s2 d d' row :
  fresh s1 <= fresh s2 -> grown d d' -> newRow s2 d row -> newRow s1 d' row.
Proof.
  intros F G (a & b & c & E & A & B & C). exists a, b, c.
  split; [exact E|]. repeat split; eapply newIn_later; eassumption.
Qed.

(** Drawing the center marks of the selection at the start of a drag adds
    one row of three new lines per selected object. *)
Lemma drawMarksFrom_add params : forall i s s',
  Host s ->
  drawMarksFrom i params 0 0 0 true s = Ok s' ->
  Host s' /\ fresh s <= fresh s' /\ grown (doc s) (doc s')
  /\ exists rows,
       win s' = set_centerLines (centerLines (win s) ++ rows) (win s)
       /\ List.length rows = List.length params
       /\ Forall (newRow s (doc s')) rows.
Proof.
  induction params as [|p params IH]; intros i s s' H E.
  - inversion E; subst. split; [exact H|]. split; [lia|]. split; [apply grown_refl|].
    exists []. rewrite app_nil_r. split; [now destruct (win s')|]. split; constructor.
  - simpl in E.
    apply bind_ok in E. destruct E as (o & _ & E).
    apply bind_ok in E. destruct E as (c & _ & E).
    apply bind_ok in E. destruct E as ([lines s1] & E1 & E).
    apply bind_ok in E. destruct E as (s2 & E2 & E).
    apply (drawCenterMark_add _ _ _ _ _ _ H) in E1.
    destruct E1 as [(H1 & W1 & F1 & G1) (a & b & c' & -> & A & B & C)].
    apply addToGroup_temp in E2; [|exact H1].
    destruct E2 as (H2 & W2 & F2 & G2). simpl in W2, F2, G2.
    apply IH in E; [|exact H2].
    destruct E as (H' & F' & G' & rows & W' & Len & Rows).
    split; [exact H'|]. split; [lia|].
    assert (G : grown (doc s1) (doc s')) by (eapply grown_trans; eassumption).
    split; [eapply grown_trans; eassumption|].
    exists ([a; b; c'] :: rows). split; [|split].
    + rewrite W', W2, W1. simpl. now rewrite <- app_assoc.
    + simpl. now rewrite Len.
    + constructor.
      * exists a, b, c'. split; [reflexivity|].
        repeat split; try apply A; try apply B; try apply C;
          (eapply grown_live; [exact G|]); try apply A; try apply B; apply C.
      * eapply Forall_impl; [|exact Rows]. intros row R.
        eapply newRow_later; [| |exact R]; [lia|apply grown_refl].
Qed.

Lemma retouched_refl s : retouched s s.
Proof. repeat split. apply grown_refl. Qed.

Lemma retouched_trans s1 s2 s3 :
  retouched s1 s2 -> retouched s2 s3 -> retouched s1 s3.
Proof.
  intros (W1 & F1 & N1 & G1) (W2 & F2 & N2 & G2).
  repeat split; try congruence. eapply grown_trans; eassumption.
Qed.

Lemma setBoundingBox_retouched n b s s' :
  modify n (setBoundingBox b) s = Ok s' -> retouched s s'.
Proof.
  intro E. apply modify_inv in E. destruct E as [-> _].
  split; [reflexivity|]. split; [reflexivity|]. split.
  - simpl. now apply names_updObject.
  - simpl. apply grown_upd. intros o _ _. repeat split.
Qed.

Lemma vec_eqb_refl v : vec_eqb v v = true.
Proof.
  unfold vec_eqb.
  rewrite !(proj2 (FloatAxioms.Leibniz.eqb_spec _ _) eq_refl). reflexivity.
Qed.

Lemma notIn_above L a k :
  (forall n, In n L -> n < k) -> k <= a -> notIn L a = true.
Proof.
  intros HL Hk. unfold notIn. apply negb_true_iff.
  destruct (existsb (Nat.eqb a) L) eqn:E; [|reflexivity].
  apply existsb_exists in E. destruct E as (x & Hx & Hax).
  apply Nat.eqb_eq in Hax. subst x. specialize (HL _ Hx). lia.
Qed.

Lemma newRow_rowOk s d L row :
  (forall n, In n L -> n < fresh s) -> newRow s d row -> rowOk d L row = true.
Proof.
  intros HL (a & b & c & -> & [A1 A2] & [B1 B2] & [C1 C2]).
  unfold rowOk. rewrite A2, B2, C2.
  rewrite !(notIn_above L _ (fresh s)) by assumption. reflexivity.
Qed.

(** The parts of [dragReady]. *)
Lemma dragReady_intro s :
  transformActive (win s) = true ->
  Forall ((fun p => hasCenter (doc s) (object p) = true)) (selectedObjsParams (win s)) ->
  (forall p q, In p (selectedObjsParams (win s)) -> In q (selectedObjsParams (win s)) ->
               object p = object q -> base p = base q) ->
  (chkCenterMarks (ui (win s)) = true ->
   List.length (selectedObjsParams (win s)) = List.length (centerLines (win s))
   /\ Forall (fun row => rowOk (doc s) (map object (centerLinesParams (win s))) row = true)
        (centerLines (win s))) ->
  (chkSnap (ui (win s)) = true ->
   Forall (fun n => live (doc s) n = true) (map object (centerLinesParams (win s)))
   /\ groupOk (doc s) GROUP_LABEL_ORIGIN_LINES = true) ->
  dragReady s = true.
Proof.
  intros T C S M N. unfold dragReady. rewrite T. cbn [andb].
  repeat (apply andb_true_intro; split).
  - apply forallb_forall. intros p Hp. rewrite Forall_forall in C.
    apply hasCenter_live, (C p Hp).
  - apply forallb_forall. intros p Hp. apply forallb_forall. intros q Hq.
    unfold sameCapture. destruct (Nat.eqb (object p) (object q)) eqn:E; [|reflexivity].
    apply Nat.eqb_eq in E. rewrite (S p q Hp Hq E). apply vec_eqb_refl.
  - destruct (chkCenterMarks (ui (win s))); [|reflexivity].
    destruct (M eq_refl) as [Len Rows].
    repeat (apply andb_true_intro; split).
    + apply forallb_forall. intros p Hp. rewrite Forall_forall in C. apply (C p Hp).
    + apply Nat.leb_le. lia.
    + rewrite Len, firstn_all. apply forallb_forall. rewrite Forall_forall in Rows.
      exact Rows.
  - destruct (chkSnap (ui (win s))); [|reflexivity].
    destruct (N eq_refl) as [Lv G]. apply andb_true_intro. split; [|exact G].
    apply forallb_forall. rewrite Forall_forall in Lv. exact Lv.
Qed.

Lemma captured_same d p q :
  captured d p -> captured d q -> object p = object q -> base p = base q.
Proof.
  intros [_ P] [_ Q] E. rewrite E in P. rewrite P in Q. now inversion Q.
Qed.

Lemma Host_same s s' :
  Host s -> names (doc s') = names (doc s) -> fresh s' = fresh s -> Host s'.
Proof. intros [D F] N E. unfold Host. rewrite N, E. now split. Qed.

(** Pressing a slider starts a drag: in a document whose names are distinct,
    the state [sldPressed] returns is [dragReady], and the base it holds for
    each selected object is the one the object had when the slider was
    pressed. *)
Lemma sldPressed_dragReady s s' :
  hostOk s = true ->
  sldPressed s = Ok s' ->
  dragReady s' = true
  /\ Forall (captured (doc s)) (selectedObjsParams (win s')).
Proof.
  intros Hh E. apply hostOk_Host in Hh. unfold sldPressed in E. cbv zeta in E.
  apply bind_ok in E. destruct E as ([sel1 sB] & E1 & E). cbv beta iota in E.
  apply bind_ok in E. destruct E as ([sel2 sD] & E2 & E). cbv beta iota in E.
  apply bind_ok in E. destruct E as (sF & E3 & E).
  apply bind_ok in E. destruct E as ([cl1 sG] & E4 & E). cbv beta iota in E.
  apply bind_ok in E. destruct E as ([cl2 sI] & E5 & E). cbv beta iota in E.
  apply getSelectedObjects_captured in E1. destruct E1 as [(WB & DB & FB) C1].
  apply getSelectedObjects_captured in E2. destruct E2 as [(WD & DD & FD) C2].
  simpl in WB, DB, FB, WD, DD, FD, C1, C2.
  rewrite DB in C2, DD.
  set (sE := onWin _ sD) in *.
  assert (R : retouched sE sF).
  { destruct (chkBoundingBoxes (ui (win sE))).
    - revert E3. apply forEach_inv.
      + apply retouched_refl.
      + apply retouched_trans.
      + intros p t t' _. apply setBoundingBox_retouched.
    - inversion E3. apply retouched_refl. }
  clear E3. destruct R as (WF & FF & NF & GF).
  apply getGroupObjects_inv in E4. destruct E4 as [(WG & DG & FG) [_ L1]].
  apply getGroupObjects_inv in E5. destruct E5 as [(WI & DI & FI) [GO L2]].
  simpl in WI, DI, FI, GO, L2. rewrite DG in *.
  set (sK := onWin (set_transformActive true) _) in *.
  set (sL := if chkWireFrame (ui (win sK)) then _ else _) in *.
  assert (HL : exists x, win sL = set_drawStyleRevertAction x (win sK)
                         /\ doc sL = doc sK /\ fresh sL = fresh sK).
  { subst sL. destruct (chkWireFrame (ui (win sK))).
    - destruct (find (fun i => Nat.eqb i (drawStyle sK)) (seq 0 7)) as [a|].
      + exists (Some a). repeat split.
      + exists (drawStyleRevertAction (win sK)). repeat split.
    - exists None. repeat split. }
  destruct HL as (x & WL & DL & FL). clearbody sL.
  assert (WK : win sK
               = set_transformActive true
                   (set_centerLinesParams (cl1 ++ cl2)
                      (set_selectedObjsParams (sel1 ++ sel2)
                         (set_centerLines [] (win s))))).
  { subst sK. simpl. rewrite WI. simpl. rewrite WG, WF. subst sE. simpl.
    rewrite WD. simpl. rewrite WB. reflexivity. }
  assert (DK : doc sK = doc sF) by (subst sK; simpl; congruence).
  assert (FK : fresh sK = fresh s).
  { subst sK. simpl. rewrite FI. simpl. rewrite FG, FF. subst sE. simpl. congruence. }
  assert (DE : doc sE = doc s) by (subst sE; simpl; congruence).
  rewrite DE in GF, NF.
  rewrite WK in WL. rewrite DK in DL. rewrite FK in FL.
  clear WK DK FK DE WB DB FB WD DD FD WG DG FG WI DI FI WF FF sK sE.
  assert (HostL : Host sL) by (apply (Host_same s); congruence).
  assert (Low : forall n, In n (map object (cl1 ++ cl2)) -> n < fresh sL).
  { intros n Hn. rewrite FL. apply Hh. rewrite <- NF. apply live_names.
    apply in_map_iff in Hn. destruct Hn as (p & <- & Hp).
    apply in_app_or in Hp. rewrite Forall_forall in L1, L2.
    destruct Hp as [Hp|Hp]; [apply (L1 p Hp)|apply (L2 p Hp)]. }
  assert (Lv : Forall (fun n => live (doc sL) n = true) (map object (cl1 ++ cl2))).
  { rewrite DL. apply Forall_forall. intros n Hn.
    apply in_map_iff in Hn. destruct Hn as (p & <- & Hp).
    apply in_app_or in Hp. rewrite Forall_forall in L1, L2.
    destruct Hp as [Hp|Hp]; [apply (L1 p Hp)|apply (L2 p Hp)]. }
  assert (Cap : Forall (captured (doc s)) (sel1 ++ sel2))
    by (apply Forall_app; now split).
  assert (Grow : exists rows,
             win s' = set_centerLines rows (win sL)
             /\ grown (doc sL) (doc s')
             /\ (chkCenterMarks (ui (win sL)) = true ->
                 List.length (sel1 ++ sel2) = List.length rows
                 /\ Forall (newRow sL (doc s')) rows)).
  { destruct (chkCenterMarks (ui (win sL))) eqn:CM.
    - unfold drawCenterMarks in E. apply drawMarksFrom_add in E; [|exact HostL].
      destruct E as (_ & _ & G & rows & W & Len & Rows).
      exists rows. rewrite W, WL. simpl. split; [reflexivity|]. split; [exact G|].
      intros _. rewrite WL in Len. simpl in Len. split; [now symmetry|exact Rows].
    - inversion E; subst s'. exists (centerLines (win sL)).
      split; [now destruct (win sL)|]. split; [apply grown_refl|]. discriminate. }
  destruct Grow as (rows & W' & G' & Marks).
  assert (G : grown (doc s) (doc s')).
  { eapply grown_trans; [exact GF|]. rewrite <- DL. exact G'. }
  assert (Sel : selectedObjsParams (win s') = sel1 ++ sel2)
    by (rewrite W', WL; reflexivity).
  assert (Lns : centerLinesParams (win s') = cl1 ++ cl2)
    by (rewrite W', WL; reflexivity).
  assert (Rws : centerLines (win s') = rows) by (rewrite W'; reflexivity).
  assert (U : ui (win s') = ui (win sL)) by (rewrite W'; reflexivity).
  split; [|now rewrite Sel].
  apply dragReady_intro.
  - rewrite W', WL. reflexivity.
  - rewrite Sel. eapply Forall_impl; [|exact Cap].
    intros p [Hc _]. eapply grown_hasCenter; eassumption.
  - rewrite Sel. intros p q Hp Hq. rewrite Forall_forall in Cap.
    apply (captured_same (doc s)); auto.
  - rewrite U, Sel, Lns, Rws. intro CM. destruct (Marks CM) as [Len Rows].
    split; [exact Len|]. eapply Forall_impl; [|exact Rows].
    intros row. now apply newRow_rowOk.
  - rewrite Lns. intros _. split.
    + eapply Forall_impl; [|exact Lv]. intros n. now apply grown_live.
    + apply (grown_groupOk (doc sL)); [apply HostL|exact G'|]. now rewrite DL.
Qed.

(** C6. A press of a translation slider captures, for every selected object,
    the base the object has at that moment; after any sequence of
    [valueChanged] events of the translation sliders in the drag that
    follows, every selected object is at that captured base plus the
    translation of the last event alone, as if that event had been the only
    one: the placement does not depend on the events before it, and
    delivering the same value twice gives the same placement as once. *)
Theorem placement_follows_last_event (fuel : nat) (s0 s : State)
  (es : list Event) (e : Event) :
  hostOk s0 = true ->
  sldPressed s0 = Ok s ->
  (forall p, In p (selectedObjsParams (win s)) ->
             baseOf (doc s0) (object p) = Some (base p))
  /\ placesSelection s (forEach (es ++ [e]) (deliver (S fuel)) s) (eventOffset e s)
  /\ placesSelection s (deliver (S fuel) e s) (eventOffset e s)
  /\ placesSelection s (forEach [e; e] (deliver (S fuel)) s) (eventOffset e s).
Proof.
  intros Hh Hp. destruct (sldPressed_dragReady s0 s Hh Hp) as [Hr Hc]. split.
  - intros p Hin. rewrite Forall_forall in Hc. apply (Hc p Hin).
  - apply placement_during_drag, Hr.
Qed.

Lemma placement_follows_last_event_witness :
  hostOk (select [0%nat] (exMarked true 0)) = true
  /\ sldPressed (select [0%nat] (exMarked true 0)) = Ok (exPressed true 0)
  /\ placesSelection (exPressed true 0)
       (forEach ([(AxisX, 7%Z); (AxisX, 3%Z)] ++ [(AxisX, 5%Z)]) (deliver 1)
          (exPressed true 0))
       (eventOffset (AxisX, 5%Z) (exPressed true 0)).
Proof.
  split; [vm_compute; reflexivity|]. split; [vm_compute; reflexivity|].
  refine (proj1 (proj2 (placement_follows_last_event 0
                          (select [0%nat] (exMarked true 0)) (exPressed true 0)
                          [(AxisX, 7%Z); (AxisX, 3%Z)] (AxisX, 5%Z) _ _)));
    vm_compute; reflexivity.
Defined.

(* ================================================================== *)
(** ** What the selection filter returns *)







Lemma says_nil s : says s s [].
Proof. unfold says. rewrite app_nil_r. now destruct s. Qed.

Lemma says_print m s : says s (PrintMessage m s) [m].
Proof. reflexivity. Qed.

Lemma says_trans s1 s2 s3 l1 l2 :
  says s1 s2 l1 -> says s2 s3 l2 -> says s1 s3 (l1 ++ l2).
Proof. unfold says. intros -> ->. simpl. now rewrite app_assoc. Qed.





(* ================================================================== *)
(** ** The window after a press *)











(* ================================================================== *)
(** ** What the controller leaves to the host *)

Lemma steady_refl s : steady s s.
Proof. repeat split. Qed.

Lemma steady_trans s1 s2 s3 : steady s1 s2 -> steady s2 s3 -> steady s1 s3.
Proof. intros (A & B & C) (A' & B' & C'). repeat split; congruence. Qed.

Lemma says_steady s s' msgs : says s s' msgs -> steady s s'.
Proof. intros ->. repeat split. Qed.


Lemma forEach_steady {A : Type} (body : A -> State -> Exc State) (l : list A) :
  (forall a s s', In a l -> body a s = Ok s' -> steady s s') ->
  forall s s', forEach l body s = Ok s' -> steady s s'.
Proof. apply forEach_inv; [apply steady_refl|apply steady_trans]. Qed.

Lemma removeObject_steady n s s' : removeObject n s = Ok s' -> steady s s'.
Proof.
  unfold removeObject. intro H. apply bind_ok in H. destruct H as (o & _ & H).
  injection H as <-. repeat split.
Qed.



Lemma nonFaces_says members : forall s objs s',
  nonFaces members s = Ok (objs, s') -> exists msgs, says s s' msgs.
Proof.
  induction members as [|m members IH]; intros s objs s' H; simpl in H.
  - injection H as _ <-. eexists. apply says_nil.
  - apply bind_ok in H. destruct H as (o & _ & H).
    apply bind_ok in H. destruct H as (c & _ & H).
    destruct (isFace c).
    + apply IH in H. destruct H as (msgs & H). eexists.
      eapply says_trans; [apply says_print|exact H].
    + apply bind_ok in H. destruct H as ([objs1 s1] & H1 & H).
      injection H as _ <-. eauto.
Qed.

Lemma getGroupObjects_says label s ps s' :
  getGroupObjects label s = Ok (ps, s') -> exists msgs, says s s' msgs.
Proof.
  unfold getGroupObjects. rewrite getGroup_false.
  destruct (findGroup label (doc s)) as [g|].
  - intro H. apply bind_ok in H. destruct H as (grp & _ & H).
    apply bind_ok in H. destruct H as ([objs s2] & H2 & H).
    apply bind_ok in H. destruct H as (gs & _ & H). injection H as _ <-.
    now apply nonFaces_says in H2.
  - intro H. injection H as _ <-. eexists. apply says_nil.
Qed.


Lemma removeGroup_steady label s s' : removeGroup label s = Ok s' -> steady s s'.
Proof.
  unfold removeGroup, removeObjectsByLabel. intro H.
  apply bind_ok in H. destruct H as ([ps s1] & H1 & H).
  apply bind_ok in H. destruct H as (s2 & H2 & H).
  apply getGroupObjects_says in H1. destruct H1 as (msgs & H1).
  apply says_steady in H1.
  apply (steady_trans _ s1); [exact H1|]. apply (steady_trans _ s2).
  - revert H2. apply forEach_steady. intros a t t' _. apply removeObject_steady.
  - revert H. apply forEach_steady. intros a t t' _. apply removeObject_steady.
Qed.



















(* ================================================================== *)
(** ** Slider changes with nothing selected *)



(* ================================================================== *)
(** ** Center marks ticked during a drag *)




(* ================================================================== *)
(** ** What a slider event keeps *)



(* ================================================================== *)
(** ** Reading a group *)



(* ================================================================== *)
(** ** Removal by label *)







(* ================================================================== *)
(** ** The origin mark *)











Lemma Host_above s k : Host s -> ~ In (k + fresh s) (names (doc s)).
Proof. intros [_ F] H. specialize (F _ H). lia. Qed.












(* ================================================================== *)
(** ** The origin mark, on and off *)

Lemma docRemove_app n d e : docRemove n (d ++ e) = docRemove n d ++ docRemove n e.
Proof. unfold docRemove. now rewrite filter_app, map_app. Qed.

Lemma setGroup_same o : setGroup (Group o) o = o.
Proof. now destruct o. Qed.

Lemma docRemove_absent n d :
  ~ In n (names d) -> (forall o, In o d -> ~ In n (Group o)) -> docRemove n d = d.
Proof.
  unfold docRemove, names. induction d as [|o d IH]; simpl; intros Hn Hg; [reflexivity|].
  unfold named at 1. destruct (Nat.eqb_spec (ObjName o) n) as [E|_]; simpl.
  - exfalso. apply Hn. now left.
  - f_equal.
    + replace (filter (fun m => negb (Nat.eqb m n)) (Group o)) with (Group o);
        [apply setGroup_same|].
      symmetry. apply forallb_filter_id. apply forallb_forall. intros m Hm.
      apply negb_true_iff, Nat.eqb_neq. intros ->. exact (Hg o (or_introl eq_refl) Hm).
    + apply IH; [tauto|]. intros o' Ho'. apply Hg. now right.
Qed.

Lemma groupsBelow_above s k o :
  groupsBelow s = true -> In o (doc s) -> ~ In (k + fresh s) (Group o).
Proof.
  unfold groupsBelow. intros H Ho Hin. rewrite forallb_forall in H.
  specialize (H o Ho). rewrite forallb_forall in H. specialize (H _ Hin).
  apply Nat.ltb_lt in H. lia.
Qed.

Lemma docRemove_tail s k e :
  Host s -> groupsBelow s = true ->
  docRemove (k + fresh s) (doc s ++ e) = doc s ++ docRemove (k + fresh s) e.
Proof.
  intros Hh Hg. rewrite docRemove_app. f_equal.
  apply docRemove_absent; [now apply Host_above|].
  intros o Ho. now apply groupsBelow_above.
Qed.






(* ================================================================== *)
(** ** Members of a group *)









(* ================================================================== *)
(** ** The lines of a center mark *)








(* ================================================================== *)
(** ** The step of the sliders *)






(* ================================================================== *)
(** ** A release without a press *)







(* ================================================================== *)
(** ** The line a snap highlights *)




(* ================================================================== *)
(** ** Reset of the placements *)






(* ================================================================== *)
(** ** The window flag of the top-most window *)



(* ================================================================== *)
(** ** Selection filtering *)

Lemma says_doc s s' msgs : says s s' msgs -> doc s' = doc s.
Proof. now intros ->. Qed.

Lemma selectMembers_filter members : forall s,
  forallb (live (doc s)) members = true ->
  exists s', selectMembers members s = Ok (filter (allowed (doc s)) members, s')
    /\ says s s' (notSelected (doc s) members).
Proof.
  induction members as [|m members IH]; intros s H; cbn [selectMembers].
  - exists s. split; [reflexivity|apply says_nil].
  - simpl in H. apply andb_true_iff in H. destruct H as [Hm Hr].
    unfold live in Hm. unfold getObject.
    destruct (find (named m) (doc s)) as [o|] eqn:Ef; [|discriminate].
    assert (Ea : allowed (doc s) m = str_in (split_head (TypeId o)) allowedTypeIds)
      by (unfold allowed; now rewrite Ef).
    assert (El : labelOf (doc s) m = Label o) by (unfold labelOf; now rewrite Ef).
    cbn [bind]. unfold notSelected. cbn [filter]. rewrite Ea. unfold classify.
    destruct (str_in (split_head (TypeId o)) allowedTypeIds); cbn [negb map].
    + destruct (IH s Hr) as (s' & -> & S). cbn [bind].
      exists s'. split; [reflexivity|exact S].
    + destruct (IH (PrintMessage (notSelecting (Label o)) s) Hr) as (s' & -> & S).
      exists s'. split; [reflexivity|]. rewrite El.
      exact (says_trans _ _ _ [_] _ (says_print _ s) S).
Qed.

Lemma selectObjects_filter sel : forall s,
  forallb (live (doc s)) sel = true ->
  forallb (live (doc s)) (candidates (doc s) sel) = true ->
  exists s', selectObjects sel s = Ok (filter (allowed (doc s)) (candidates (doc s) sel), s')
    /\ says s s' (notSelected (doc s) (candidates (doc s) sel)).
Proof.
  induction sel as [|n rest IH]; intros s Hs Hc; cbn [selectObjects].
  - exists s. split; [reflexivity|apply says_nil].
  - simpl in Hs. apply andb_true_iff in Hs. destruct Hs as [Hn Hs].
    unfold candidates in Hc |- *. cbn [flat_map] in Hc |- *.
    fold (candidates (doc s) rest) in Hc |- *.
    unfold live in Hn. unfold getObject.
    destruct (find (named n) (doc s)) as [obj|] eqn:Ef; [|discriminate].
    cbn [bind]. rewrite forallb_app in Hc. apply andb_true_iff in Hc.
    destruct Hc as [Hc1 Hc2].
    destruct (typeIdIs "App::DocumentObjectGroup" obj).
    + destruct (selectMembers_filter (Group obj) s Hc1) as (s1 & -> & S1).
      cbn [bind]. pose proof (says_doc _ _ _ S1) as D1.
      destruct (IH s1) as (s2 & E2 & S2); [now rewrite D1|now rewrite D1|].
      rewrite E2. cbn [bind]. rewrite D1 in S2 |- *. exists s2. split.
      * now rewrite filter_app.
      * unfold notSelected in *. rewrite filter_app, map_app.
        eapply says_trans; eassumption.
    + assert (Ea : allowed (doc s) n = str_in (split_head (TypeId obj)) allowedTypeIds)
        by (unfold allowed; now rewrite Ef).
      assert (El : labelOf (doc s) n = Label obj) by (unfold labelOf; now rewrite Ef).
      unfold classify. unfold notSelected. cbn [app filter]. rewrite Ea.
      destruct (str_in (split_head (TypeId obj)) allowedTypeIds); cbn [negb map bind].
      * destruct (IH s Hs Hc2) as (s' & -> & S). cbn [bind].
        exists s'. split; [reflexivity|exact S].
      * destruct (IH (PrintMessage (notSelecting (Label obj)) s) Hs Hc2)
          as (s' & -> & S).
        exists s'. split; [reflexivity|]. rewrite El.
        exact (says_trans _ _ _ [_] _ (says_print _ s) S).
Qed.

(** C5. The filter of [getSelectedObjects] propagates no exception, for an
    object selected directly as for a member of a selected group: the test of
    the type raises nothing on an object of the document, so that the filter
    returns the candidates whose [TypeId] starts with an allowed prefix, and
    logs [Not selecting] for each of the others.  An exception of
    [getSelectedObjects] is one of the records built after the filter. *)
Theorem selection_filter_never_raises (extended : bool) (s : State) :
  selectionOk s = true ->
  exists s1,
    selectObjects (selection s) s
    = Ok (filter (allowed (doc s)) (candidates (doc s) (selection s)), s1)
    /\ says s s1 (notSelected (doc s) (candidates (doc s) (selection s)))
    /\ getSelectedObjects extended s
       = (selObjs <- mapExc (objectParameters (doc s))
                      (filter (allowed (doc s)) (candidates (doc s) (selection s))) ;;
          Ok (selObjs, s1)).
Proof.
  unfold selectionOk. intro H. apply andb_true_iff in H. destruct H as [Hs Hc].
  destruct (selectObjects_filter _ s Hs Hc) as (s1 & E & S).
  exists s1. split; [exact E|]. split; [exact S|].
  unfold getSelectedObjects. rewrite E. cbn [bind].
  now rewrite (says_doc _ _ _ S).
Qed.

Lemma selection_filter_never_raises_witness :
  selectionOk (exFolder [1%nat; 3%nat; 2%nat]) = true
  /\ exists s1,
       selectObjects (selection (exFolder [1%nat; 3%nat; 2%nat]))
         (exFolder [1%nat; 3%nat; 2%nat])
       = Ok (filter (allowed (doc (exFolder [1%nat; 3%nat; 2%nat])))
               (candidates (doc (exFolder [1%nat; 3%nat; 2%nat]))
                  (selection (exFolder [1%nat; 3%nat; 2%nat]))), s1)
       /\ says (exFolder [1%nat; 3%nat; 2%nat]) s1
            (notSelected (doc (exFolder [1%nat; 3%nat; 2%nat]))
               (candidates (doc (exFolder [1%nat; 3%nat; 2%nat]))
                  (selection (exFolder [1%nat; 3%nat; 2%nat]))))
       /\ getSelectedObjects true (exFolder [1%nat; 3%nat; 2%nat])
          = (selObjs <- mapExc (objectParameters (doc (exFolder [1%nat; 3%nat; 2%nat])))
                         (filter (allowed (doc (exFolder [1%nat; 3%nat; 2%nat])))
                            (candidates (doc (exFolder [1%nat; 3%nat; 2%nat]))
                               (selection (exFolder [1%nat; 3%nat; 2%nat])))) ;;
             Ok (selObjs, s1)).
Proof.
  split; [reflexivity|].
  refine (selection_filter_never_raises true (exFolder [1%nat; 3%nat; 2%nat]) _).
  reflexivity.
Defined.

(* ================================================================== *)
(** ** The release of the slider *)

(** *** The console during the release *)

Lemma nonFaces_log members : forall s objs s',
  nonFaces members s = Ok (objs, s') ->
  says s s' (map (fun m => notSelecting (labelOf (doc s) m))
               (filter (isFaceMember (doc s)) members)).
Proof.
  induction members as [|m members IH]; intros s objs s' H; cbn [nonFaces] in H.
  - injection H as _ <-. apply says_nil.
  - apply bind_ok in H. destruct H as (o & Ho & H).
    apply bind_ok in H. destruct H as (c & Hc & H).
    unfold getObject in Ho.
    destruct (find (named m) (doc s)) as [o'|] eqn:Ef; [|discriminate].
    injection Ho as ->. unfold shapeType in Hc.
    destruct (Shape o) as [sh|] eqn:Es; [|discriminate]. injection Hc as <-.
    assert (Ef' : isFaceMember (doc s) m = isFace (shapeClass sh))
      by (unfold isFaceMember; now rewrite Ef, Es).
    assert (El : labelOf (doc s) m = Label o) by (unfold labelOf; now rewrite Ef).
    cbn [filter]. rewrite Ef'. destruct (isFace (shapeClass sh)).
    + apply IH in H. cbn [map]. rewrite El.
      exact (says_trans _ _ _ [_] _ (says_print _ s) H).
    + apply bind_ok in H. destruct H as ([objs1 s1] & H1 & H). injection H as _ <-.
      now apply IH in H1.
Qed.

Lemma getGroupObjects_log label s ps s' :
  getGroupObjects label s = Ok (ps, s') -> says s s' (skipped (doc s) label).
Proof.
  unfold getGroupObjects, skipped, faceMembers. rewrite getGroup_false.
  destruct (findGroup label (doc s)) as [g|].
  - intro H. apply bind_ok in H. destruct H as (grp & Hg & H).
    unfold getObject in Hg.
    destruct (find (named g) (doc s)) as [grp'|]; [|discriminate]. injection Hg as ->.
    apply bind_ok in H. destruct H as ([objs s2] & H2 & H).
    apply bind_ok in H. destruct H as (gs & _ & H). injection H as _ <-.
    now apply nonFaces_log in H2.
  - intros [= _ <-]. apply says_nil.
Qed.

Lemma says_console s s' msgs : says s s' msgs -> console s' = console s ++ msgs.
Proof. now intros ->. Qed.

Lemma modify_console n f s s' : modify n f s = Ok s' -> console s' = console s.
Proof. intro H. apply modify_inv in H. now destruct H as [-> _]. Qed.

Lemma removeObject_console n s s' : removeObject n s = Ok s' -> console s' = console s.
Proof.
  unfold removeObject. intro H. apply bind_ok in H. destruct H as (o & _ & H).
  now injection H as <-.
Qed.

Lemma forEach_console {A : Type} (body : A -> State -> Exc State) (l : list A) :
  (forall a s s', In a l -> body a s = Ok s' -> console s' = console s) ->
  forall s s', forEach l body s = Ok s' -> console s' = console s.
Proof.
  intro Hb. apply (forEach_inv (fun a b => console b = console a)).
  - reflexivity.
  - intros s1 s2 s3 E1 E2. congruence.
  - exact Hb.
Qed.

Lemma removeGroup_console label s s' :
  removeGroup label s = Ok s' -> console s' = console s ++ skipped (doc s) label.
Proof.
  unfold removeGroup. intro H.
  apply bind_ok in H. destruct H as ([ps s1] & H1 & H).
  apply bind_ok in H. destruct H as (s2 & H2 & H).
  apply getGroupObjects_log, says_console in H1.
  apply forEach_console in H2; [|intros a t t' _; apply removeObject_console].
  unfold removeObjectsByLabel in H.
  apply forEach_console in H; [|intros a t t' _; apply removeObject_console].
  congruence.
Qed.

Lemma formatOriginLine_console p s s' :
  formatOriginLine p s = Ok s' -> console s' = console s.
Proof.
  unfold formatOriginLine. intro H. apply bind_ok in H. destruct H as (o & _ & H).
  repeat match type of H with
         | (if ?c then _ else _) = _ => destruct c
         end;
    try (apply bind_ok in H; destruct H as (s1 & H1 & H);
         apply modify_console in H1, H; congruence).
  now injection H as <-.
Qed.

Lemma formatOriginMark_console s s' :
  formatOriginMark s = Ok s' -> exists msgs, console s' = console s ++ msgs.
Proof.
  unfold formatOriginMark. intro H.
  apply bind_ok in H. destruct H as ([ps s1] & H1 & H).
  apply getGroupObjects_log, says_console in H1.
  apply forEach_console in H; [|intros a t t' _; apply formatOriginLine_console].
  eexists. rewrite H. exact H1.
Qed.

Lemma clearHighlight_console n s s' :
  clearHighlight n s = Ok s' -> console s' = console s.
Proof.
  unfold clearHighlight. intro H. apply bind_ok in H. destruct H as (o & _ & H).
  destruct (negb (isOriginLine (Label o))).
  - apply bind_ok in H. destruct H as (s1 & H1 & H).
    apply modify_console in H1, H. congruence.
  - now injection H as <-.
Qed.

(** Outside a drag, the handlers of the translation sliders print nothing. *)
Lemma translateSelection_idle_console fuel : forall x y z s s',
  transformActive (win s) = false ->
  translateSelection fuel x y z s = Ok s' ->
  console s' = console s /\ transformActive (win s') = false.
Proof.
  induction fuel as [|fuel IH]; intros x y z s s' Ha H; [discriminate|].
  cbn [translateSelection] in H.
  change (selectedObjsParams (win (clearMessage s))) with (selectedObjsParams (win s)) in H.
  change (transformActive (win (clearMessage s))) with (transformActive (win s)) in H.
  rewrite Ha in H.
  destruct (Nat.eqb (List.length (selectedObjsParams (win s))) 0).
  - injection H as <-. now split.
  - cbn [negb] in H.
    assert (V : forall get set (f : State -> Z * Z * Z) t t',
              transformActive (win t) = false ->
              setValue get set
                (fun u => let '(a, b, c) := f u in translateSelection fuel a b c u) 0 t
              = Ok t' ->
              console t' = console t /\ transformActive (win t') = false).
    { intros get set f t t' Ht E. unfold setValue in E.
      destruct (Z.eqb _ _); [injection E as <-; now split|].
      destruct (f _) as [[a b] c0]. apply IH in E; [|exact Ht]. exact E. }
    apply bind_ok in H. destruct H as (s1 & H1 & H).
    apply bind_ok in H. destruct H as (s2 & H2 & H).
    apply bind_ok in H. destruct H as (s3 & H3 & H). injection H as <-.
    apply (V _ _ (fun u => (sldTranslateX (ui (win u)), 0%Z, 0%Z))) in H1; [|exact Ha].
    destruct H1 as [C1 A1].
    apply (V _ _ (fun u => (0%Z, sldTranslateY (ui (win u)), 0%Z))) in H2; [|exact A1].
    destruct H2 as [C2 A2].
    apply (V _ _ (fun u => (0%Z, 0%Z, sldTranslateZ (ui (win u))))) in H3; [|exact A2].
    destruct H3 as [C3 A3].
    change (console (clearMessage s)) with (console s) in C1.
    split; [simpl; congruence|exact A3].
Qed.

Lemma setTranslate_console fuel v s s' :
  transformActive (win s) = false ->
  setTranslateX fuel v s = Ok s' \/ setTranslateY fuel v s = Ok s'
  \/ setTranslateZ fuel v s = Ok s' ->
  console s' = console s.
Proof.
  intros Ha H.
  unfold setTranslateX, setTranslateY, setTranslateZ, setValue,
    sldTranslateXChanged, sldTranslateYChanged, sldTranslateZChanged in H.
  destruct H as [H|[H|H]];
    (destruct (Z.eqb _ _); [now injection H as <-|]);
    apply translateSelection_idle_console in H; try exact Ha; now destruct H.
Qed.

(** *** What the removal leaves *)

Lemma in_cleanupDoc label d o :
  In o (cleanupDoc label d) ->
  exists o0, In o0 d /\ ObjName o = ObjName o0 /\ Label o = Label o0.
Proof.
  unfold cleanupDoc. intro H. apply in_removeAll in H.
  destruct H as (o1 & H1 & _ & N1 & L1). apply in_removeAll in H1.
  destruct H1 as (o0 & H0 & _ & N0 & L0). exists o0. repeat split; congruence.
Qed.

(** In the document [removeGroup] leaves, an object that bore the label of
    the group is gone, and an object that did not, and was not one of the
    members read from the group, is still there. *)
Lemma cleanupDoc_live label d n o :
  NoDup (names d) -> find (named n) d = Some o ->
  (Label o = label -> live (cleanupDoc label d) n = false)
  /\ (Label o <> label -> ~ In n (nonFaceMembers d label) ->
      live (cleanupDoc label d) n = true).
Proof.
  intros Hd Hf.
  assert (Ho : In o d /\ ObjName o = n).
  { split; [apply find_some in Hf; apply Hf|exact (find_named_name _ _ _ Hf)]. }
  destruct Ho as [Ho Hn]. split.
  - intro Hl. destruct (live (cleanupDoc label d) n) eqn:E; [|reflexivity].
    apply live_names in E. unfold names in E. apply in_map_iff in E.
    destruct E as (o2 & N2 & I2).
    destruct (in_cleanupDoc _ _ _ I2) as (o0 & I0 & N0 & L0).
    assert (o0 = o) by (apply (unique_name d); [assumption..|congruence]). subst o0.
    destruct (cleanupDoc_removed label d) as [_ Nil].
    assert (X : In o2 (getObjectsByLabel label (cleanupDoc label d))).
    { unfold getObjectsByLabel. apply filter_In. split; [exact I2|].
      apply String.eqb_eq. congruence. }
    rewrite Nil in X. contradiction.
  - intros Hl Hm. apply live_names. unfold cleanupDoc.
    rewrite !names_removeAll. apply filter_In. split.
    + apply filter_In. split.
      * unfold names. rewrite <- Hn. now apply in_map.
      * apply negb_true_iff. destruct (existsb _ _) eqn:E; [|reflexivity].
        apply existsb_exists in E. destruct E as (k & Hk & Ek).
        apply Nat.eqb_eq in Ek. subst k. contradiction.
    + apply negb_true_iff. destruct (existsb _ _) eqn:E; [|reflexivity].
      apply existsb_exists in E. destruct E as (k & Hk & Ek).
      apply Nat.eqb_eq in Ek. subst k.
      apply in_map_iff in Hk. destruct Hk as (o1 & N1 & I1).
      unfold getObjectsByLabel in I1. apply filter_In in I1. destruct I1 as [I1 L1].
      apply String.eqb_eq in L1. apply in_removeAll in I1.
      destruct I1 as (o0 & I0 & _ & N0 & L0).
      assert (o0 = o) by (apply (unique_name d); [assumption..|congruence]). subst o0.
      congruence.
Qed.

Lemma faceMember_skipped d label m o :
  In m (faceMembers d label) -> find (named m) d = Some o ->
  In (notSelecting (Label o)) (skipped d label)
  /\ ~ In m (nonFaceMembers d label).
Proof.
  intros Hm Hf. split.
  - unfold skipped. apply in_map_iff. exists m. split; [|exact Hm].
    unfold labelOf. now rewrite Hf.
  - unfold faceMembers in Hm. unfold nonFaceMembers.
    destruct (findGroup label d) as [g|]; [|contradiction].
    destruct (find (named g) d) as [grp|]; [|contradiction].
    apply filter_In in Hm. destruct Hm as [_ Hm]. intro Hn.
    apply filter_In in Hn. destruct Hn as [_ Hn].
    unfold isFaceMember in Hm. unfold isNonFace in Hn. rewrite Hf in Hm, Hn.
    destruct (Shape o) as [sh|]; [|discriminate]. rewrite Hm in Hn. discriminate.
Qed.

Lemma getGroupObjects_unreadable label s :
  groupOk (doc s) label = false -> exists e, getGroupObjects label s = Raise e.
Proof.
  intro H. destruct (getGroupObjects label s) as [[ps s']|e] eqn:E; [|eauto].
  apply getGroupObjects_inv in E. destruct E as (_ & G & _). congruence.
Qed.

Lemma modify_quietly n f s s' :
  (forall L o, kept L True o (f o)) -> modify n f s = Ok s' -> quietly s s'.
Proof.
  intros Hf H. pose proof (modify_inv _ _ _ _ H) as [_ Hl].
  destruct (modify_view f s Hf Hl) as (s2 & E & Q). congruence.
Qed.

(** *** The run of the release *)

(** The steps of [sldReleased] up to the call of [removeGroup]: outside the
    view properties of the selected objects and the draw style, the document
    is as it was, and nothing was printed. *)
Lemma sldReleased_run (fuel : nat) (s : State) :
  transformActive (win s) = true ->
  releaseReady s = true ->
  exists s', sldReleased (4 + fuel) s = Ok s'
    /\ transformActive (win s') = false
    /\ docKept [] True (cleanupDoc GROUP_LABEL_TEMP_CENTER_LINES (doc s)) (doc s')
    /\ exists msgs,
         console s' = console s ++ skipped (doc s) GROUP_LABEL_TEMP_CENTER_LINES ++ msgs.
Proof.
  intros Ha Hr. unfold releaseReady in Hr. rewrite !andb_true_iff in Hr.
  destruct Hr as [[[[[Hbb Hg] Hdn] Hdm] Hgo] Hlines].
  unfold sldReleased. rewrite Ha. cbn [negb].
  set (s0 := onWin (set_transformActive false) s).
  assert (Ha0 : transformActive (win s0) = false) by reflexivity.
  destruct (setTranslate_settles fuel s0 Ha0) as ((s1 & E1 & R1) & _).
  rewrite E1. cbn [bind].
  assert (Ha1 : transformActive (win s1) = false)
    by (destruct R1 as (_ & _ & -> & _); exact Ha0).
  destruct (setTranslate_settles fuel s1 Ha1) as (_ & (s2 & E2 & R2) & _).
  rewrite E2. cbn [bind].
  assert (Ha2 : transformActive (win s2) = false)
    by (destruct R2 as (_ & _ & -> & _); exact Ha1).
  destruct (setTranslate_settles fuel s2 Ha2) as (_ & _ & (s3 & E3 & R3)).
  rewrite E3. cbn [bind].
  assert (C3 : console s3 = console s).
  { rewrite (setTranslate_console _ _ _ _ Ha2 (or_intror (or_intror E3))).
    rewrite (setTranslate_console _ _ _ _ Ha1 (or_intror (or_introl E2))).
    now rewrite (setTranslate_console _ _ _ _ Ha0 (or_introl E1)). }
  assert (R : settled s0 s3)
    by (eapply settled_trans; [exact R1|]; eapply settled_trans; eassumption).
  destruct R as (D3 & K3 & A3 & _). apply dragConst_fields in K3.
  destruct K3 as (_ & _ & _ & Hmc & Hmw & _ & _ & _ & Hsel & Hcl & _ & _ & _ & Hcb & Hrc).
  set (s4 := updateTranslationLabels s3).
  (* the bounding boxes *)
  assert (S5 : exists s5,
    (if chkBoundingBoxes (ui (win s4))
     then forEach (selectedObjsParams (win s4))
            (fun objParams => modify (object objParams)
                                (setBoundingBox (boundingBoxEnabled objParams))) s4
     else Ok s4) = Ok s5 /\ quietly s4 s5 /\ console s5 = console s4).
  { change (chkBoundingBoxes (ui (win s4))) with (chkBoundingBoxes (ui (win s3))).
    change (selectedObjsParams (win s4)) with (selectedObjsParams (win s3)).
    simpl in Hcb, Hsel. rewrite <- Hcb, <- Hsel.
    destruct (chkBoundingBoxes (ui (win s))); [|exists s4; now auto using quietly_refl].
    destruct (@forEach_rel _ (fun p t => live (doc t) (object p) = true) quietly
                (fun objParams => modify (object objParams)
                                    (setBoundingBox (boundingBoxEnabled objParams)))
                (selectedObjsParams (win s)) quietly_refl quietly_trans)
      with (s := s4) as (s5 & E5 & Q5).
    - intros p t t' Hp Q. now rewrite (live_quietly _ Q).
    - intros p t _ Hp.
      apply (modify_view (setBoundingBox (boundingBoxEnabled p)) t); [|exact Hp].
      intros L o. apply kept_setBoundingBox.
    - intros p Hp. simpl. rewrite D3. simpl. rewrite forallb_forall in Hbb.
      now apply Hbb.
    - exists s5. split; [exact E5|]. split; [exact Q5|].
      revert E5. apply forEach_console. intros a t t' _. apply modify_console. }
  destruct S5 as (s5 & -> & [W5 D5] & C5). cbn [bind].
  set (s6 := match drawStyleRevertAction (win s5) with
             | Some action => trigger action s5
             | None => s5
             end).
  assert (W6 : win s6 = win s5) by (unfold s6; now destruct (drawStyleRevertAction (win s5))).
  assert (D6 : doc s6 = doc s5) by (unfold s6; now destruct (drawStyleRevertAction (win s5))).
  assert (C6 : console s6 = console s)
    by (unfold s6; destruct (drawStyleRevertAction (win s5)); simpl; rewrite C5; exact C3).
  assert (K : forall L, docKept L True (doc s) (doc s6)).
  { intro L. rewrite D6.
    replace (doc s) with (doc s4) by (simpl; rewrite D3; reflexivity). apply D5. }
  destruct (removeGroup_cleanup GROUP_LABEL_TEMP_CENTER_LINES s6) as (s7 & E7 & W7 & D7).
  { now rewrite (groupOk_kept _ (K [])). }
  { rewrite (names_kept _ _ _ _ (K [])). now apply distinct_NoDup. }
  { rewrite (nonFaceMembers_kept _ _ _ _ _ (K [])). now apply distinct_NoDup. }
  rewrite E7. cbn [bind].
  assert (C7 : console s7 = console s ++ skipped (doc s) GROUP_LABEL_TEMP_CENTER_LINES).
  { rewrite (removeGroup_console _ _ _ E7), C6. f_equal.
    unfold skipped, faceMembers. rewrite (findGroup_kept _ (K [])).
    destruct (findGroup GROUP_LABEL_TEMP_CENTER_LINES (doc s)) as [g|]; [|reflexivity].
    pose proof (docKept_find g (K [])) as F.
    destruct (find (named g) (doc s)) as [grp|];
      [destruct F as (grp' & -> & Kg)|now rewrite F].
    apply kept_fields in Kg. destruct Kg as (_ & _ & _ & _ & _ & ->).
    induction (Group grp) as [|m l IH]; [reflexivity|]. cbn [filter].
    assert (Em : isFaceMember (doc s6) m = isFaceMember (doc s) m).
    { unfold isFaceMember. pose proof (docKept_find m (K [])) as Fm.
      destruct (find (named m) (doc s)) as [o|];
        [destruct Fm as (o' & -> & Ko)|now rewrite Fm].
      apply kept_fields in Ko. now destruct Ko as (_ & _ & _ & -> & _). }
    rewrite Em. destruct (isFaceMember (doc s) m); [|exact IH].
    cbn [map]. now rewrite IH, (labelOf_kept _ _ _ _ m (K [])). }
  assert (K7 : forall L, docKept L True (cleanupDoc GROUP_LABEL_TEMP_CENTER_LINES (doc s))
                           (doc s7))
    by (intro L; rewrite D7; apply docKept_cleanup, K).
  destruct (formatOriginMark_ok s7) as (s8 & E8 & [W8 D8]).
  { now rewrite (groupOk_kept _ (K7 [])). }
  rewrite E8. cbn [bind].
  destruct (formatOriginMark_console _ _ E8) as (msgs & C8).
  assert (W : win s8 = win s4) by congruence.
  destruct (@forEach_rel _ (fun p t => live (doc t) (object p) = true) quietly
              (fun centerLine => clearHighlight (object centerLine))
              (centerLinesParams (win s8)) quietly_refl quietly_trans)
    with (s := s8) as (s9 & E9 & [W9 D9]).
  { intros p t t' Hp Q. now rewrite (live_quietly _ Q). }
  { intros p t _ Hp. now apply clearHighlight_ok. }
  { intros p Hp. rewrite (live_kept _ (D8 [])), (live_kept _ (K7 [])).
    rewrite forallb_forall in Hlines. apply Hlines.
    rewrite W in Hp. simpl in Hp, Hcl. rewrite <- Hcl in Hp. exact Hp. }
  rewrite E9. cbn [bind].
  assert (C9 : console s9 = console s8)
    by (revert E9; apply forEach_console; intros a t t' _; apply clearHighlight_console).
  eexists. split; [reflexivity|].
  assert (K9 : docKept [] True (cleanupDoc GROUP_LABEL_TEMP_CENTER_LINES (doc s)) (doc s9))
    by (eapply docKept_trans; [apply K7|]; eapply docKept_trans; [apply D8|apply D9]).
  split; [|split].
  - destruct (chkAutoRecompute (ui (win s9))); simpl; rewrite W9, W; simpl; exact A3.
  - now destruct (chkAutoRecompute (ui (win s9))).
  - exists msgs.
    replace (console (if chkAutoRecompute (ui (win s9)) then recompute s9 else s9))
      with (console s9) by now destruct (chkAutoRecompute (ui (win s9))).
    now rewrite C9, C8, C7, <- app_assoc.
Qed.

(** When the group of the temporary lines cannot be read, the release ends
    with an exception. *)
Lemma sldReleased_unreadable (fuel : nat) (s : State) :
  transformActive (win s) = true ->
  groupOk (doc s) GROUP_LABEL_TEMP_CENTER_LINES = false ->
  exists e, sldReleased (4 + fuel) s = Raise e.
Proof.
  intros Ha Hg. unfold sldReleased. rewrite Ha. cbn [negb].
  set (s0 := onWin (set_transformActive false) s).
  assert (Ha0 : transformActive (win s0) = false) by reflexivity.
  destruct (setTranslate_settles fuel s0 Ha0) as ((s1 & -> & R1) & _). cbn [bind].
  assert (Ha1 : transformActive (win s1) = false)
    by (destruct R1 as (_ & _ & -> & _); exact Ha0).
  destruct (setTranslate_settles fuel s1 Ha1) as (_ & (s2 & -> & R2) & _). cbn [bind].
  assert (Ha2 : transformActive (win s2) = false)
    by (destruct R2 as (_ & _ & -> & _); exact Ha1).
  destruct (setTranslate_settles fuel s2 Ha2) as (_ & _ & (s3 & -> & R3)). cbn [bind].
  assert (R : settled s0 s3)
    by (eapply settled_trans; [exact R1|]; eapply settled_trans; eassumption).
  destruct R as (D3 & _).
  set (s4 := updateTranslationLabels s3).
  destruct (if chkBoundingBoxes (ui (win s4))
            then forEach (selectedObjsParams (win s4))
                   (fun objParams => modify (object objParams)
                                       (setBoundingBox (boundingBoxEnabled objParams))) s4
            else Ok s4) as [s5|e] eqn:E5; [|cbn [bind]; eauto].
  cbn [bind].
  assert (Q5 : quietly s4 s5).
  { destruct (chkBoundingBoxes (ui (win s4))); [|injection E5 as <-; apply quietly_refl].
    revert E5. apply forEach_inv; [apply quietly_refl|apply quietly_trans|].
    intros p t t' _. apply modify_quietly. intros L o. apply kept_setBoundingBox. }
  destruct Q5 as [_ D5].
  set (s6 := match drawStyleRevertAction (win s5) with
             | Some action => trigger action s5
             | None => s5
             end).
  assert (D6 : doc s6 = doc s5) by (unfold s6; now destruct (drawStyleRevertAction (win s5))).
  assert (G6 : groupOk (doc s6) GROUP_LABEL_TEMP_CENTER_LINES = false).
  { rewrite D6, (groupOk_kept _ (D5 [])). simpl. rewrite D3. exact Hg. }
  unfold removeGroup.
  destruct (getGroupObjects_unreadable _ _ G6) as (e & ->). cbn [bind]. eauto.
Qed.

(** C4, amended.  The cleanup at the end of a drag is conditional.  When the
    group of the temporary center lines cannot be read (a member that is not
    in the document or has no [Shape], or a member without a center whose
    shape is not a face), [sldReleased] ends with an exception.  When the
    release can run to its end ([releaseReady]), it returns and has removed
    from the document the members of the group whose shape is not a face and
    every object that bears the label of the group, the group among them, and
    no other object; for a member whose shape is a face it prints
    [Not selecting], and that member stays in the document unless it bears
    the label of the group. *)
Theorem temporary_marks_removed (fuel : nat) (s : State) :
  transformActive (win s) = true ->
  (groupOk (doc s) GROUP_LABEL_TEMP_CENTER_LINES = false ->
   exists e, sldReleased (4 + fuel) s = Raise e)
  /\ (releaseReady s = true ->
      exists s' msgs,
        sldReleased (4 + fuel) s = Ok s'
        /\ transformActive (win s') = false
        /\ console s' = console s ++ msgs
        /\ (forall n, In n (nonFaceMembers (doc s) GROUP_LABEL_TEMP_CENTER_LINES) ->
              live (doc s') n = false)
        /\ getObjectsByLabel GROUP_LABEL_TEMP_CENTER_LINES (doc s') = []
        /\ (forall g, findGroup GROUP_LABEL_TEMP_CENTER_LINES (doc s) = Some g ->
              live (doc s') g = false)
        /\ (forall n o, find (named n) (doc s) = Some o ->
              (Label o = GROUP_LABEL_TEMP_CENTER_LINES -> live (doc s') n = false)
              /\ (Label o <> GROUP_LABEL_TEMP_CENTER_LINES ->
                  ~ In n (nonFaceMembers (doc s) GROUP_LABEL_TEMP_CENTER_LINES) ->
                  live (doc s') n = true))
        /\ (forall m o,
              In m (faceMembers (doc s) GROUP_LABEL_TEMP_CENTER_LINES) ->
              find (named m) (doc s) = Some o ->
              In (notSelecting (Label o)) msgs
              /\ (Label o <> GROUP_LABEL_TEMP_CENTER_LINES -> live (doc s') m = true))).
Proof.
  intro Ha. split; [now apply sldReleased_unreadable|]. intro Hr.
  destruct (sldReleased_run fuel s Ha Hr) as (s' & E & A & K & msgs & C).
  assert (Hd : NoDup (names (doc s))).
  { unfold releaseReady in Hr. rewrite !andb_true_iff in Hr.
    destruct Hr as [[[[[_ _] Hdn] _] _] _]. now apply distinct_NoDup. }
  destruct (cleanupDoc_removed GROUP_LABEL_TEMP_CENTER_LINES (doc s)) as [Gone Nil].
  assert (Hlive : forall n o, find (named n) (doc s) = Some o ->
            (Label o = GROUP_LABEL_TEMP_CENTER_LINES -> live (doc s') n = false)
            /\ (Label o <> GROUP_LABEL_TEMP_CENTER_LINES ->
                ~ In n (nonFaceMembers (doc s) GROUP_LABEL_TEMP_CENTER_LINES) ->
                live (doc s') n = true)).
  { intros n o Hf. rewrite (live_kept _ K).
    exact (cleanupDoc_live GROUP_LABEL_TEMP_CENTER_LINES (doc s) n o Hd Hf). }
  exists s', (skipped (doc s) GROUP_LABEL_TEMP_CENTER_LINES ++ msgs).
  split; [exact E|]. split; [exact A|]. split; [exact C|]. split; [|split; [|split; [|split]]].
  - intros n Hn. rewrite (live_kept _ K). now apply Gone.
  - exact (docKept_labelled_nil _ _ _ _ _ K Nil).
  - intros g Hg. destruct (findGroup_labelled _ _ _ Hg) as (o & Ho & Hn & Hl).
    destruct (find (named g) (doc s)) as [o'|] eqn:Ef.
    + assert (o' = o).
      { apply (unique_name (doc s)); [exact Hd| |exact Ho|].
        - apply find_some in Ef. apply Ef.
        - rewrite (find_named_name _ _ _ Ef). now symmetry. }
      subst o'. now apply (Hlive g o Ef).
    + exfalso. apply (find_none _ _ Ef) in Ho. unfold named in Ho.
      rewrite Hn, Nat.eqb_refl in Ho. discriminate.
  - exact Hlive.
  - intros m o Hm Hf. destruct (faceMember_skipped _ _ _ _ Hm Hf) as [Hin Hout].
    split; [apply in_or_app; now left|].
    intro Hl. now apply (Hlive m o Hf).
Qed.

Lemma temporary_marks_removed_witness :
  transformActive (win exPlane) = true
  /\ releaseReady exPlane = true
  /\ faceMembers (doc exPlane) GROUP_LABEL_TEMP_CENTER_LINES = [2%nat]
  /\ (exists s' msgs,
        sldReleased (4 + 0) exPlane = Ok s'
        /\ transformActive (win s') = false
        /\ console s' = console exPlane ++ msgs
        /\ (forall n, In n (nonFaceMembers (doc exPlane) GROUP_LABEL_TEMP_CENTER_LINES) ->
              live (doc s') n = false)
        /\ getObjectsByLabel GROUP_LABEL_TEMP_CENTER_LINES (doc s') = []
        /\ (forall g, findGroup GROUP_LABEL_TEMP_CENTER_LINES (doc exPlane) = Some g ->
              live (doc s') g = false)
        /\ (forall n o, find (named n) (doc exPlane) = Some o ->
              (Label o = GROUP_LABEL_TEMP_CENTER_LINES -> live (doc s') n = false)
              /\ (Label o <> GROUP_LABEL_TEMP_CENTER_LINES ->
                  ~ In n (nonFaceMembers (doc exPlane) GROUP_LABEL_TEMP_CENTER_LINES) ->
                  live (doc s') n = true))
        /\ (forall m o,
              In m (faceMembers (doc exPlane) GROUP_LABEL_TEMP_CENTER_LINES) ->
              find (named m) (doc exPlane) = Some o ->
              In (notSelecting (Label o)) msgs
              /\ (Label o <> GROUP_LABEL_TEMP_CENTER_LINES -> live (doc s') m = true)))
  /\ transformActive (win exMeshed) = true
  /\ groupOk (doc exMeshed) GROUP_LABEL_TEMP_CENTER_LINES = false
  /\ exists e, sldReleased (4 + 0) exMeshed = Raise e.
Proof.
  split; [reflexivity|]. split; [vm_compute; reflexivity|].
  split; [vm_compute; reflexivity|]. split.
  - refine (proj2 (temporary_marks_removed 0 exPlane _) _); vm_compute; reflexivity.
  - split; [reflexivity|]. split; [vm_compute; reflexivity|].
    refine (proj1 (temporary_marks_removed 0 exMeshed _) _); vm_compute; reflexivity.
Defined.

(** The temporary lines of the drag join the plane in the group; at the
    release the lines and the group are removed, and the plane stays. *)
Lemma cleanup_counterexample : ~ cleanupRemovesAll 4 exPlane.
Proof.
  intros (s' & E & H).
  assert (L : live (doc s') 2 = true).
  { apply (f_equal (fun r => match r with
                             | Ok t => live (doc t) 2
                             | Raise _ => false
                             end)) in E.
    vm_compute in E. symmetry. exact E. }
  destruct (H 3%nat
              (mkObj 3 GROUP_LABEL_TEMP_CENTER_LINES
                 "App::DocumentObjectGroup"%string (mkVector 0 0 0)
                 None None [2; 4; 5; 6; 7; 8; 9]%nat zero zero zero zero zero zero
                 (mkView (zero, zero, zero, zero) 2 false)))
    as [_ M]; [vm_compute; reflexivity|vm_compute; reflexivity|].
  rewrite (M 2%nat) in L; [discriminate|now left].
Qed.
